(** * CyberCache: a verification development

    Shallow embedding of the cataloguing back end of cmdaltr/cybercache
    (Python, [src/backend]) and the properties its specification states
    about it.

    - [Py]          Python strings and the built-ins the code relies on
    - [Classifier]  [classifier.py]: the keyword strategy
    - [Security]    [security.py]: [InputValidator]
    - [Watcher]     [file_watcher.py]: the extension allow-list and the
                    category of a path
    - [Hashlib]     [hashlib.md5], as [add_resource] calls it
    - [Database]    [database.py]: the SQLite-backed store, and the PUT
                    route of [app.py]

    Python [str] values are sequences of Unicode code points; they are
    modelled as [list N].  String literals of the source are written
    [lit "..."]. *)

From Stdlib Require Import List Bool Arith ZArith NArith Lia.
From Stdlib Require Import Strings.String Strings.Ascii DecimalString.
From Stdlib Require Import Floats.SpecFloat.
Import ListNotations.
Local Open Scope list_scope.

(* ================================================================== *)
(** * Python strings and built-ins *)
(* ================================================================== *)

Module Py.

Definition char := N.
Definition str := list char.

(** A literal of the source text. *)
Definition lit (s : String.string) : str :=
  map Ascii.N_of_ascii (String.list_ascii_of_string s).
Arguments lit s%_string.

Definition chr (a : Ascii.ascii) : char := Ascii.N_of_ascii a.
Arguments chr a%_char.

Fixpoint str_eqb (a b : str) : bool :=
  match a, b with
  | [], [] => true
  | x :: a', y :: b' => N.eqb x y && str_eqb a' b'
  | _, _ => false
  end.

(** [s.startswith(p)] *)
Fixpoint startswith (s p : str) : bool :=
  match p, s with
  | [], _ => true
  | _ :: _, [] => false
  | x :: p', y :: s' => N.eqb x y && startswith s' p'
  end.

(** [needle in hay] on strings: substring test. *)
Fixpoint str_in (needle hay : str) : bool :=
  startswith hay needle ||
  match hay with
  | [] => false
  | _ :: hay' => str_in needle hay'
  end.

(** [x in l] on a list or set of strings. *)
Definition mem (x : str) (l : list str) : bool := existsb (str_eqb x) l.

(** [sep.join(parts)] *)
Fixpoint join (sep : str) (parts : list str) : str :=
  match parts with
  | [] => []
  | [p] => p
  | p :: rest => p ++ sep ++ join sep rest
  end.

(** ** Insertion-ordered dictionaries

    A Python [dict] iterates in insertion order; assigning to a key that
    is already present keeps its position. *)

Definition dict (V : Type) := list (str * V).

Fixpoint dict_get {V} (d : dict V) (k : str) : option V :=
  match d with
  | [] => None
  | (k', v) :: d' => if str_eqb k k' then Some v else dict_get d' k
  end.

Fixpoint dict_set {V} (d : dict V) (k : str) (v : V) : dict V :=
  match d with
  | [] => [(k, v)]
  | (k', v') :: d' =>
      if str_eqb k k' then (k', v) :: d' else (k', v') :: dict_set d' k v
  end.

Definition dict_keys {V} (d : dict V) : list str := map fst d.

(** [max(iterable, key=f)]: the first element whose key is maximal; the
    running best is replaced only by a strictly greater key. *)
Fixpoint max_from {A} (key : A -> nat) (best : A) (l : list A) : A :=
  match l with
  | [] => best
  | x :: l' => max_from key (if key best <? key x then x else best) l'
  end.

Definition py_max {A} (key : A -> nat) (l : list A) : option A :=
  match l with
  | [] => None
  | x :: l' => Some (max_from key x l')
  end.

Lemma str_eqb_refl : forall a, str_eqb a a = true.
Proof.
  induction a as [|x a IH]; simpl; [reflexivity|].
  now rewrite N.eqb_refl, IH.
Qed.

Lemma str_eqb_eq : forall a b, str_eqb a b = true <-> a = b.
Proof.
  induction a as [|x a IH]; destruct b as [|y b]; simpl; split;
    try congruence; try reflexivity.
  - intros H. apply andb_true_iff in H. destruct H as [H1 H2].
    apply N.eqb_eq in H1. apply IH in H2. now subst.
  - intros H. injection H as -> ->. now rewrite N.eqb_refl, str_eqb_refl.
Qed.

Lemma str_eq_dec : forall a b : str, {a = b} + {a <> b}.
Proof. apply list_eq_dec, N.eq_dec. Qed.

(** The running maximum is an element of the input, dominates every
    element, and strictly dominates whatever was seen before it. *)
Lemma max_from_spec : forall A (key : A -> nat) l best m,
  max_from key best l = m ->
  key best <= key m /\
  (forall y, In y l -> key y <= key m) /\
  (m = best \/
   exists l1 l2, l = l1 ++ m :: l2 /\ key best < key m /\
                 forall y, In y l1 -> key y < key m).
Proof.
  induction l as [|x l IH]; intros best m Hm; simpl in Hm.
  - subst m. repeat split; auto. intros y [].
  - destruct (Nat.ltb_spec (key best) (key x)) as [Hlt|Hge];
      destruct (IH _ _ Hm) as (H1 & H2 & H3); clear IH.
    + split; [lia|]. split.
      * intros y [Hy|Hy]; [subst y; exact H1 | auto].
      * right. destruct H3 as [Hx|(l1 & l2 & Hl & Hlt' & Hl1)].
        -- exists [], l. simpl. rewrite Hx.
           repeat split; auto. intros y [].
        -- exists (x :: l1), l2. simpl. rewrite Hl.
           repeat split; [lia|].
           intros y [Hy|Hy]; [subst y; exact Hlt' | auto].
    + split; [lia|]. split.
      * intros y [Hy|Hy]; [subst y; lia | auto].
      * destruct H3 as [Hx|(l1 & l2 & Hl & Hlt' & Hl1)]; [now left|].
        right. exists (x :: l1), l2. simpl. rewrite Hl.
        repeat split; auto.
        intros y [Hy|Hy]; [subst y; lia | auto].
Qed.

Lemma startswith_spec : forall p s,
  startswith s p = true <-> exists t, s = p ++ t.
Proof.
  induction p as [|x p IH]; intros s.
  - split; [intros _; now exists s | intros _; destruct s; reflexivity].
  - destruct s as [|y s]; simpl.
    + split; [discriminate | intros [t H]; discriminate H].
    + rewrite andb_true_iff, IH, N.eqb_eq. split.
      * intros [-> [t ->]]. now exists t.
      * intros [t H]. injection H as -> ->. eauto.
Qed.

Lemma str_in_spec : forall needle hay,
  str_in needle hay = true <->
  exists before after, hay = before ++ needle ++ after.
Proof.
  intros needle hay. split.
  - induction hay as [|c hay IH].
    + change (str_in needle []) with (startswith [] needle || false).
      rewrite orb_true_iff. intros [H|H]; [|discriminate].
      apply startswith_spec in H. destruct H as [t H]. now exists [], t.
    + change (str_in needle (c :: hay))
        with (startswith (c :: hay) needle || str_in needle hay).
      rewrite orb_true_iff. intros [H|H].
      * apply startswith_spec in H. destruct H as [t H]. now exists [], t.
      * destruct (IH H) as [b [a ->]]. now exists (c :: b), a.
  - intros [b [a ->]]. induction b as [|c b IH].
    + assert (H : startswith (needle ++ a) needle = true)
        by (apply startswith_spec; eauto).
      cbn [app]. destruct (needle ++ a) as [|c hay].
      * change (str_in needle []) with (startswith [] needle || false).
        now rewrite H.
      * change (str_in needle (c :: hay))
          with (startswith (c :: hay) needle || str_in needle hay).
        now rewrite H.
    + change (str_in needle ((c :: b) ++ needle ++ a))
        with (startswith ((c :: b) ++ needle ++ a) needle
              || str_in needle (b ++ needle ++ a)).
      rewrite IH. apply orb_true_r.
Qed.

(** Being a substring is transitive. *)
Lemma str_in_trans : forall a b c,
  str_in a b = true -> str_in b c = true -> str_in a c = true.
Proof.
  intros a b c Hab Hbc.
  apply str_in_spec in Hab. destruct Hab as [p1 [s1 ->]].
  apply str_in_spec in Hbc. destruct Hbc as [p2 [s2 ->]].
  apply str_in_spec. exists (p2 ++ p1), (s1 ++ s2).
  now rewrite <- !app_assoc.
Qed.

End Py.

(* ================================================================== *)
(** * classifier.py *)
(* ================================================================== *)

Module Classifier.
Import Py.

(** The attributes [ResourceClassifier.__init__] sets.  The two API keys
    come from the process environment. *)
Record ResourceClassifier := {
  openai_api_key : option str;
  anthropic_api_key : option str;
  category_keywords : dict (list str);
  tag_keywords : dict (list str)
}.

Definition blue_team_keywords : list str := map lit
  [ "defense"; "defensive"; "siem"; "soc"; "monitoring"; "detection";
    "incident response"; "forensics"; "blue team"; "splunk"; "elk";
    "security operations"; "threat detection"; "ids"; "ips"; "firewall";
    "hardening"; "compliance"; "audit"; "defender"; "edr"; "xdr" ]%string.

Definition red_team_keywords : list str := map lit
  [ "offensive"; "penetration"; "pentest"; "exploit"; "attack";
    "vulnerability"; "metasploit"; "kali"; "red team"; "social engineering";
    "phishing"; "payload"; "reverse shell"; "privilege escalation";
    "lateral movement"; "persistence"; "evasion"; "bypass"; "crack" ]%string.

Definition threat_intelligence_keywords : list str := map lit
  [ "intelligence"; "threat intel"; "apt"; "indicators"; "ioc";
    "threat actor"; "campaign"; "attribution"; "malware analysis";
    "threat hunting"; "osint"; "reconnaissance"; "mitre att&ck";
    "threat landscape"; "adversary"; "ttp" ]%string.

Definition default_category_keywords : dict (list str) :=
  [ (lit "Blue Team", blue_team_keywords);
    (lit "Red Team", red_team_keywords);
    (lit "Threat Intelligence", threat_intelligence_keywords) ].

Definition default_tag_keywords : dict (list str) :=
  map (fun '(tag, kws) => (lit tag, map lit kws))
  [ ("virtual-machine", ["vm"; "virtual machine"; "virtualbox"; "vmware"; "ova"; "ovf"]);
    ("cheatsheet", ["cheat sheet"; "cheatsheet"; "quick reference"; "commands"]);
    ("poster", ["poster"; "infographic"; "visual guide"; "reference card"]);
    ("tool", ["tool"; "software"; "utility"; "application"; "framework"]);
    ("framework", ["framework"; "methodology"; "standard"; "model"]);
    ("guide", ["guide"; "tutorial"; "walkthrough"; "handbook"; "manual"]);
    ("training", ["training"; "course"; "learning"; "education"; "ctf"]);
    ("certification", ["certification"; "cert"; "exam"; "qualification"]);
    ("documentation", ["documentation"; "docs"; "reference"; "specification"]);
    ("research", ["research"; "paper"; "whitepaper"; "study"; "analysis"])
  ]%string.

(** [ResourceClassifier()], given the two environment variables. *)
Definition init (openai anthropic : option str) : ResourceClassifier :=
  {| openai_api_key := openai;
     anthropic_api_key := anthropic;
     category_keywords := default_category_keywords;
     tag_keywords := default_tag_keywords |}.

(** What [_classify_keywords] returns: the dict with keys ['category'],
    ['tags'] and ['confidence']. *)
Record Classification := {
  category : option str;
  tags : list str;
  confidence : str
}.

(** Methods run against the object they are called on: a computation
    receives [self] and hands it back, possibly changed. *)
Definition M (A : Type) := ResourceClassifier -> A * ResourceClassifier.
Definition ret {A} (a : A) : M A := fun self => (a, self).
Definition bind {A B} (m : M A) (k : A -> M B) : M B :=
  fun self => let '(a, self') := m self in k a self'.
Definition attr {A} (field : ResourceClassifier -> A) : M A :=
  fun self => (field self, self).

Notation "x <- m ;; k" := (bind m (fun x => k))
  (at level 61, m at next level, right associativity).

(** [sum(1 for keyword in keywords if keyword in text)] *)
Definition keyword_score (keywords : list str) (text : str) : nat :=
  List.length (filter (fun keyword => str_in keyword text) keywords).

(** The first loop: [category_scores] holds the categories that scored
    above zero, in declaration order. *)
Definition score_categories (table : dict (list str)) (text : str) : dict nat :=
  fold_left
    (fun category_scores '(category, keywords) =>
       let score := keyword_score keywords text in
       if 0 <? score then dict_set category_scores category score
       else category_scores)
    table [].

(** [category_scores.get], as the key function of [max]; a missing key
    cannot occur for a key of the dict itself. *)
Definition score_of (category_scores : dict nat) (category : str) : nat :=
  match dict_get category_scores category with
  | Some n => n
  | None => 0
  end.

(** The second loop: the tags whose keyword list has a hit. *)
Definition generate_tags (table : dict (list str)) (text : str) : list str :=
  fold_left
    (fun tags '(tag, keywords) =>
       if existsb (fun keyword => str_in keyword text) keywords
       then tags ++ [tag] else tags)
    table [].

Definition category_tag (primary_category : option str) : list str :=
  match primary_category with
  | Some c =>
      if str_in (lit "Blue Team") c then [lit "defensive"]
      else if str_in (lit "Red Team") c then [lit "offensive"]
      else if str_in (lit "Intelligence") c then [lit "intelligence"]
      else []
  | None => []
  end.

Definition _classify_keywords (text : str) : M Classification :=
  table <- attr category_keywords ;;
  let category_scores := score_categories table text in
  let primary_category :=
    match category_scores with
    | [] => None
    | _ => py_max (score_of category_scores) (dict_keys category_scores)
    end in
  tag_table <- attr tag_keywords ;;
  let tags := generate_tags tag_table text in
  let tags := tags ++ category_tag primary_category in
  ret {| category := primary_category;
         tags := tags;
         confidence := match category_scores with
                       | [] => lit "low"
                       | _ => lit "medium"
                       end |}.

(** ** Properties of the keyword strategy *)

Definition run_classify_keywords (self : ResourceClassifier) (text : str)
  : Classification := fst (_classify_keywords text self).

(** Three distinct categories [k1], [k2], [k3], declared in this order:
    the first one whose score is maximal wins. *)
Lemma classify_three_categories :
  forall o a k1 k2 k3 w1 w2 w3 tag_table (text : str),
    str_eqb k2 k1 = false -> str_eqb k3 k1 = false -> str_eqb k3 k2 = false ->
    let b := keyword_score w1 text in
    let r := keyword_score w2 text in
    let t := keyword_score w3 text in
    let res := run_classify_keywords
                 {| openai_api_key := o; anthropic_api_key := a;
                    category_keywords := [(k1, w1); (k2, w2); (k3, w3)];
                    tag_keywords := tag_table |} text in
    match category res with
    | None => b = 0 /\ r = 0 /\ t = 0 /\ confidence res = lit "low"
    | Some c =>
        confidence res = lit "medium" /\
        ((c = k1 /\ 0 < b /\ r <= b /\ t <= b) \/
         (c = k2 /\ b < r /\ t <= r) \/
         (c = k3 /\ b < t /\ r < t))
    end.
Proof.
  intros o a k1 k2 k3 w1 w2 w3 tag_table text H21 H31 H32 b r t res.
  unfold res, run_classify_keywords, _classify_keywords, bind, attr, ret.
  cbn [fst category confidence category_keywords tag_keywords].
  unfold score_categories. cbn [fold_left]. fold b r t.
  clearbody b r t. clear res.
  pose proof (str_eqb_refl k1) as H11.
  pose proof (str_eqb_refl k2) as H22.
  pose proof (str_eqb_refl k3) as H33.
  destruct (Nat.ltb_spec 0 b), (Nat.ltb_spec 0 r), (Nat.ltb_spec 0 t);
    repeat (progress (unfold score_of; cbn -[Nat.ltb str_eqb];
                      rewrite ?H21, ?H31, ?H32, ?H11, ?H22, ?H33));
    repeat match goal with
           | |- context [Nat.ltb ?x ?y] =>
               is_var x; is_var y;
               destruct (Nat.ltb_spec x y);
               repeat (progress (unfold score_of; cbn -[Nat.ltb str_eqb];
                         rewrite ?H21, ?H31, ?H32, ?H11, ?H22, ?H33))
           end;
    repeat split; auto; try lia;
    first [ left; repeat split; auto; lia
          | right; left; repeat split; auto; lia
          | right; right; repeat split; auto; lia ].
Qed.

(** C3: on every text the keyword strategy returns the category with the
    highest keyword count, the first declared one among equals (Blue Team,
    then Red Team, then Threat Intelligence); with no count above zero the
    category is null and the confidence "low", otherwise the confidence is
    "medium". *)
Theorem classify_keywords_picks_first_best :
  forall (openai anthropic : option str) (text : str),
    let b := keyword_score blue_team_keywords text in
    let r := keyword_score red_team_keywords text in
    let t := keyword_score threat_intelligence_keywords text in
    let res := run_classify_keywords (init openai anthropic) text in
    match category res with
    | None => b = 0 /\ r = 0 /\ t = 0 /\ confidence res = lit "low"
    | Some c =>
        confidence res = lit "medium" /\
        ((c = lit "Blue Team" /\ 0 < b /\ r <= b /\ t <= b) \/
         (c = lit "Red Team" /\ b < r /\ t <= r) \/
         (c = lit "Threat Intelligence" /\ b < t /\ r < t))
    end.
Proof.
  intros openai anthropic text.
  exact (classify_three_categories openai anthropic
           (lit "Blue Team") (lit "Red Team") (lit "Threat Intelligence")
           blue_team_keywords red_team_keywords threat_intelligence_keywords
           default_tag_keywords text eq_refl eq_refl eq_refl).
Qed.

(** ** Tags *)

(** The second loop keeps, in declaration order, the tags whose keyword
    list has a hit. *)
Lemma generate_tags_filter : forall table text,
  generate_tags table text
  = map fst (filter (fun entry : str * list str =>
                       existsb (fun keyword => str_in keyword text)
                               (snd entry))
               table).
Proof.
  intros table text. unfold generate_tags.
  assert (H : forall acc,
            fold_left
              (fun tags '(tag, keywords) =>
                 if existsb (fun keyword => str_in keyword text) keywords
                 then tags ++ [tag] else tags)
              table acc
            = acc ++ map fst (filter (fun entry : str * list str =>
                          existsb (fun keyword => str_in keyword text)
                                  (snd entry))
                        table)).
  { induction table as [|[tag kws] table IH]; intros acc; simpl.
    - now rewrite app_nil_r.
    - rewrite IH. destruct (existsb _ kws); simpl;
        [now rewrite <- app_assoc | reflexivity]. }
  apply (H []).
Qed.

Lemma existsb_longer : forall keywords text longer,
  str_in text longer = true ->
  existsb (fun keyword => str_in keyword text) keywords = true ->
  existsb (fun keyword => str_in keyword longer) keywords = true.
Proof.
  intros keywords text longer Hin H. apply existsb_exists in H.
  destruct H as [k [Hk H]]. apply existsb_exists. exists k.
  split; [exact Hk | exact (str_in_trans _ _ _ H Hin)].
Qed.

Lemma keyword_score_longer : forall keywords text longer,
  str_in text longer = true ->
  keyword_score keywords text <= keyword_score keywords longer.
Proof.
  intros keywords text longer Hin. unfold keyword_score.
  induction keywords as [|k keywords IH]; simpl; [lia|].
  destruct (str_in k text) eqn:H.
  - rewrite (str_in_trans _ _ _ H Hin). simpl. lia.
  - destruct (str_in k longer); simpl; lia.
Qed.

Lemma generate_tags_longer : forall table text longer tag,
  str_in text longer = true ->
  In tag (generate_tags table text) -> In tag (generate_tags table longer).
Proof.
  intros table text longer tag Hin. rewrite !generate_tags_filter.
  rewrite !in_map_iff. intros [entry [Htag H]]. exists entry.
  split; [exact Htag|]. apply filter_In in H. apply filter_In.
  split; [tauto|]. apply (existsb_longer _ text); tauto.
Qed.

Definition category_tags : list str :=
  map lit ["defensive"; "offensive"; "intelligence"]%string.

Lemma category_tag_range : forall c tag,
  In tag (category_tag c) -> In tag category_tags.
Proof.
  intros [c|] tag; simpl; [|tauto].
  destruct (str_in (lit "Blue Team") c);
    [intros [<-|[]]; simpl; tauto|].
  destruct (str_in (lit "Red Team") c);
    [intros [<-|[]]; simpl; tauto|].
  destruct (str_in (lit "Intelligence") c);
    [intros [<-|[]]; simpl; tauto | intros []].
Qed.

Lemma classified_tags : forall self text,
  tags (run_classify_keywords self text)
  = generate_tags (tag_keywords self) text
    ++ category_tag (category (run_classify_keywords self text)).
Proof. reflexivity. Qed.

(** X20: the keyword strategy looks for substrings, so more text never
    loses a hit: when [text] occurs in [longer], no keyword count of a
    category is lower for [longer], and every tag given to [text] is
    given to [longer] too, apart from the one tag that follows the
    category. *)
Theorem longer_text_keeps_every_hit :
  forall (self : ResourceClassifier) (text longer : str),
    str_in text longer = true ->
    (forall category keywords,
       In (category, keywords) (category_keywords self) ->
       keyword_score keywords text <= keyword_score keywords longer) /\
    (forall tag,
       In tag (tags (run_classify_keywords self text)) ->
       In tag category_tags \/
       In tag (tags (run_classify_keywords self longer))).
Proof.
  intros self text longer Hin. split.
  - intros c kws _. now apply keyword_score_longer.
  - intros tag. rewrite !classified_tags. intros H.
    apply in_app_or in H. destruct H as [H|H].
    + right. apply in_or_app. left.
      now apply (generate_tags_longer _ text).
    + left. now apply category_tag_range in H.
Qed.

Lemma longer_text_keeps_every_hit_witness :
  let self := init None None in
  let text := lit "siem guide" in
  let longer := lit "a siem guide with exploit and payload training" in
  category (run_classify_keywords self text) = Some (lit "Blue Team") /\
  category (run_classify_keywords self longer) = Some (lit "Red Team") /\
  tags (run_classify_keywords self text) = map lit ["guide"; "defensive"]%string /\
  tags (run_classify_keywords self longer)
  = map lit ["guide"; "training"; "offensive"]%string /\
  (forall category keywords,
     In (category, keywords) (category_keywords self) ->
     keyword_score keywords text <= keyword_score keywords longer) /\
  (forall tag,
     In tag (tags (run_classify_keywords self text)) ->
     In tag category_tags \/
     In tag (tags (run_classify_keywords self longer))).
Proof.
  cbv zeta. repeat (split; [vm_compute; reflexivity|]).
  apply longer_text_keeps_every_hit. vm_compute. reflexivity.
Defined.

(** The tag that follows each category. *)
Definition category_tag_of : list (str * str) :=
  [ (lit "Blue Team", lit "defensive");
    (lit "Red Team", lit "offensive");
    (lit "Threat Intelligence", lit "intelligence") ].

Lemma NoDup_filter_keys : forall (f : str * list str -> bool) table,
  NoDup (map fst table) -> NoDup (map fst (filter f table)).
Proof.
  induction table as [|x table IH]; simpl; intros H; [constructor|].
  inversion H as [|? ? Hx Hl]; subst.
  destruct (f x); simpl; [constructor|]; auto.
  intros Hin. apply Hx. apply in_map_iff in Hin.
  destruct Hin as [y [Hy Hin]]. apply filter_In in Hin.
  apply in_map_iff. exists y. tauto.
Qed.

Lemma NoDup_add_last : forall (l : list str) x,
  NoDup l -> ~ In x l -> NoDup (l ++ [x]).
Proof.
  induction l as [|y l IH]; simpl; intros x Hl Hx.
  - constructor; [tauto | constructor].
  - inversion Hl as [|? ? Hy Hl']; subst. constructor.
    + intros Hin. apply in_app_or in Hin. simpl in Hin.
      destruct Hin as [Hin | [-> | []]]; tauto.
    + apply IH; tauto.
Qed.

Fixpoint distinct (l : list str) : bool :=
  match l with
  | [] => true
  | x :: l' => negb (mem x l') && distinct l'
  end.

Lemma distinct_NoDup : forall l, distinct l = true -> NoDup l.
Proof.
  induction l as [|x l IH]; simpl; intros H; constructor.
  - apply andb_true_iff in H. destruct H as [H _].
    intros Hin. apply negb_true_iff in H.
    assert (Hm : mem x l = true)
      by (apply existsb_exists; exists x; split;
          [exact Hin | apply str_eqb_refl]).
    congruence.
  - apply IH. apply andb_true_iff in H. tauto.
Qed.

Lemma In_mem : forall x l, In x l -> mem x l = true.
Proof.
  intros x l H. apply existsb_exists. exists x.
  split; [exact H | apply str_eqb_refl].
Qed.

Lemma generate_tags_keys : forall table text tag,
  In tag (generate_tags table text) -> In tag (dict_keys table).
Proof.
  intros table text tag. rewrite generate_tags_filter. unfold dict_keys.
  rewrite !in_map_iff. intros [entry [Htag H]]. exists entry.
  apply filter_In in H. tauto.
Qed.

Lemma category_is_declared : forall o a text c,
  category (run_classify_keywords (init o a) text) = Some c ->
  c = lit "Blue Team" \/ c = lit "Red Team" \/
  c = lit "Threat Intelligence".
Proof.
  intros o a text c E.
  pose proof (classify_three_categories o a
                (lit "Blue Team") (lit "Red Team")
                (lit "Threat Intelligence")
                blue_team_keywords red_team_keywords
                threat_intelligence_keywords
                default_tag_keywords text eq_refl eq_refl eq_refl) as H.
  cbv zeta in H. unfold init, default_category_keywords in E.
  rewrite E in H.
  destruct H as [_ [[H _] | [[H _] | [H _]]]]; auto.
Qed.

(** X21: the tags of the keyword strategy are the tags of the table
    that have a hit, in the order of the table, followed, when there is
    a category, by the one tag that belongs to it ([defensive] for Blue
    Team, [offensive] for Red Team, [intelligence] for Threat
    Intelligence); no tag occurs twice. *)
Theorem tags_follow_the_category :
  forall (openai anthropic : option str) (text : str),
    let res := run_classify_keywords (init openai anthropic) text in
    let keyword_tags := generate_tags default_tag_keywords text in
    (forall tag, In tag keyword_tags ->
                 In tag (dict_keys default_tag_keywords)) /\
    NoDup (tags res) /\
    match category res with
    | None => tags res = keyword_tags
    | Some c =>
        exists tag, In (c, tag) category_tag_of /\
                    tags res = keyword_tags ++ [tag]
    end.
Proof.
  intros o a text res keyword_tags.
  assert (Hkeys : forall tag, In tag keyword_tags ->
                    In tag (dict_keys default_tag_keywords))
    by (intros tag; apply generate_tags_keys).
  assert (Hnodup : NoDup keyword_tags).
  { unfold keyword_tags. rewrite generate_tags_filter.
    apply NoDup_filter_keys. apply distinct_NoDup. vm_compute. reflexivity. }
  assert (Hcat : match category res with
                 | None => tags res = keyword_tags
                 | Some c =>
                     exists tag, In (c, tag) category_tag_of /\
                                 tags res = keyword_tags ++ [tag]
                 end).
  { unfold res at 2 3. rewrite classified_tags. fold res.
    change (tag_keywords (init o a)) with default_tag_keywords.
    fold keyword_tags.
    destruct (category res) as [c|] eqn:E.
    - destruct (category_is_declared o a text c E) as [-> | [-> | ->]].
      + exists (lit "defensive"). split; [now left | reflexivity].
      + exists (lit "offensive"). split; [right; now left | reflexivity].
      + exists (lit "intelligence").
        split; [right; right; now left | reflexivity].
    - cbn [category_tag]. apply app_nil_r. }
  split; [exact Hkeys|]. split; [|exact Hcat].
  destruct (category res) as [c|].
  - destruct Hcat as [tag [Hin ->]]. apply NoDup_add_last; [exact Hnodup|].
    intros Htag. apply Hkeys, In_mem in Htag.
    cbn [category_tag_of In] in Hin.
    destruct Hin as [H | [H | [H | []]]]; injection H as _ <-;
      vm_compute in Htag; discriminate Htag.
  - now rewrite Hcat.
Qed.

(** ** The keyword strategy on shared objects

    Above, [_classify_keywords] is read as a function of the two keyword
    tables.  In Python the tables are objects that [self] refers to, and
    the method works through references: it creates objects of its own
    ([category_scores], [tags], the dict it returns) and changes two of
    them inside its loops.  Whether a second invocation returns what the
    first one returned depends on which objects those writes reach.
    Here every object has an address, and each statement of the method
    reads and writes the heap through the references it holds. *)

Module Heap.

Definition address := nat.

Inductive object :=
| Instance (openai anthropic : option str) (categories tag_table : address)
| Table (entries : dict address)   (* a dict whose values are lists *)
| Strings (items : list str)       (* a list of str *)
| Scores (entries : dict nat)      (* a dict whose values are ints *)
| Result (primary_category : option str) (tag_list : address)
         (level : str).            (* the dict that is returned *)

Definition heap := list object.

(** A statement runs on the heap.  [None] stands for the exception the
    interpreter raises when a reference leads to no object, or to an
    object of another type than the statement needs. *)
Definition statement (A : Type) := heap -> option (A * heap).

Definition pure {A} (a : A) : statement A := fun h => Some (a, h).

Definition fail {A} : statement A := fun _ => None.

Definition seq {A B} (m : statement A) (k : A -> statement B)
  : statement B :=
  fun h =>
    match m h with
    | Some (a, h') => k a h'
    | None => None
    end.

Notation "x <~ m ;; k" := (seq m (fun x => k))
  (at level 61, m at next level, right associativity).

(** A new object gets the next address. *)
Definition new (o : object) : statement address :=
  fun h => Some (List.length h, h ++ [o]).

Definition load (a : address) : statement object :=
  fun h =>
    match nth_error h a with
    | Some o => Some (o, h)
    | None => None
    end.

Fixpoint put (a : address) (o : object) (h : heap) : heap :=
  match h, a with
  | [], _ => []
  | _ :: h', O => o :: h'
  | x :: h', S a' => x :: put a' o h'
  end.

Definition store (a : address) (o : object) : statement unit :=
  fun h => Some (tt, put a o h).

(** [self.category_keywords] and [self.tag_keywords] *)
Definition category_keywords (self : address) : statement address :=
  o <~ load self ;;
  match o with
  | Instance _ _ categories _ => pure categories
  | _ => fail
  end.

Definition tag_keywords (self : address) : statement address :=
  o <~ load self ;;
  match o with
  | Instance _ _ _ tag_table => pure tag_table
  | _ => fail
  end.

(** [table.items()] *)
Definition items (table : address) : statement (dict address) :=
  o <~ load table ;;
  match o with
  | Table entries => pure entries
  | _ => fail
  end.

(** The elements of a list of str, for a generator over it. *)
Definition elements (a : address) : statement (list str) :=
  o <~ load a ;;
  match o with
  | Strings l => pure l
  | _ => fail
  end.

(** [category_scores[category] = score] *)
Definition setitem (category_scores : address) (category : str)
  (score : nat) : statement unit :=
  o <~ load category_scores ;;
  match o with
  | Scores d => store category_scores (Scores (dict_set d category score))
  | _ => fail
  end.

(** [tags.append(tag)] *)
Definition append (tags : address) (tag : str) : statement unit :=
  o <~ load tags ;;
  match o with
  | Strings l => store tags (Strings (l ++ [tag]))
  | _ => fail
  end.

(** The body of the first loop, once for each entry of the table. *)
Fixpoint score_loop (category_scores : address) (text : str)
  (entries : dict address) : statement unit :=
  match entries with
  | [] => pure tt
  | (category, keywords) :: rest =>
      keywords <~ elements keywords ;;
      let score := keyword_score keywords text in
      _ <~ (if 0 <? score then setitem category_scores category score
            else pure tt) ;;
      score_loop category_scores text rest
  end.

(** The body of the second loop. *)
Fixpoint tag_loop (tags : address) (text : str) (entries : dict address)
  : statement unit :=
  match entries with
  | [] => pure tt
  | (tag, keywords) :: rest =>
      keywords <~ elements keywords ;;
      _ <~ (if existsb (fun keyword => str_in keyword text) keywords
            then append tags tag else pure tt) ;;
      tag_loop tags text rest
  end.

Definition _classify_keywords (self : address) (text : str)
  : statement address :=
  (* Determine primary category *)
  category_scores <~ new (Scores []) ;;
  table <~ category_keywords self ;;
  entries <~ items table ;;
  _ <~ score_loop category_scores text entries ;;
  o <~ load category_scores ;;
  match o with
  | Scores scores =>
      let primary_category :=
        match scores with
        | [] => None
        | _ => py_max (score_of scores) (dict_keys scores)
        end in
      (* Generate tags *)
      tags <~ new (Strings []) ;;
      table <~ tag_keywords self ;;
      entries <~ items table ;;
      _ <~ tag_loop tags text entries ;;
      (* Add category-specific tags *)
      _ <~ match primary_category with
           | Some c =>
               if str_in (lit "Blue Team") c
               then append tags (lit "defensive")
               else if str_in (lit "Red Team") c
               then append tags (lit "offensive")
               else if str_in (lit "Intelligence") c
               then append tags (lit "intelligence")
               else pure tt
           | None => pure tt
           end ;;
      new (Result primary_category tags
             match scores with
             | [] => lit "low"
             | _ => lit "medium"
             end)
  | _ => fail
  end.

(** The lists of a dict display, then its entries. *)
Fixpoint new_lists (table : dict (list str)) : statement (dict address) :=
  match table with
  | [] => pure []
  | (key, keywords) :: rest =>
      a <~ new (Strings keywords) ;;
      entries <~ new_lists rest ;;
      pure ((key, a) :: entries)
  end.

(** [ResourceClassifier()], given the two environment variables. *)
Definition init (openai anthropic : option str) : statement address :=
  entries <~ new_lists default_category_keywords ;;
  categories <~ new (Table entries) ;;
  entries <~ new_lists default_tag_keywords ;;
  tag_table <~ new (Table entries) ;;
  new (Instance openai anthropic categories tag_table).

(** *** What the references lead to *)

Definition strings_at (h : heap) (a : address) : option (list str) :=
  match nth_error h a with
  | Some (Strings l) => Some l
  | _ => None
  end.

Fixpoint resolve (h : heap) (entries : dict address)
  : option (dict (list str)) :=
  match entries with
  | [] => Some []
  | (key, a) :: rest =>
      match strings_at h a, resolve h rest with
      | Some l, Some table => Some ((key, l) :: table)
      | _, _ => None
      end
  end.

Definition table_at (h : heap) (a : address) : option (dict (list str)) :=
  match nth_error h a with
  | Some (Table entries) => resolve h entries
  | _ => None
  end.

(** The classifier at [self], with its tables read out of the heap. *)
Definition classifier_at (h : heap) (self : address)
  : option ResourceClassifier :=
  match nth_error h self with
  | Some (Instance openai anthropic categories tag_table) =>
      match table_at h categories, table_at h tag_table with
      | Some c, Some t =>
          Some {| openai_api_key := openai;
                  anthropic_api_key := anthropic;
                  Classifier.category_keywords := c;
                  Classifier.tag_keywords := t |}
      | _, _ => None
      end
  | _ => None
  end.

(** The returned dict, with its list of tags read out of the heap. *)
Definition result_at (h : heap) (a : address) : option Classification :=
  match nth_error h a with
  | Some (Result primary_category tag_list level) =>
      match strings_at h tag_list with
      | Some l => Some {| category := primary_category;
                          tags := l;
                          confidence := level |}
      | None => None
      end
  | _ => None
  end.

(** *** Objects that are there stay where they are *)

Lemma nth_error_old : forall (h more : heap) a o,
  nth_error h a = Some o -> nth_error (h ++ more) a = Some o.
Proof.
  intros h more a o H. rewrite nth_error_app1; [exact H|].
  apply nth_error_Some. congruence.
Qed.

Lemma nth_error_new : forall (h : heap) o more,
  nth_error (h ++ o :: more) (List.length h) = Some o.
Proof.
  intros h o more. rewrite nth_error_app2 by lia.
  now rewrite Nat.sub_diag.
Qed.

Lemma put_new : forall (h : heap) o o' more,
  put (List.length h) o' (h ++ o :: more) = h ++ o' :: more.
Proof.
  induction h as [|x h IH]; intros o o' more; simpl; [reflexivity|].
  now rewrite IH.
Qed.

Lemma strings_at_old : forall h more a l,
  strings_at h a = Some l -> strings_at (h ++ more) a = Some l.
Proof.
  intros h more a l H. unfold strings_at in *.
  destruct (nth_error h a) as [o|] eqn:E; [|discriminate].
  now rewrite (nth_error_old h more a o E).
Qed.

Lemma resolve_old : forall h more entries table,
  resolve h entries = Some table -> resolve (h ++ more) entries = Some table.
Proof.
  intros h more. induction entries as [|[key a] rest IH]; intros table H;
    simpl in *; [exact H|].
  destruct (strings_at h a) as [l|] eqn:El; [|discriminate].
  destruct (resolve h rest) as [t|]; [|discriminate].
  now rewrite (strings_at_old h more a l El), (IH t eq_refl).
Qed.

Lemma table_at_old : forall h more a table,
  table_at h a = Some table -> table_at (h ++ more) a = Some table.
Proof.
  intros h more a table H. unfold table_at in *.
  destruct (nth_error h a) as [o|] eqn:E; [|discriminate].
  rewrite (nth_error_old h more a o E).
  destruct o; try discriminate. now apply resolve_old.
Qed.

Lemma classifier_at_old : forall h more self view,
  classifier_at h self = Some view ->
  classifier_at (h ++ more) self = Some view.
Proof.
  intros h more self view H. unfold classifier_at in *.
  destruct (nth_error h self) as [o|] eqn:E; [|discriminate].
  rewrite (nth_error_old h more self o E).
  destruct o as [o1 o2 c t| | | |]; try discriminate.
  destruct (table_at h c) as [ct|] eqn:Ec; [|discriminate].
  destruct (table_at h t) as [tt|] eqn:Et; [|discriminate].
  now rewrite (table_at_old h more c ct Ec), (table_at_old h more t tt Et).
Qed.

(** *** The two loops

    Each loop reads the lists of its table, which were there before the
    call, and writes to the one object created for it. *)

Definition score_step (text : str) (category_scores : dict nat)
  (entry : str * list str) : dict nat :=
  let '(category, keywords) := entry in
  let score := keyword_score keywords text in
  if 0 <? score then dict_set category_scores category score
  else category_scores.

Definition tag_step (text : str) (tags : list str)
  (entry : str * list str) : list str :=
  let '(tag, keywords) := entry in
  if existsb (fun keyword => str_in keyword text) keywords
  then tags ++ [tag] else tags.

Lemma score_loop_writes_its_dict : forall text (h : heap) entries table d,
  resolve h entries = Some table ->
  score_loop (List.length h) text entries (h ++ [Scores d])
  = Some (tt, h ++ [Scores (fold_left (score_step text) table d)]).
Proof.
  intros text h. induction entries as [|[category a] rest IH];
    intros table d H; simpl in H.
  - injection H as <-. reflexivity.
  - destruct (strings_at h a) as [l|] eqn:El; [|discriminate].
    destruct (resolve h rest) as [t|] eqn:Er; [|discriminate].
    injection H as <-.
    pose proof (strings_at_old h [Scores d] a l El) as El'.
    unfold strings_at in El'.
    cbn [score_loop fold_left score_step]. unfold elements, seq, load.
    destruct (nth_error (h ++ [Scores d]) a) as [o|]; [|discriminate].
    destruct o; try discriminate. injection El' as ->.
    unfold pure.
    destruct (0 <? keyword_score l text).
    + unfold setitem, seq, load, store.
      rewrite nth_error_new, put_new. apply IH. reflexivity.
    + apply IH. reflexivity.
Qed.

Lemma tag_loop_writes_its_list : forall text (h : heap) entries table l,
  resolve h entries = Some table ->
  tag_loop (List.length h) text entries (h ++ [Strings l])
  = Some (tt, h ++ [Strings (fold_left (tag_step text) table l)]).
Proof.
  intros text h. induction entries as [|[tag a] rest IH];
    intros table l H; simpl in H.
  - injection H as <-. reflexivity.
  - destruct (strings_at h a) as [kws|] eqn:El; [|discriminate].
    destruct (resolve h rest) as [t|] eqn:Er; [|discriminate].
    injection H as <-.
    pose proof (strings_at_old h [Strings l] a kws El) as El'.
    unfold strings_at in El'.
    cbn [tag_loop fold_left tag_step]. unfold elements, seq, load.
    destruct (nth_error (h ++ [Strings l]) a) as [o|]; [|discriminate].
    destruct o; try discriminate. injection El' as ->.
    unfold pure.
    destruct (existsb (fun keyword => str_in keyword text) kws).
    + unfold append, seq, load, store.
      rewrite nth_error_new, put_new. apply IH. reflexivity.
    + apply IH. reflexivity.
Qed.

Lemma score_loop_is_score_categories : forall table text,
  fold_left (score_step text) table [] = score_categories table text.
Proof. reflexivity. Qed.

Lemma tag_loop_is_generate_tags : forall table text,
  fold_left (tag_step text) table [] = generate_tags table text.
Proof. reflexivity. Qed.

(** What a call does to the heap: three objects are added at its end,
    and nothing else is touched. *)
Lemma classify_keywords_adds_three_objects :
  forall (h : heap) self view text,
    classifier_at h self = Some view ->
    let res := run_classify_keywords view text in
    _classify_keywords self text h
    = Some (S (S (List.length h)),
            h ++ [ Scores (score_categories
                             (Classifier.category_keywords view) text);
                   Strings (tags res);
                   Result (category res) (S (List.length h))
                     (confidence res) ]).
Proof.
  intros h self view text H res.
  unfold classifier_at in H.
  destruct (nth_error h self) as [o|] eqn:Eself; [|discriminate].
  destruct o as [o1 o2 c t| | | |]; try discriminate.
  destruct (table_at h c) as [ct|] eqn:Ec; [|discriminate].
  destruct (table_at h t) as [tg|] eqn:Et; [|discriminate].
  injection H as <-.
  unfold table_at in Ec, Et.
  destruct (nth_error h c) as [oc|] eqn:Ecc; [|discriminate].
  destruct oc as [| centries | | |]; try discriminate.
  destruct (nth_error h t) as [ot|] eqn:Ett; [|discriminate].
  destruct ot as [| tentries | | |]; try discriminate.
  unfold _classify_keywords.
  unfold seq at 1. unfold new at 1. cbv iota beta.
  unfold seq at 1. unfold category_keywords, seq, load at 1.
  rewrite (nth_error_old h [Scores []] self _ Eself). cbv iota beta.
  unfold pure at 1. unfold items, seq, load at 1.
  rewrite (nth_error_old h [Scores []] c _ Ecc). cbv iota beta.
  unfold pure at 1.
  rewrite (score_loop_writes_its_dict text h centries ct [] Ec).
  rewrite score_loop_is_score_categories.
  unfold load at 1. rewrite nth_error_new.
  set (scores := score_categories ct text).
  set (h1 := h ++ [Scores scores]).
  assert (Hlen : List.length h1 = S (List.length h))
    by (unfold h1; rewrite length_app; simpl; lia).
  unfold new at 1. unfold tag_keywords, seq, load at 1.
  rewrite (nth_error_old h1 [Strings []] self _
             (nth_error_old h [Scores scores] self _ Eself)).
  cbv iota beta. unfold pure at 1. unfold load at 1.
  rewrite (nth_error_old h1 [Strings []] t _
             (nth_error_old h [Scores scores] t _ Ett)).
  cbv iota beta. unfold pure at 1.
  rewrite (tag_loop_writes_its_list text h1 tentries tg []
             (resolve_old h [Scores scores] tentries tg Et)).
  rewrite tag_loop_is_generate_tags.
  assert (Hres : res
            = {| category := match scores with
                             | [] => None
                             | _ => py_max (score_of scores) (dict_keys scores)
                             end;
                 tags := generate_tags tg text
                         ++ category_tag
                              match scores with
                              | [] => None
                              | _ => py_max (score_of scores)
                                       (dict_keys scores)
                              end;
                 confidence := match scores with
                               | [] => lit "low"
                               | _ => lit "medium"
                               end |}) by reflexivity.
  rewrite Hres. cbn [category tags confidence].
  set (primary := match scores with
                  | [] => None
                  | _ => py_max (score_of scores) (dict_keys scores)
                  end).
  assert (Happend : forall tag,
            append (List.length h1) tag
              (h1 ++ [Strings (generate_tags tg text)])
            = Some (tt, h1 ++ [Strings (generate_tags tg text ++ [tag])])).
  { intros tag. unfold append, seq, load, store.
    now rewrite nth_error_new, put_new. }
  assert (Hend : forall l,
            new (Result primary (List.length h1)
                   match scores with
                   | [] => lit "low"
                   | _ => lit "medium"
                   end) (h1 ++ [Strings l])
            = Some (S (S (List.length h)),
                    h ++ [ Scores scores; Strings l;
                           Result primary (S (List.length h))
                             match scores with
                             | [] => lit "low"
                             | _ => lit "medium"
                             end ])).
  { intros l. unfold new. rewrite length_app, Hlen. cbn [List.length].
    unfold h1. rewrite <- !app_assoc. cbn [app].
    f_equal. f_equal. lia. }
  unfold category_tag.
  destruct primary as [c0|].
  - destruct (str_in (lit "Blue Team") c0);
      [rewrite Happend; apply Hend|].
    destruct (str_in (lit "Red Team") c0);
      [rewrite Happend; apply Hend|].
    destruct (str_in (lit "Intelligence") c0);
      [rewrite Happend; apply Hend|].
    unfold pure. rewrite app_nil_r. apply Hend.
  - unfold pure. rewrite app_nil_r. apply Hend.
Qed.

Lemma run_classify_keywords_reads_the_tables : forall view view' text,
  Classifier.category_keywords view' = Classifier.category_keywords view ->
  Classifier.tag_keywords view' = Classifier.tag_keywords view ->
  run_classify_keywords view' text = run_classify_keywords view text.
Proof.
  intros [o a c t] [o' a' c' t'] text Hc Ht. simpl in Hc, Ht. subst c' t'.
  reflexivity.
Qed.

Lemma result_at_new : forall (h : heap) scores l c level,
  result_at (h ++ [Scores scores; Strings l;
                   Result c (S (List.length h)) level])
    (S (S (List.length h)))
  = Some {| category := c; tags := l; confidence := level |}.
Proof.
  intros h scores l c level. unfold result_at, strings_at.
  replace (h ++ [Scores scores; Strings l; Result c (S (List.length h)) level])
    with ((h ++ [Scores scores; Strings l])
          ++ [Result c (S (List.length h)) level])
    by (now rewrite <- app_assoc).
  replace (S (S (List.length h)))
    with (List.length (h ++ [Scores scores; Strings l])) at 1
    by (rewrite length_app; simpl; lia).
  rewrite nth_error_new.
  replace ((h ++ [Scores scores; Strings l])
           ++ [Result c (S (List.length h)) level])
    with ((h ++ [Scores scores])
          ++ Strings l :: [Result c (S (List.length h)) level])
    by (now rewrite <- !app_assoc).
  replace (S (List.length h)) with (List.length (h ++ [Scores scores])) at 2
    by (rewrite length_app; simpl; lia).
  now rewrite nth_error_new.
Qed.

(** C8: the keyword strategy is deterministic.  Called on a classifier
    whose two keyword tables are in the heap, [_classify_keywords]
    returns; it leaves every object that existed before the call as it
    was, the classifier and its tables among them, and returns a new
    dict that holds the category, tags and confidence computed from the
    text and the tables alone.  So a second invocation on the same
    text, in the state the first one leaves, returns another dict with
    the same category, tags and confidence, and leaves the first result
    as it is; and so does an invocation in any state, on any classifier
    whose tables hold the same entries, whatever its API keys. *)
Theorem classify_keywords_deterministic :
  forall (h : heap) (self : address) (view : ResourceClassifier)
         (text : str),
    classifier_at h self = Some view ->
    exists first h1,
      _classify_keywords self text h = Some (first, h1) /\
      (forall a, a < List.length h -> nth_error h1 a = nth_error h a) /\
      classifier_at h1 self = Some view /\
      result_at h1 first = Some (run_classify_keywords view text) /\
      (exists second h2,
         _classify_keywords self text h1 = Some (second, h2) /\
         second <> first /\
         result_at h2 second = result_at h1 first /\
         result_at h2 first = result_at h1 first) /\
      (forall h' self' view',
         classifier_at h' self' = Some view' ->
         Classifier.category_keywords view'
         = Classifier.category_keywords view ->
         Classifier.tag_keywords view' = Classifier.tag_keywords view ->
         exists second h2,
           _classify_keywords self' text h' = Some (second, h2) /\
           result_at h2 second = result_at h1 first).
Proof.
  intros h self view text H.
  pose proof (classify_keywords_adds_three_objects h self view text H)
    as Hfirst. cbv zeta in Hfirst.
  set (res := run_classify_keywords view text) in *.
  set (added := [ Scores (score_categories
                            (Classifier.category_keywords view) text);
                  Strings (tags res);
                  Result (category res) (S (List.length h))
                    (confidence res) ]) in *.
  assert (Hview : classifier_at (h ++ added) self = Some view)
    by (now apply classifier_at_old).
  assert (Hres : result_at (h ++ added) (S (S (List.length h))) = Some res).
  { unfold added. rewrite result_at_new. now destruct res. }
  exists (S (S (List.length h))), (h ++ added).
  split; [exact Hfirst|].
  split; [intros a Ha; now apply nth_error_app1|].
  split; [exact Hview|].
  split; [exact Hres|].
  split.
  - pose proof (classify_keywords_adds_three_objects (h ++ added) self view
                  text Hview) as Hsecond. cbv zeta in Hsecond.
    fold res in Hsecond.
    eexists. eexists. split; [exact Hsecond|].
    split; [rewrite length_app; simpl; lia|].
    split.
    + rewrite result_at_new, Hres. now destruct res.
    + unfold result_at, strings_at in *.
      destruct (nth_error (h ++ added) (S (S (List.length h))))
        as [o|] eqn:Eo; [|discriminate Hres].
      rewrite (nth_error_old (h ++ added) _ _ o Eo).
      destruct o as [| | | |c tl lv]; try discriminate Hres.
      destruct (nth_error (h ++ added) tl) as [o'|] eqn:Eo';
        [|discriminate Hres].
      now rewrite (nth_error_old (h ++ added) _ _ o' Eo').
  - intros h' self' view' H' Hc Ht.
    pose proof (classify_keywords_adds_three_objects h' self' view' text H')
      as Hother. cbv zeta in Hother.
    rewrite (run_classify_keywords_reads_the_tables view view' text Hc Ht)
      in Hother. fold res in Hother.
    eexists. eexists. split; [exact Hother|].
    rewrite result_at_new, Hres. now destruct res.
Qed.

(** The objects [ResourceClassifier()] creates, in an empty heap; the
    instance is the last of them. *)
Definition started : heap :=
  match init None None [] with
  | Some (_, h) => h
  | None => []
  end.

Lemma classify_keywords_deterministic_witness :
  let text := lit "splunk detection guide" in
  classifier_at started 15 = Some (Classifier.init None None) /\
  exists first h1,
    _classify_keywords 15 text started = Some (first, h1) /\
    result_at h1 first
    = Some {| category := Some (lit "Blue Team");
              tags := [lit "guide"; lit "defensive"];
              confidence := lit "medium" |} /\
    exists second h2,
      _classify_keywords 15 text h1 = Some (second, h2) /\
      second <> first /\
      result_at h2 second = result_at h1 first.
Proof.
  cbv zeta. split; [reflexivity|].
  destruct (classify_keywords_deterministic started 15
              (Classifier.init None None) (lit "splunk detection guide")
              eq_refl)
    as [first [h1 [Hfirst [_ [_ [Hres [[second [h2 [H2 [Hne [Hsame _]]]]] _]]]]]]].
  exists first, h1. split; [exact Hfirst|]. split; [exact Hres|].
  exists second, h2. split; [exact H2|]. split; [exact Hne | exact Hsame].
Defined.

End Heap.

End Classifier.

(* ================================================================== *)
(** * security.py *)
(* ================================================================== *)

Module Security.
Import Py.

(** A validator returns its value or raises [ValueError]; the message of
    the exception is not modelled. *)
Inductive outcome (A : Type) : Type :=
| Return (a : A)
| RaiseValueError.
Arguments Return {A} a.
Arguments RaiseValueError {A}.

Definition MAX_TITLE_LENGTH : nat := 500.
Definition MAX_DESCRIPTION_LENGTH : nat := 5000.
Definition MAX_TAG_LENGTH : nat := 1000.
Definition MAX_URL_LENGTH : nat := 2000.

Definition ALLOWED_URL_SCHEMES : list str :=
  map lit ["http"; "https"; "ftp"; "sftp"]%string.

Definition DANGEROUS_EXTENSIONS : list str := map lit
  [ ".exe"; ".bat"; ".cmd"; ".com"; ".pif"; ".scr"; ".vbs"; ".js";
    ".jar"; ".msi"; ".app"; ".deb"; ".rpm"; ".dmg"; ".pkg"; ".sh";
    ".ps1"; ".psm1"; ".psd1"; ".reg"; ".dll"; ".so"; ".dylib" ]%string.

Definition ALLOWED_EXTENSIONS : list str := map lit
  [ ".pdf"; ".png"; ".jpg"; ".jpeg"; ".gif"; ".webp";
    ".mp4"; ".webm"; ".doc"; ".docx"; ".txt"; ".md";
    ".csv"; ".json"; ".xml"; ".zip"; ".tar"; ".gz" ]%string.

(** ** Built-ins used by the validators *)

(** [str.isspace] on one character: the code points [str.strip()]
    removes. *)
Definition isspace (c : char) : bool :=
  ((9 <=? c) && (c <=? 13) || (28 <=? c) && (c <=? 32) ||
   (c =? 133) || (c =? 160) || (c =? 5760) ||
   (8192 <=? c) && (c <=? 8202) ||
   (c =? 8232) || (c =? 8233) || (c =? 8239) || (c =? 8287) ||
   (c =? 12288))%N.

Fixpoint lstrip_by (p : char -> bool) (s : str) : str :=
  match s with
  | [] => []
  | c :: s' => if p c then lstrip_by p s' else s
  end.

Definition rstrip_by (p : char -> bool) (s : str) : str :=
  rev (lstrip_by p (rev s)).

(** [s.strip()] *)
Definition strip (s : str) : str := rstrip_by isspace (lstrip_by isspace s).

(** [s.replace(old, new)] for a one-character [old]. *)
Definition replace_char (old : char) (new : str) (s : str) : str :=
  flat_map (fun c => if N.eqb c old then new else [c]) s.

(** [html.escape(s)] with its default [quote=True]: five replacements,
    the ampersand first. *)
Definition escape (s : str) : str :=
  let s := replace_char (chr "&") (lit "&amp;") s in
  let s := replace_char (chr "<") (lit "&lt;") s in
  let s := replace_char (chr ">") (lit "&gt;") s in
  let s := replace_char 34%N (* the double quote *) (lit "&quot;") s in
  let s := replace_char (chr "'") (lit "&#x27;") s in
  s.

Definition is_ascii_lower (c : char) : bool := ((97 <=? c) && (c <=? 122))%N.
Definition is_ascii_upper (c : char) : bool := ((65 <=? c) && (c <=? 90))%N.
Definition is_ascii_digit (c : char) : bool := ((48 <=? c) && (c <=? 57))%N.

(** [str.lower] on text that is known to be ASCII. *)
Definition ascii_lower (s : str) : str :=
  map (fun c => if is_ascii_upper c then (c + 32)%N else c) s.

(** [s.find(c)] as [Some] index, [None] for -1. *)
Fixpoint find_char (c : char) (s : str) : option nat :=
  match s with
  | [] => None
  | x :: s' => if N.eqb x c then Some 0
               else option_map S (find_char c s')
  end.

(** ** [sanitize_string] *)

Definition sanitize_string (value : str) (max_length : option nat)
    (allow_html : bool) : str :=
  (* Strip leading/trailing whitespace *)
  let value := strip value in
  (* Escape HTML if not allowed *)
  let value := if allow_html then value else escape value in
  (* Enforce maximum length *)
  match max_length with
  | Some m =>
      if negb (m =? 0) && (m <? List.length value)
      then firstn m value else value
  | None => value
  end.

(** ** [urllib.parse.urlparse], as far as [validate_url] uses it

    [validate_url] reads [parsed.scheme] and catches what [urlparse]
    raises.  The model follows [urlsplit] (CPython 3.11).  Two checks of
    the authority part call into [ipaddress] and [unicodedata]; they are
    parameters of the model and are consulted exactly where [urlsplit]
    calls them. *)

Definition C0_CONTROL_OR_SPACE (c : char) : bool := (c <=? 32)%N.

Definition UNSAFE_URL_BYTE (c : char) : bool :=
  ((c =? 9) || (c =? 13) || (c =? 10))%N.

Definition scheme_char (c : char) : bool :=
  is_ascii_lower c || is_ascii_upper c || is_ascii_digit c ||
  N.eqb c (chr "+") || N.eqb c (chr "-") || N.eqb c (chr ".").

(** [scheme, url = url[:i].lower(), url[i+1:]] when the text before the
    first colon is a scheme. *)
Definition split_scheme (url : str) : str * str :=
  match find_char (chr ":") url, url with
  | Some (S i), c0 :: _ =>
      if (is_ascii_lower c0 || is_ascii_upper c0) &&
         forallb scheme_char (firstn (S i) url)
      then (ascii_lower (firstn (S i) url), skipn (S (S i)) url)
      else ([], url)
  | _, _ => ([], url)
  end.

(** [_splitnetloc(url, 2)[0]]: the text between the leading [//] and the
    first of [/], [?], [#]. *)
Fixpoint until_delim (s : str) : str :=
  match s with
  | [] => []
  | c :: s' =>
      if N.eqb c (chr "/") || N.eqb c (chr "?") || N.eqb c (chr "#")
      then [] else c :: until_delim s'
  end.

Definition has_char (c : char) (s : str) : bool := existsb (N.eqb c) s.

Section Urlparse.

Variable bracketed_netloc_ok : str -> bool.
Variable nfkc_netloc_ok : str -> bool.

(** [urlparse(url).scheme], or [None] when [urlparse] raises. *)
Definition urlparse_scheme (url : str) : option str :=
  let url := lstrip_by C0_CONTROL_OR_SPACE url in
  let url := filter (fun c => negb (UNSAFE_URL_BYTE c)) url in
  let '(scheme, url) := split_scheme url in
  let netloc :=
    if startswith url (lit "//") then until_delim (skipn 2 url) else [] in
  let open := has_char (chr "[") netloc in
  let close := has_char (chr "]") netloc in
  if xorb open close then None
  else if open && close && negb (bracketed_netloc_ok netloc) then None
  else if match netloc with [] => true | _ => forallb (fun c => c <? 128)%N netloc end
       then Some scheme
  else if nfkc_netloc_ok netloc then Some scheme
  else None.

(** [str.lower()].  Besides the ASCII capitals, two characters lowercase
    to text with an ASCII letter in it: the Kelvin sign (to [k]) and the
    dotted capital I (to [i] and a combining dot).  Every other non-ASCII
    character lowercases to non-ASCII text and is left as it is: the
    patterns searched for below are ASCII. *)
Definition lower (s : str) : str :=
  flat_map (fun c =>
    if is_ascii_upper c then [(c + 32)%N]
    else if (c =? 8490)%N then [chr "k"]
    else if (c =? 304)%N then [chr "i"; 775%N]
    else [c]) s.

Definition dangerous_patterns : list str :=
  map lit ["javascript:"; "data:"; "vbscript:"; "file:"]%string.

(** ** [validate_url] *)

Definition validate_url (url : str) : outcome str :=
  match url with
  | [] => Return []
  | _ =>
      let url := sanitize_string url (Some MAX_URL_LENGTH) false in
      match urlparse_scheme url with
      | None => RaiseValueError
      | Some scheme =>
          (* Check scheme is allowed *)
          if negb (match scheme with [] => true | _ => false end) &&
             negb (mem (lower scheme) ALLOWED_URL_SCHEMES)
          then RaiseValueError
          else
            (* Check for common dangerous patterns *)
            let url_lower := lower url in
            if existsb (fun pattern => str_in pattern url_lower)
                       dangerous_patterns
            then RaiseValueError
            else Return url
      end
  end.

End Urlparse.

(** ** [sanitize_filename]

    [Path(filename).name] is taken in its POSIX flavour: the path is
    split at [/], empty components and [.] components are dropped, and
    the name is the last component left, or the empty string. *)

Fixpoint split_char (sep : char) (s : str) : list str :=
  match s with
  | [] => [[]]
  | c :: s' =>
      if N.eqb c sep then [] :: split_char sep s'
      else match split_char sep s' with
           | [] => [[c]]
           | part :: parts => (c :: part) :: parts
           end
  end.

Definition path_parts (path : str) : list str :=
  filter (fun x => negb (str_eqb x []) && negb (str_eqb x (lit ".")))
         (split_char (chr "/") path).

Definition path_name (path : str) : str := last (path_parts path) [].

(** The characters the pattern [[^a-zA-Z0-9._-]] leaves alone. *)
Definition filename_char_ok (c : char) : bool :=
  is_ascii_lower c || is_ascii_upper c || is_ascii_digit c ||
  N.eqb c (chr ".") || N.eqb c (chr "_") || N.eqb c (chr "-").

(** [re.sub(r'[^a-zA-Z0-9._-]', '_', filename)] *)
Definition replace_unsafe_chars (filename : str) : str :=
  map (fun c => if filename_char_ok c then c else chr "_") filename.

(** [filename.rsplit('.', 1)]: the text before and after the last dot,
    [None] when there is no dot. *)
Fixpoint rsplit_dot (s : str) : option (str * str) :=
  match s with
  | [] => None
  | c :: s' =>
      match rsplit_dot s' with
      | Some (name, ext) => Some (c :: name, ext)
      | None => if N.eqb c (chr ".") then Some ([], s') else None
      end
  end.

(** [filename.rsplit('.', 1) if '.' in filename else (filename, '')] *)
Definition name_and_ext (filename : str) : str * str :=
  match rsplit_dot filename with
  | Some p => p
  | None => (filename, [])
  end.

(** [f'.{ext}' if ext else ''] *)
Definition dotted (ext : str) : str :=
  match ext with
  | [] => []
  | _ => chr "." :: ext
  end.

Definition sanitize_filename (filename : str) : outcome str :=
  match filename with
  | [] => RaiseValueError
  | _ =>
      (* Get just the basename (no directory components) *)
      let filename := path_name filename in
      (* Remove or replace dangerous characters *)
      let filename := replace_unsafe_chars filename in
      (* Prevent hidden files *)
      let filename :=
        if startswith filename (lit ".")
        then chr "_" :: skipn 1 filename else filename in
      (* Prevent empty filename *)
      if str_eqb filename [] || str_eqb filename (lit ".")
      then RaiseValueError
      else
        (* Limit length *)
        let filename :=
          if 255 <? List.length filename then
            let '(name, ext) := name_and_ext filename in
            firstn 250 name ++ dotted ext
          else filename in
        Return filename
  end.

(** ** Escaping and stripping: counting arguments *)

Definition count (P : char -> bool) (s : str) : nat :=
  List.length (filter P s).

(** The five characters [html.escape] rewrites. *)
Definition is_html_special (c : char) : bool :=
  N.eqb c (chr "&") || N.eqb c (chr "<") || N.eqb c (chr ">") ||
  N.eqb c 34%N || N.eqb c (chr "'").

(** What [escape] does to one character. *)
Definition escape_char (c : char) : str :=
  if N.eqb c (chr "&") then lit "&amp;"
  else if N.eqb c (chr "<") then lit "&lt;"
  else if N.eqb c (chr ">") then lit "&gt;"
  else if N.eqb c 34%N then lit "&quot;"
  else if N.eqb c (chr "'") then lit "&#x27;"
  else [c].

Lemma count_app : forall P a b, count P (a ++ b) = count P a + count P b.
Proof.
  intros P a b. unfold count. now rewrite filter_app, length_app.
Qed.

Lemma count_rev : forall P s, count P (rev s) = count P s.
Proof.
  intros P s. unfold count. induction s as [|c s IH]; simpl; [reflexivity|].
  rewrite filter_app, length_app, IH. simpl.
  destruct (P c); simpl; lia.
Qed.

Lemma count_lstrip : forall (P ws : char -> bool) s,
  (forall c, ws c = true -> P c = false) ->
  count P (lstrip_by ws s) = count P s.
Proof.
  intros P ws s H. unfold count.
  induction s as [|c s IH]; simpl; [reflexivity|].
  destruct (ws c) eqn:E; [|reflexivity].
  now rewrite (H c E).
Qed.

(** Stripping removes white space only. *)
Lemma count_strip : forall P s,
  (forall c, isspace c = true -> P c = false) ->
  count P (strip s) = count P s.
Proof.
  intros P s H. unfold strip, rstrip_by.
  now rewrite count_rev, count_lstrip, count_rev, count_lstrip.
Qed.

Lemma flat_map_flat_map : forall (f g : char -> str) s,
  flat_map g (flat_map f s) = flat_map (fun c => flat_map g (f c)) s.
Proof.
  intros f g s. induction s as [|c s IH]; simpl; [reflexivity|].
  now rewrite flat_map_app, IH.
Qed.

Lemma flat_map_pointwise : forall (f g : char -> str) s,
  (forall c, f c = g c) -> flat_map f s = flat_map g s.
Proof.
  intros f g s H. induction s as [|c s IH]; simpl; [reflexivity|].
  now rewrite H, IH.
Qed.

(** The five replacements in sequence act as one pass over the text. *)
Lemma escape_flat_map : forall s, escape s = flat_map escape_char s.
Proof.
  intros s. unfold escape, replace_char.
  rewrite !flat_map_flat_map. apply flat_map_pointwise. intros c.
  unfold escape_char.
  destruct (N.eqb_spec c (chr "&")) as [->|H1]; [reflexivity|].
  destruct (N.eqb_spec c (chr "<")) as [->|H2]; [reflexivity|].
  destruct (N.eqb_spec c (chr ">")) as [->|H3]; [reflexivity|].
  destruct (N.eqb_spec c 34%N) as [->|H4]; [reflexivity|].
  destruct (N.eqb_spec c (chr "'")) as [->|H5]; [reflexivity|].
  cbn [flat_map app].
  repeat match goal with
         | H : c <> ?k |- context [N.eqb c ?k] =>
             destruct (N.eqb_spec c k); [contradiction|]; cbn [flat_map app]
         end.
  reflexivity.
Qed.

Definition not_space (c : char) : bool := negb (isspace c).

Lemma escape_grows : forall s,
  count not_space s + count is_html_special s <=
  count not_space (escape s).
Proof.
  intros s. rewrite escape_flat_map.
  induction s as [|c s IH]; [reflexivity|].
  change (flat_map escape_char (c :: s))
    with (escape_char c ++ flat_map escape_char s).
  rewrite count_app.
  change (c :: s) with ([c] ++ s). rewrite !count_app.
  assert (count not_space [c] + count is_html_special [c]
          <= count not_space (escape_char c)) as Hc.
  { unfold escape_char.
    destruct (N.eqb_spec c (chr "&")) as [->|H1]; [vm_compute; lia|].
    destruct (N.eqb_spec c (chr "<")) as [->|H2]; [vm_compute; lia|].
    destruct (N.eqb_spec c (chr ">")) as [->|H3]; [vm_compute; lia|].
    destruct (N.eqb_spec c 34%N) as [->|H4]; [vm_compute; lia|].
    destruct (N.eqb_spec c (chr "'")) as [->|H5]; [vm_compute; lia|].
    assert (is_html_special c = false) as Hns.
    { unfold is_html_special.
      apply N.eqb_neq in H1, H2, H3, H4, H5.
      now rewrite H1, H2, H3, H4, H5. }
    unfold count. cbn [filter]. rewrite Hns.
    destruct (not_space c); simpl; lia. }
  lia.
Qed.

Lemma special_not_space : forall c,
  isspace c = true -> is_html_special c = false.
Proof.
  intros c Hs. unfold is_html_special.
  destruct (N.eqb_spec c (chr "&")) as [->|_]; [discriminate Hs|].
  destruct (N.eqb_spec c (chr "<")) as [->|_]; [discriminate Hs|].
  destruct (N.eqb_spec c (chr ">")) as [->|_]; [discriminate Hs|].
  destruct (N.eqb_spec c 34%N) as [->|_]; [discriminate Hs|].
  destruct (N.eqb_spec c (chr "'")) as [->|_]; [discriminate Hs|].
  reflexivity.
Qed.

Lemma existsb_count : forall P s, existsb P s = true -> 0 < count P s.
Proof.
  intros P s. unfold count. induction s as [|c s IH]; simpl; [discriminate|].
  destruct (P c); simpl; [lia|auto].
Qed.

(** Escaping a text that holds a special character never gives the text
    back, white space around it or not. *)
Lemma escape_strip_differs : forall s,
  existsb is_html_special s = true -> escape (strip s) <> s.
Proof.
  intros s Hsp Heq.
  pose proof (escape_grows (strip s)) as Hg.
  rewrite Heq in Hg.
  rewrite (count_strip not_space) in Hg.
  2:{ intros c Hc. unfold not_space. now rewrite Hc. }
  rewrite (count_strip is_html_special) in Hg by apply special_not_space.
  apply existsb_count in Hsp. lia.
Qed.

(** ** What [validate_url] returns *)

Lemma Return_inj : forall (A : Type) (a b : A), Return a = Return b -> a = b.
Proof. intros A a b H. now injection H. Qed.
Arguments Return_inj {A} a b _.

(** A URL of exactly [MAX_URL_LENGTH] characters whose query repeats
    [amp;] after an ampersand: escaping lengthens it by four characters
    and the cut to 2000 characters gives the input back. *)
Definition periodic_url : str :=
  firstn 2000 (lit "https://h/?a&" ++ List.concat (repeat (lit "amp;") 500)).




(** ** What [sanitize_filename] returns *)

(** A leading dot gives way to an underscore; nothing is added in front
    of the name. *)
Definition replace_leading_dot (s : str) : str :=
  match s with
  | [] => []
  | c :: rest => (if N.eqb c (chr ".") then chr "_" else c) :: rest
  end.

Lemma hidden_file_step : forall x,
  (if startswith x (lit ".") then chr "_" :: skipn 1 x else x)
  = replace_leading_dot x.
Proof.
  intros [|c r]; [reflexivity|].
  cbn [startswith lit map list_ascii_of_string replace_leading_dot skipn].
  rewrite N.eqb_sym. change (N_of_ascii ".") with (chr ".").
  destruct (N.eqb c (chr ".")); destruct r; reflexivity.
Qed.

Lemma replace_unsafe_chars_ok : forall x,
  forallb filename_char_ok (replace_unsafe_chars x) = true.
Proof.
  induction x as [|c x IH]; [reflexivity|].
  cbn [replace_unsafe_chars map forallb]. fold (replace_unsafe_chars x).
  rewrite IH, andb_true_r.
  destruct (filename_char_ok c) eqn:E; [exact E | reflexivity].
Qed.

Lemma replace_leading_dot_ok : forall x,
  forallb filename_char_ok x = true ->
  forallb filename_char_ok (replace_leading_dot x) = true.
Proof.
  intros [|c r] H; [reflexivity|].
  cbn [replace_leading_dot forallb] in *.
  apply andb_true_iff in H. destruct H as [Hc Hr]. rewrite Hr, andb_true_r.
  destruct (N.eqb c (chr ".")); [reflexivity | exact Hc].
Qed.

Lemma replace_leading_dot_not_hidden : forall x,
  startswith (replace_leading_dot x) (lit ".") = false.
Proof.
  intros [|c r]; [reflexivity|].
  cbn [replace_leading_dot startswith lit map list_ascii_of_string].
  change (N_of_ascii ".") with (chr ".").
  destruct (N.eqb_spec c (chr ".")) as [->|Hc]; [reflexivity|].
  apply andb_false_iff. left. apply N.eqb_neq. congruence.
Qed.

Lemma rsplit_dot_app : forall s name ext,
  rsplit_dot s = Some (name, ext) -> s = name ++ chr "." :: ext.
Proof.
  induction s as [|c s IH]; intros name ext H; [discriminate H|].
  cbn [rsplit_dot] in H.
  destruct (rsplit_dot s) as [[n e]|].
  - injection H as <- <-. cbn [app]. f_equal. now apply IH.
  - destruct (N.eqb_spec c (chr ".")) as [->|_]; [|discriminate H].
    now injection H as <- <-.
Qed.

(** The name part keeps the first character of a name that does not
    start with a dot. *)
Lemma name_and_ext_head : forall c s,
  c <> chr "." -> exists n, fst (name_and_ext (c :: s)) = c :: n.
Proof.
  intros c s Hc. unfold name_and_ext. cbn [rsplit_dot].
  destruct (rsplit_dot s) as [[n e]|].
  - now exists n.
  - destruct (N.eqb_spec c (chr ".")); [contradiction|]. now exists s.
Qed.

Lemma name_and_ext_ok : forall s,
  forallb filename_char_ok s = true ->
  forallb filename_char_ok (fst (name_and_ext s)) = true /\
  forallb filename_char_ok (snd (name_and_ext s)) = true.
Proof.
  intros s H. unfold name_and_ext.
  destruct (rsplit_dot s) as [[n e]|] eqn:E; [|now split].
  apply rsplit_dot_app in E. subst s.
  rewrite forallb_app in H. cbn [forallb] in H.
  apply andb_true_iff in H. destruct H as [Hn H].
  apply andb_true_iff in H. destruct H as [_ He]. now split.
Qed.

Lemma forallb_firstn : forall (P : char -> bool) n s,
  forallb P s = true -> forallb P (firstn n s) = true.
Proof.
  intros P n. induction n as [|n IH]; intros [|c s] H; try reflexivity.
  cbn [firstn forallb] in *.
  apply andb_true_iff in H. destruct H as [Hc Hs].
  now rewrite Hc, IH.
Qed.

Lemma dotted_ok : forall ext,
  forallb filename_char_ok ext = true ->
  forallb filename_char_ok (dotted ext) = true.
Proof. intros [|c e] H; [reflexivity | exact H]. Qed.

Lemma dotted_length : forall ext, List.length (dotted ext) <= S (List.length ext).
Proof. intros [|c e]; simpl; lia. Qed.

(** C6, as stated, fails twice.  A hidden-file name loses its dot instead
    of getting an underscore in front of it; and a name whose extension is
    long is returned longer than 255 characters. *)
Lemma sanitize_filename_not_as_claimed :
  (sanitize_filename (lit ".env") = Return (lit "_env") /\
   lit "_env" <> chr "_" :: lit ".env") /\
  (let long := lit "a." ++ repeat (chr "b") 300 in
   sanitize_filename long = Return long /\ List.length long = 302).
Proof.
  split; split; try (vm_compute; reflexivity).
  vm_compute. discriminate.
Qed.

(** C6 (amended): [sanitize_filename] fails exactly when the path has no
    final component (an empty filename included).  Otherwise it returns a
    non-empty name made of [A-Za-z0-9._-] only, hence free of directory
    separators, that does not start with a dot: the final path component
    with every other character replaced by [_] and a leading dot replaced
    (not preceded) by [_]; when that is longer than 255 characters, the
    first 250 characters of the part before the last dot followed by the
    whole extension.  The result has at most 255 characters whenever the
    extension has at most 4. *)
Theorem sanitize_filename_spec :
  forall filename : str,
    let cleaned :=
      replace_leading_dot (replace_unsafe_chars (path_name filename)) in
    match sanitize_filename filename with
    | RaiseValueError => path_name filename = []
    | Return out =>
        path_name filename <> [] /\
        out <> [] /\
        forallb filename_char_ok out = true /\
        startswith out (lit ".") = false /\
        (List.length cleaned <= 255 -> out = cleaned) /\
        (255 < List.length cleaned ->
           out = firstn 250 (fst (name_and_ext cleaned))
                 ++ dotted (snd (name_and_ext cleaned))) /\
        (List.length (snd (name_and_ext cleaned)) <= 4 ->
           List.length out <= 255)
    end.
Proof.
  intros filename cleaned.
  destruct filename as [|c0 f]; [reflexivity|].
  unfold sanitize_filename.
  set (p := path_name (c0 :: f)) in *.
  rewrite hidden_file_step. fold cleaned.
  assert (forallb filename_char_ok cleaned = true) as Hok
    by apply replace_leading_dot_ok, replace_unsafe_chars_ok.
  assert (startswith cleaned (lit ".") = false) as Hdot
    by apply replace_leading_dot_not_hidden.
  destruct cleaned as [|c r] eqn:Ecl.
  - (* no final component *)
    cbn [str_eqb orb].
    destruct p; [reflexivity | discriminate Ecl].
  - assert (p <> []) as Hp by (intros ->; discriminate Ecl).
    assert (c <> chr ".") as Hc.
    { intros ->. cbn in Hdot. destruct r; discriminate Hdot. }
    assert (str_eqb (c :: r) [] || str_eqb (c :: r) (lit ".") = false) as Hne.
    { cbn [str_eqb orb lit map list_ascii_of_string].
      change (N_of_ascii ".") with (chr ".").
      destruct (N.eqb_spec c (chr ".")); [contradiction | reflexivity]. }
    rewrite Hne.
    destruct (Nat.ltb_spec 255 (List.length (c :: r))) as [Hlong|Hshort].
    + destruct (name_and_ext (c :: r)) as [name ext] eqn:Ene.
      destruct (name_and_ext_head c r Hc) as [n Hn].
      destruct (name_and_ext_ok (c :: r) Hok) as [Hokn Hoke].
      rewrite Ene in Hn, Hokn, Hoke. cbn [fst snd] in *. subst name.
      split; [exact Hp|].
      split; [discriminate|].
      split.
      { rewrite forallb_app, forallb_firstn, dotted_ok by assumption.
        reflexivity. }
      split.
      { cbn [firstn app startswith lit map list_ascii_of_string].
        change (N_of_ascii ".") with (chr ".").
        apply andb_false_iff. left. apply N.eqb_neq. congruence. }
      split; [intros; lia|].
      split; [reflexivity|].
      intros Hext. rewrite length_app.
      pose proof (firstn_le_length 250 (c :: n)).
      pose proof (dotted_length ext). lia.
    + split; [exact Hp|].
      split; [discriminate|].
      split; [exact Hok|].
      split; [exact Hdot|].
      split; [reflexivity|].
      split; [intros; lia|].
      intros _. exact Hshort.
Qed.

(** ** The other validators *)

(** [validate_title], on a [str]. *)
Definition validate_title (title : str) : outcome str :=
  match title with
  | [] => RaiseValueError
  | _ =>
      let title := sanitize_string title (Some MAX_TITLE_LENGTH) false in
      if List.length title <? 1 then RaiseValueError else Return title
  end.

(** [validate_description], on [None] or a [str]. *)
Definition validate_description (description : option str) : str :=
  match description with
  | None => []
  | Some d => sanitize_string d (Some MAX_DESCRIPTION_LENGTH) false
  end.

(** What [validate_tags] is given: nothing, a [str], or a list of
    [str]. *)
Inductive tags_input :=
| TagsNone
| TagsStr (s : str)
| TagsList (l : list str).

(** The characters of the class [[<>{}\\]]. *)
Definition dangerous_tag_char (c : char) : bool :=
  N.eqb c (chr "<") || N.eqb c (chr ">") || N.eqb c (chr "{") ||
  N.eqb c (chr "}") || N.eqb c 92%N (* the backslash *).

Definition validate_tags (tags : tags_input) : str :=
  match tags with
  | TagsNone | TagsStr [] | TagsList [] => []
  | _ =>
      (* Convert list to string if needed *)
      let tags :=
        match tags with
        | TagsList l => join (lit ", ") l
        | TagsStr s => s
        | TagsNone => []
        end in
      let tags := sanitize_string tags (Some MAX_TAG_LENGTH) false in
      (* Remove any potentially dangerous characters *)
      filter (fun c => negb (dangerous_tag_char c)) tags
  end.

(** The characters of the class [[a-zA-Z0-9\s\-_&]]; [\s] is the
    whitespace of [str.isspace]. *)
Definition category_char_ok (c : char) : bool :=
  is_ascii_lower c || is_ascii_upper c || is_ascii_digit c || isspace c ||
  N.eqb c (chr "-") || N.eqb c (chr "_") || N.eqb c (chr "&").

(** [validate_category], on [None] or a [str].  The pattern is anchored
    at both ends; its [$] also matches before a final newline, which the
    class holds anyway. *)
Definition validate_category (category : option str) : outcome str :=
  match category with
  | None | Some [] => Return []
  | Some c =>
      let category := sanitize_string c (Some 200) false in
      match category with
      | [] => RaiseValueError
      | _ =>
          if forallb category_char_ok category then Return category
          else RaiseValueError
      end
  end.

(** [Path(filename).suffix]: the last dot of the name and what follows
    it, unless that dot starts or ends the name. *)
Definition path_suffix (path : str) : str :=
  match rsplit_dot (path_name path) with
  | Some (_ :: _, (_ :: _) as ext) => chr "." :: ext
  | _ => []
  end.

Definition validate_file_extension (filename : str) : outcome bool :=
  match filename with
  | [] => RaiseValueError
  | _ =>
      let ext := lower (path_suffix filename) in
      (* Check for dangerous extensions *)
      if mem ext DANGEROUS_EXTENSIONS then RaiseValueError
      (* Check if extension is in allowed list *)
      else if negb (mem ext ALLOWED_EXTENSIONS) then RaiseValueError
      else Return true
  end.

Definition validate_resource_type (resource_type : str) : outcome str :=
  if negb (mem resource_type (map lit ["file"; "link"]%string))
  then RaiseValueError
  else Return resource_type.

(** The characters that open or close markup or an attribute value. *)
Definition is_markup (c : char) : bool :=
  N.eqb c (chr "<") || N.eqb c (chr ">") || N.eqb c 34%N ||
  N.eqb c (chr "'").

Definition no_markup (s : str) : bool :=
  forallb (fun c => negb (is_markup c)) s.

Lemma escape_char_no_markup : forall c, no_markup (escape_char c) = true.
Proof.
  intros c. unfold escape_char, no_markup, is_markup.
  destruct (N.eqb_spec c (chr "&")) as [->|H1]; [reflexivity|].
  destruct (N.eqb_spec c (chr "<")) as [->|H2]; [reflexivity|].
  destruct (N.eqb_spec c (chr ">")) as [->|H3]; [reflexivity|].
  destruct (N.eqb_spec c 34%N) as [->|H4]; [reflexivity|].
  destruct (N.eqb_spec c (chr "'")) as [->|H5]; [reflexivity|].
  cbn [forallb].
  apply N.eqb_neq in H2, H3, H4, H5. now rewrite H2, H3, H4, H5.
Qed.

Lemma escape_no_markup : forall s, no_markup (escape s) = true.
Proof.
  intros s. rewrite escape_flat_map. unfold no_markup.
  induction s as [|c s IH]; [reflexivity|].
  cbn [flat_map]. rewrite forallb_app, IH, andb_true_r.
  apply escape_char_no_markup.
Qed.

Lemma escape_char_length : forall c, 1 <= List.length (escape_char c).
Proof.
  intros c. unfold escape_char.
  repeat match goal with
         | |- context [if ?b then _ else _] => destruct b; [simpl; lia|]
         end.
  simpl. lia.
Qed.

Lemma escape_length : forall s, List.length s <= List.length (escape s).
Proof.
  intros s. rewrite escape_flat_map.
  induction s as [|c s IH]; [reflexivity|].
  cbn [flat_map]. rewrite length_app.
  pose proof (escape_char_length c). simpl. lia.
Qed.

(** With a limit that is not zero, and HTML not allowed, the result is
    the escaped, stripped text cut at the limit. *)
Lemma sanitize_string_limited : forall value m,
  m <> 0 ->
  sanitize_string value (Some m) false = firstn m (escape (strip value)).
Proof.
  intros value m Hm. unfold sanitize_string.
  destruct (Nat.eqb_spec m 0) as [->|_]; [congruence|].
  cbn [negb andb].
  destruct (Nat.ltb_spec m (List.length (escape (strip value))));
    [reflexivity|].
  symmetry. now apply firstn_all2.
Qed.

Lemma sanitize_string_no_markup : forall value max_length,
  no_markup (sanitize_string value max_length false) = true.
Proof.
  intros value max_length. unfold sanitize_string.
  destruct max_length as [m|]; [|apply escape_no_markup].
  destruct (negb (m =? 0) && (m <? _));
    [apply forallb_firstn|]; apply escape_no_markup.
Qed.

(** X12: with HTML not allowed, [sanitize_string] returns text without
    any of [<], [>] and the two quotes, and, for a limit that is not
    zero, no longer than the limit.  A limit of zero is no limit. *)
Theorem sanitize_string_leaves_no_markup :
  forall (value : str) (max_length : option nat),
    no_markup (sanitize_string value max_length false) = true /\
    (forall m, max_length = Some (S m) ->
       List.length (sanitize_string value max_length false) <= S m) /\
    sanitize_string value (Some 0) false = sanitize_string value None false.
Proof.
  intros value max_length. split; [|split].
  - apply sanitize_string_no_markup.
  - intros m ->. rewrite sanitize_string_limited by discriminate.
    rewrite length_firstn. lia.
  - reflexivity.
Qed.

(** X13: [validate_title] raises exactly for the titles that are empty
    or all whitespace; any other title comes back stripped, escaped and
    cut to 500 characters, so between 1 and 500 characters long and
    free of markup characters. *)
Theorem validate_title_accepts_nonblank :
  forall title : str,
    match validate_title title with
    | RaiseValueError => strip title = []
    | Return t =>
        strip title <> [] /\
        t = firstn MAX_TITLE_LENGTH (escape (strip title)) /\
        1 <= List.length t <= MAX_TITLE_LENGTH /\
        no_markup t = true
    end.
Proof.
  intros title. destruct title as [|c0 title]; [reflexivity|].
  unfold validate_title.
  rewrite sanitize_string_limited by discriminate.
  set (e := escape (strip (c0 :: title))).
  assert (Hlen : List.length (firstn MAX_TITLE_LENGTH e)
                 = Nat.min MAX_TITLE_LENGTH (List.length e))
    by apply length_firstn.
  pose proof (escape_length (strip (c0 :: title))) as Hgrow. fold e in Hgrow.
  destruct (Nat.ltb_spec (List.length (firstn MAX_TITLE_LENGTH e)) 1)
    as [Hshort|Hlong].
  - assert (He : List.length e = 0).
    { rewrite Hlen in Hshort. unfold MAX_TITLE_LENGTH in Hshort. lia. }
    destruct (strip (c0 :: title)); [reflexivity | simpl in Hgrow; lia].
  - split; [|split; [reflexivity|split]].
    + intros Hs. unfold e in Hlen. rewrite Hs in Hlen.
      change (escape []) with (@nil char) in Hlen. simpl in Hlen.
      unfold e in Hlong. rewrite Hs in Hlong.
      change (escape []) with (@nil char) in Hlong.
      rewrite firstn_nil in Hlong. simpl in Hlong. lia.
    + rewrite Hlen. lia.
    + apply forallb_firstn, escape_no_markup.
Qed.

Lemma forallb_filter_keeps : forall (P Q : char -> bool) s,
  forallb P s = true -> forallb P (filter Q s) = true.
Proof.
  intros P Q s. induction s as [|c s IH]; simpl; [reflexivity|].
  intros H. apply andb_true_iff in H. destruct H as [Hc Hs].
  destruct (Q c); simpl; [rewrite Hc|]; auto.
Qed.

Lemma forallb_filter_self : forall (Q : char -> bool) s,
  forallb Q (filter Q s) = true.
Proof.
  intros Q s. induction s as [|c s IH]; simpl; [reflexivity|].
  destruct (Q c) eqn:H; simpl; [rewrite H|]; auto.
Qed.

Lemma filter_length_le : forall (Q : char -> bool) s,
  List.length (filter Q s) <= List.length s.
Proof.
  intros Q s. induction s as [|c s IH]; simpl; [lia|].
  destruct (Q c); simpl; lia.
Qed.

(** X14: what [validate_tags] returns holds none of [<], [>], the two
    quotes, the braces and the backslash, and is at most 1000
    characters long. *)
Theorem validate_tags_removes_dangerous_characters :
  forall tags : tags_input,
    no_markup (validate_tags tags) = true /\
    forallb (fun c => negb (dangerous_tag_char c)) (validate_tags tags)
    = true /\
    List.length (validate_tags tags) <= MAX_TAG_LENGTH.
Proof.
  intros tags.
  assert (H : forall s,
            let r := filter (fun c => negb (dangerous_tag_char c))
                       (sanitize_string s (Some MAX_TAG_LENGTH) false) in
            no_markup r = true /\
            forallb (fun c => negb (dangerous_tag_char c)) r = true /\
            List.length r <= MAX_TAG_LENGTH).
  { intros s r. subst r. split; [|split].
    - apply forallb_filter_keeps.
      apply sanitize_string_no_markup.
    - apply forallb_filter_self.
    - etransitivity; [apply filter_length_le|].
      rewrite sanitize_string_limited by discriminate.
      rewrite length_firstn. lia. }
  assert (Hnil : no_markup [] = true /\
                 forallb (fun c => negb (dangerous_tag_char c)) [] = true /\
                 List.length (@nil char) <= MAX_TAG_LENGTH)
    by (repeat split; apply Nat.le_0_l).
  destruct tags as [|[|c s]|[|t l]].
  - exact Hnil.
  - exact Hnil.
  - apply (H (c :: s)).
  - exact Hnil.
  - apply (H (join (lit ", ") (t :: l))).
Qed.

Lemma count_existsb : forall P s, 0 < count P s -> existsb P s = true.
Proof.
  intros P s. unfold count. induction s as [|c s IH]; simpl; [lia|].
  destruct (P c); simpl; auto.
Qed.

(** Stripping removes only whitespace. *)
Lemma In_strip : forall x s,
  isspace x = false -> In x s -> In x (strip s).
Proof.
  intros x s Hx Hin.
  assert (H : existsb (N.eqb x) (strip s) = true).
  { apply count_existsb. rewrite count_strip.
    - apply existsb_count. apply existsb_exists. exists x.
      split; [exact Hin | apply N.eqb_refl].
    - intros c Hc. apply N.eqb_neq. congruence. }
  apply existsb_exists in H. destruct H as [y [Hy Heq]].
  apply N.eqb_eq in Heq. now subst.
Qed.

(** X15: a category that [validate_category] accepts is made of
    letters, digits, whitespace, [-], [_] and [&] only, is free of
    markup characters and at most 200 characters long; it is empty only
    for an empty or missing category.  Only a category that is not empty
    can be rejected. *)
Theorem validate_category_accepts_only_its_class :
  forall category : option str,
    match validate_category category with
    | Return r =>
        forallb category_char_ok r = true /\
        no_markup r = true /\
        List.length r <= 200 /\
        (r = [] <-> category = None \/ category = Some [])
    | RaiseValueError => exists c cs, category = Some (c :: cs)
    end.
Proof.
  assert (Hnil : forall category : option str,
            category = None \/ category = Some [] ->
            forallb category_char_ok [] = true /\
            no_markup [] = true /\
            List.length (@nil char) <= 200 /\
            (@nil char = [] <->
             category = None \/ category = @Some str []))
    by (intros category H; repeat split; auto using Nat.le_0_l).
  intros [[|c cs]|];
    [ apply (Hnil (Some [])); now right | | apply (Hnil None); now left ].
  unfold validate_category.
  rewrite sanitize_string_limited by discriminate.
  pose proof (escape_no_markup (strip (c :: cs))) as Hm.
  pose proof (length_firstn 200 (escape (strip (c :: cs)))) as Hl.
  apply (forallb_firstn _ 200) in Hm.
  destruct (firstn 200 (escape (strip (c :: cs)))) as [|x r] eqn:E;
    [eauto|].
  destruct (forallb category_char_ok (x :: r)) eqn:Hok; [|eauto].
  repeat split; auto; try lia; try discriminate.
  intros [H|H]; discriminate.
Qed.

(** X16: the ampersand is in the class of characters a category may
    hold, but the check runs on the escaped text, where it has become
    [&amp;]: a category with an ampersand is rejected, unless its
    escaped text is longer than 200 characters and is cut. *)
Theorem validate_category_rejects_ampersand :
  forall category : str,
    In (chr "&") category ->
    List.length (escape (strip category)) <= 200 ->
    validate_category (Some category) = RaiseValueError.
Proof.
  intros c Hin Hlen.
  assert (Hsemi : In (chr ";") (escape (strip c))).
  { rewrite escape_flat_map. apply in_flat_map. exists (chr "&").
    split; [apply In_strip; [reflexivity | exact Hin]|].
    cbn. tauto. }
  destruct c as [|c0 c]; [destruct Hin|].
  unfold validate_category.
  rewrite sanitize_string_limited by discriminate.
  rewrite firstn_all2 by exact Hlen.
  destruct (escape (strip (c0 :: c))) as [|x e] eqn:E; [reflexivity|].
  destruct (forallb category_char_ok (x :: e)) eqn:Hok; [|reflexivity].
  exfalso. rewrite forallb_forall in Hok. specialize (Hok _ Hsemi).
  discriminate Hok.
Qed.

Lemma validate_category_rejects_ampersand_witness :
  validate_category (Some (lit "Media & Socials")) = RaiseValueError.
Proof.
  apply validate_category_rejects_ampersand.
  - cbn. tauto.
  - apply Nat.leb_le. vm_compute. reflexivity.
Defined.

Lemma dangerous_not_allowed : forall ext,
  mem ext DANGEROUS_EXTENSIONS = true -> mem ext ALLOWED_EXTENSIONS = false.
Proof.
  intros ext H. unfold mem in H. apply existsb_exists in H.
  destruct H as [d [Hin Heq]]. apply str_eqb_eq in Heq. subst d.
  unfold DANGEROUS_EXTENSIONS in Hin. cbn [map In] in Hin.
  repeat (destruct Hin as [<-|Hin]; [vm_compute; reflexivity|]).
  destruct Hin.
Qed.

Lemma validate_file_extension_allowed : forall filename : str,
  validate_file_extension filename
  = if negb (str_eqb filename []) &&
       mem (lower (path_suffix filename)) ALLOWED_EXTENSIONS
    then Return true
    else RaiseValueError.
Proof.
  intros [|c f]; [reflexivity|].
  unfold validate_file_extension. cbn [str_eqb negb andb].
  destruct (mem (lower (path_suffix (c :: f))) DANGEROUS_EXTENSIONS) eqn:Hd.
  - now rewrite (dangerous_not_allowed _ Hd).
  - destruct (mem _ ALLOWED_EXTENSIONS); reflexivity.
Qed.

(** X17: [validate_file_extension] accepts a file name exactly when the
    lower-cased suffix of its last component is in the allow-list: no
    dangerous extension is in the allow-list, so the first check never
    decides, and only the last suffix counts. *)
Theorem validate_file_extension_is_the_allow_list :
  (forall ext, mem ext DANGEROUS_EXTENSIONS = true ->
               mem ext ALLOWED_EXTENSIONS = false) /\
  forall filename : str,
    validate_file_extension filename
    = if negb (str_eqb filename []) &&
         mem (lower (path_suffix filename)) ALLOWED_EXTENSIONS
      then Return true
      else RaiseValueError.
Proof.
  split; [exact dangerous_not_allowed | exact validate_file_extension_allowed].
Qed.

End Security.

(* ================================================================== *)
(** * file_watcher.py *)
(* ================================================================== *)

Module Watcher.
Import Py.

(** [ContentWatcher.__init__]: [self.supported_extensions].  A Python
    set; only membership is ever asked of it. *)
Definition supported_extensions : list str := map lit
  [ ".pdf"; ".png"; ".jpg"; ".jpeg"; ".gif"; ".webp";
    ".mp4"; ".webm"; ".doc"; ".docx"; ".txt"; ".md" ]%string.

(** [a <= b] on sets. *)
Definition subset (a b : list str) : bool := forallb (fun e => mem e b) a.

(** [b - a] on sets, in the order of [b]. *)
Definition difference (b a : list str) : list str :=
  filter (fun e => negb (mem e a)) b.

(** C7, as stated, fails: the validator allows [.csv] uploads, which the
    watcher does not import, so the watcher's set is no superset of the
    validator's allow-list. *)
Lemma watcher_extensions_not_superset :
  mem (lit ".csv") Security.ALLOWED_EXTENSIONS = true /\
  mem (lit ".csv") supported_extensions = false /\
  subset Security.ALLOWED_EXTENSIONS supported_extensions = false.
Proof. repeat split. Qed.

(** C7 (amended): the watcher's set of supported extensions is a proper
    subset of the validator's upload allow-list, overlapping but not
    identical to it: every watcher extension is allowed for upload, and
    the validator allows six more. *)
Theorem watcher_extensions_proper_subset :
  subset supported_extensions Security.ALLOWED_EXTENSIONS = true /\
  subset Security.ALLOWED_EXTENSIONS supported_extensions = false /\
  difference Security.ALLOWED_EXTENSIONS supported_extensions
    = map lit [".csv"; ".json"; ".xml"; ".zip"; ".tar"; ".gz"]%string /\
  difference supported_extensions Security.ALLOWED_EXTENSIONS = [].
Proof. repeat split. Qed.

(** [ContentWatcher.should_process_file] *)
Definition should_process_file (file_path : str) : bool :=
  mem (Security.lower (Security.path_suffix file_path)) supported_extensions.

Lemma supported_is_allowed : forall ext,
  mem ext supported_extensions = true ->
  mem ext Security.ALLOWED_EXTENSIONS = true.
Proof.
  intros ext H. unfold mem in H. apply existsb_exists in H.
  destruct H as [d [Hin Heq]]. apply str_eqb_eq in Heq. subst d.
  unfold supported_extensions in Hin. cbn [map In] in Hin.
  repeat (destruct Hin as [<-|Hin]; [vm_compute; reflexivity|]).
  destruct Hin.
Qed.

(** X18: whatever the watcher decides to import would also pass the
    validator's extension check for uploads. *)
Theorem watched_files_pass_the_upload_check :
  forall file_path : str,
    should_process_file file_path = true ->
    Security.validate_file_extension file_path = Security.Return true.
Proof.
  intros file_path H. rewrite Security.validate_file_extension_allowed.
  unfold should_process_file in H.
  rewrite (supported_is_allowed _ H), andb_true_r.
  destruct file_path; [discriminate H | reflexivity].
Qed.

Lemma watched_files_pass_the_upload_check_witness :
  should_process_file (lit "content/red/Nmap-Guide.PDF") = true /\
  Security.validate_file_extension (lit "content/red/Nmap-Guide.PDF")
  = Security.Return true.
Proof.
  split; [vm_compute; reflexivity|].
  apply watched_files_pass_the_upload_check. vm_compute. reflexivity.
Defined.

(** [get_category_from_path]: the mapping from directory names. *)
Definition category_mapping : dict str :=
  map (fun '(k, v) => (lit k, lit v))
  [ ("posters", "Posters");
    ("cheatsheets", "Cheat Sheets");
    ("publications", "Publications");
    ("media", "Media & Socials");
    ("training", "Training");
    ("tooling", "Tooling");
    ("projects", "Projects");
    ("vms", "Virtual Machines");
    ("blue", "Blue Team");
    ("red", "Red Team");
    ("intelligence", "Threat Intelligence");
    ("int", "Threat Intelligence") ]%string.

(** The root that [Path(file_path).parts] starts with, in the POSIX
    flavour: exactly two leading slashes are kept as they are, any other
    number is one slash. *)
Definition path_root (path : str) : list str :=
  if startswith path (lit "//") && negb (startswith path (lit "///"))
  then [lit "//"]
  else if startswith path (lit "/") then [lit "/"]
  else [].

Definition parts (path : str) : list str :=
  path_root path ++ Security.path_parts path.

(** The loop over [path_parts]. *)
Fixpoint first_mapped (path_parts : list str) : str :=
  match path_parts with
  | [] => lit "Uncategorized"
  | part :: rest =>
      let part_lower := Security.lower part in
      match dict_get category_mapping part_lower with
      | Some category => category
      | None => first_mapped rest
      end
  end.

Definition get_category_from_path (file_path : str) : str :=
  first_mapped (parts file_path).

Lemma dict_get_In : forall (d : dict str) k v,
  dict_get d k = Some v -> In v (map snd d).
Proof.
  induction d as [|[k' v'] d IH]; simpl; intros k v H; [discriminate|].
  destruct (str_eqb k k'); [injection H as <-; now left|].
  right. eapply IH. exact H.
Qed.

Lemma mapped_is_categorized : forall c,
  In c (map snd category_mapping) -> c <> lit "Uncategorized".
Proof.
  intros c Hin. unfold category_mapping in Hin. cbn [map In snd] in Hin.
  repeat (destruct Hin as [<-|Hin];
          [intros H; vm_compute in H; discriminate H|]).
  destruct Hin.
Qed.

(** X19: [get_category_from_path] returns one of the names of the
    mapping or [Uncategorized], and [Uncategorized] exactly when no
    component of the path, lower-cased, is a directory name of the
    mapping. *)
Theorem get_category_from_path_range :
  forall file_path : str,
    In (get_category_from_path file_path)
       (map snd category_mapping ++ [lit "Uncategorized"]) /\
    (get_category_from_path file_path = lit "Uncategorized" <->
     forall part, In part (parts file_path) ->
       dict_get category_mapping (Security.lower part) = None).
Proof.
  intros file_path. unfold get_category_from_path.
  induction (parts file_path) as [|part rest [IH1 IH2]].
  - split.
    + apply in_or_app. right. now left.
    + split; [intros _ part [] | reflexivity].
  - cbn [first_mapped].
    destruct (dict_get category_mapping (Security.lower part)) as [c|] eqn:E.
    + apply dict_get_In in E as Hin. split.
      * apply in_or_app. now left.
      * split.
        -- intros Hc. now apply mapped_is_categorized in Hin.
        -- intros H. specialize (H part (or_introl eq_refl)). congruence.
    + split; [exact IH1|]. rewrite IH2. split.
      * intros H p [<-|Hp]; auto.
      * intros H p Hp. apply H. now right.
Qed.

End Watcher.

(* ================================================================== *)
(** * [hashlib.md5] *)
(* ================================================================== *)

Module Hashlib.
Import Py.
Local Open Scope Z_scope.

(** A [bytes] object: a sequence of integers in [0, 256). *)
Definition bytes := list Z.

Definition word (x : Z) : Z := x mod 2 ^ 32.

Definition rotl (x c : Z) : Z :=
  word (Z.lor (Z.shiftl x c) (Z.shiftr (word x) (32 - c))).

Definition lnot32 (x : Z) : Z := Z.lxor (word x) (2 ^ 32 - 1).

Definition shifts : list Z :=
  [ 7; 12; 17; 22; 7; 12; 17; 22; 7; 12; 17; 22; 7; 12; 17; 22;
    5; 9; 14; 20; 5; 9; 14; 20; 5; 9; 14; 20; 5; 9; 14; 20;
    4; 11; 16; 23; 4; 11; 16; 23; 4; 11; 16; 23; 4; 11; 16; 23;
    6; 10; 15; 21; 6; 10; 15; 21; 6; 10; 15; 21; 6; 10; 15; 21 ].

(** [floor(2^32 * abs(sin(i + 1)))] for [i] in [0, 64). *)
Definition sines : list Z :=
  [ 3614090360; 3905402710; 606105819; 3250441966; 4118548399;
    1200080426; 2821735955; 4249261313; 1770035416; 2336552879;
    4294925233; 2304563134; 1804603682; 4254626195; 2792965006;
    1236535329; 4129170786; 3225465664; 643717713; 3921069994;
    3593408605; 38016083; 3634488961; 3889429448; 568446438;
    3275163606; 4107603335; 1163531501; 2850285829; 4243563512;
    1735328473; 2368359562; 4294588738; 2272392833; 1839030562;
    4259657740; 2763975236; 1272893353; 4139469664; 3200236656;
    681279174; 3936430074; 3572445317; 76029189; 3654602809;
    3873151461; 530742520; 3299628645; 4096336452; 1126891415;
    2878612391; 4237533241; 1700485571; 2399980690; 4293915773;
    2240044497; 1873313359; 4264355552; 2734768916; 1309151649;
    4149444226; 3174756917; 718787259; 3951481745 ].

Fixpoint le_bytes (n : nat) (x : Z) : bytes :=
  match n with
  | O => []
  | S n' => x mod 256 :: le_bytes n' (x / 256)
  end.

Fixpoint le_word (bs : bytes) : Z :=
  match bs with
  | [] => 0
  | b :: bs' => b + 256 * le_word bs'
  end.

(** The message followed by [0x80], zeros up to 56 modulo 64, and the
    bit length as eight little-endian bytes. *)
Definition pad (msg : bytes) : bytes :=
  let n := Z.of_nat (List.length msg) in
  let zeros := Z.to_nat ((55 - n) mod 64) in
  msg ++ [128] ++ repeat 0 zeros ++ le_bytes 8 (word (8 * n) + 2 ^ 32 * word (8 * n / 2 ^ 32)).

Fixpoint chunks (k : nat) (fuel : nat) (bs : bytes) : list bytes :=
  match fuel, bs with
  | O, _ | _, [] => []
  | S fuel', _ => firstn k bs :: chunks k fuel' (skipn k bs)
  end.

Definition state := (Z * Z * Z * Z)%type.

Definition round (m : list Z) (st : state) (i : Z) : state :=
  let '(a, b, c, d) := st in
  let '(f, g) :=
    if i <? 16 then (Z.lor (Z.land b c) (Z.land (lnot32 b) d), i)
    else if i <? 32 then
      (Z.lor (Z.land d b) (Z.land (lnot32 d) c), (5 * i + 1) mod 16)
    else if i <? 48 then (Z.lxor b (Z.lxor c d), (3 * i + 5) mod 16)
    else (Z.lxor c (Z.lor b (lnot32 d)), (7 * i) mod 16) in
  let f' := word (f + a + nth (Z.to_nat i) sines 0 + nth (Z.to_nat g) m 0) in
  (d, word (b + rotl f' (nth (Z.to_nat i) shifts 0)), b, c).

Definition block (st : state) (chunk : bytes) : state :=
  let m := map le_word (chunks 4 16 chunk) in
  let '(a, b, c, d) := st in
  let '(a', b', c', d') :=
    fold_left (round m) (map Z.of_nat (seq 0 64)) st in
  (word (a + a'), word (b + b'), word (c + c'), word (d + d')).

Definition digest (msg : bytes) : bytes :=
  let p := pad msg in
  let '(a, b, c, d) :=
    fold_left block (chunks 64 (List.length p) p)
      (1732584193, 4023233417, 2562383102, 271733878) in
  le_bytes 4 a ++ le_bytes 4 b ++ le_bytes 4 c ++ le_bytes 4 d.

Definition hexdigit (x : Z) : char :=
  Z.to_N (if x <? 10 then 48 + x else 87 + x).

(** [hashlib.md5(data).hexdigest()] *)
Definition md5_hexdigest (data : bytes) : str :=
  flat_map (fun b => [hexdigit (b / 16); hexdigit (b mod 16)]) (digest data).

(** The test vectors of RFC 1321. *)
Example md5_empty :
  md5_hexdigest [] = lit "d41d8cd98f00b204e9800998ecf8427e".
Proof. vm_compute. reflexivity. Qed.

Example md5_abc :
  md5_hexdigest [97; 98; 99] = lit "900150983cd24fb0d6963f7d28e17f72".
Proof. vm_compute. reflexivity. Qed.

Example md5_long :
  md5_hexdigest (map (fun n => Z.of_nat n mod 10 + 48) (seq 1 80))
  = lit "57edf4a22be3c955ac49da2e2107b67a".
Proof. vm_compute. reflexivity. Qed.

End Hashlib.

(* ================================================================== *)
(** * [database.py]: the SQLite-backed store *)
(* ================================================================== *)

Module Database.
Import Py.
Local Open Scope Z_scope.

Definition bytes := Hashlib.bytes.

(** ** SQLite values and the [resources] table *)

(** A REAL of SQLite and a [float] of Python are IEEE binary64 numbers.
    They are taken at their value: a zero, an infinity, a NaN, or
    [(-1)^s * m * 2^e]. *)
Definition float := spec_float.

Inductive value :=
| VNull
| VInt (n : Z)
| VText (s : str)
| VBlob (b : bytes)
| VReal (x : float).

Fixpoint bytes_eqb (a b : bytes) : bool :=
  match a, b with
  | [], [] => true
  | x :: a', y :: b' => Z.eqb x y && bytes_eqb a' b'
  | _, _ => false
  end.

Definition float_eqb (x y : float) : bool :=
  match x, y with
  | S754_zero s, S754_zero s' => Bool.eqb s s'
  | S754_infinity s, S754_infinity s' => Bool.eqb s s'
  | S754_nan, S754_nan => true
  | S754_finite s m e, S754_finite s' m' e' =>
      Bool.eqb s s' && Pos.eqb m m' && Z.eqb e e'
  | _, _ => false
  end.

Definition value_eqb (a b : value) : bool :=
  match a, b with
  | VNull, VNull => true
  | VInt n, VInt m => Z.eqb n m
  | VText s, VText t => str_eqb s t
  | VBlob x, VBlob y => bytes_eqb x y
  | VReal x, VReal y => float_eqb x y
  | _, _ => false
  end.

(** The comparison [a = b] of SQL in a [WHERE] clause or a [UNIQUE]
    index: NULL equals nothing, itself included.  The statements of the
    store compare the key, which is an integer, and columns of TEXT
    affinity, which hold no number: an integer is never compared with a
    REAL. *)
Definition sql_eqb (a b : value) : bool :=
  match a with
  | VNull => false
  | _ => value_eqb a b
  end.

Inductive affinity := INTEGER | TEXT | BLOB | NUMERIC.

(** The columns of [resources], in the order of [CREATE TABLE]. *)
Module Col.

Inductive t :=
| id | title | description | file_path | file_data | file_type
| file_size | file_hash | category | tags | url | resource_type
| thumbnail_path | classifier_used | classification_confidence
| created_at | updated_at.

Definition all : list t :=
  [ id; title; description; file_path; file_data; file_type;
    file_size; file_hash; category; tags; url; resource_type;
    thumbnail_path; classifier_used; classification_confidence;
    created_at; updated_at ].

Definition name (c : t) : str :=
  match c with
  | id => lit "id"
  | title => lit "title"
  | description => lit "description"
  | file_path => lit "file_path"
  | file_data => lit "file_data"
  | file_type => lit "file_type"
  | file_size => lit "file_size"
  | file_hash => lit "file_hash"
  | category => lit "category"
  | tags => lit "tags"
  | url => lit "url"
  | resource_type => lit "resource_type"
  | thumbnail_path => lit "thumbnail_path"
  | classifier_used => lit "classifier_used"
  | classification_confidence => lit "classification_confidence"
  | created_at => lit "created_at"
  | updated_at => lit "updated_at"
  end.

(** Declared types: [TIMESTAMP] gives NUMERIC affinity. *)
Definition affinity_of (c : t) : affinity :=
  match c with
  | id | file_size => INTEGER
  | file_data => BLOB
  | created_at | updated_at => NUMERIC
  | _ => TEXT
  end.

Definition not_null (c : t) : bool :=
  match c with
  | title | resource_type => true
  | _ => false
  end.

Definition eq_dec (a b : t) : {a = b} + {a <> b}.
Proof. decide equality. Defined.

Definition eqb (a b : t) : bool := if eq_dec a b then true else false.

End Col.

Definition row := Col.t -> value.

Definition set (r : row) (c : Col.t) (v : value) : row :=
  fun c' => if Col.eqb c c' then v else r c'.

Definition has_id (n : Z) (r : row) : bool := value_eqb (r Col.id) (VInt n).

(** ** Exceptions and outcomes *)

Inductive exn :=
| IntegrityError      (* sqlite3: a constraint failed, datatype mismatch *)
| OperationalError    (* sqlite3: SQL error, disk full, bad MATCH query *)
| ProgrammingError    (* sqlite3: wrong number or type of bindings *)
| DatabaseError       (* sqlite3: any other engine fault *)
| OverflowError       (* an int outside 64 bits *)
| UnicodeEncodeError  (* a str that has no UTF-8 encoding *)
| OSError             (* stat(), open() or read() failed *)
| TypeError.          (* a call with an argument of a wrong type *)

(** What a call does: return, raise, or leave the fragment of SQL text
    that this development reads. *)
Inductive result (A : Type) :=
| Returned (a : A)
| Raised (e : exn)
| Unmodelled.
Arguments Returned {A} a.
Arguments Raised {A} e.
Arguments Unmodelled {A}.

Definition and_then {A B} (m : result A) (k : A -> result B) : result B :=
  match m with
  | Returned a => k a
  | Raised e => Raised e
  | Unmodelled => Unmodelled
  end.

Notation "'let*' x ':=' m 'in' k" := (and_then m (fun x => k))
  (at level 10, x pattern, m at level 100, k at level 200).

(** ** The values of Python that reach the store

    What a caller, or the JSON body of a request, can pass: [None], a
    [bool], an [int], a [float], a [str], [bytes], a list, or a dict
    with [str] keys. *)

#[warnings="-register-all"]
Inductive pyval :=
| PyNone
| PyBool (b : bool)
| PyInt (n : Z)
| PyFloat (x : float)
| PyStr (s : str)
| PyBytes (b : bytes)
| PyList (items : list pyval)
| PyDict (entries : list (str * pyval)).

Definition is_empty {A} (l : list A) : bool :=
  match l with
  | [] => true
  | _ => false
  end.

(** [bool(v)], the test of an [if] *)
Definition truth (v : pyval) : bool :=
  match v with
  | PyNone => false
  | PyBool b => b
  | PyInt n => negb (n =? 0)
  | PyFloat (S754_zero _) => false
  | PyFloat _ => true
  | PyStr s => negb (is_empty s)
  | PyBytes b => negb (is_empty b)
  | PyList items => negb (is_empty items)
  | PyDict entries => negb (is_empty entries)
  end.

(** ** Binding Python values to statement parameters *)

Definition encodable (s : str) : bool :=
  forallb (fun c => (c <? 55296) || ((57343 <? c) && (c <=? 1114111)))%N s.

Definition int64 (n : Z) : bool :=
  (- 9223372036854775808 <=? n) && (n <=? 9223372036854775807).

Definition bind_str (s : str) : result value :=
  if encodable s then Returned (VText s) else Raised UnicodeEncodeError.

Definition bind_int (n : Z) : result value :=
  if int64 n then Returned (VInt n) else Raised OverflowError.

Definition bind_opt {A} (f : A -> result value) (o : option A)
  : result value :=
  match o with
  | None => Returned VNull
  | Some a => f a
  end.

(** Binding one value: [sqlite3] supports [None], [int] (and so
    [bool]), [float], [str] and [bytes].  A NaN is bound as NULL. *)
Definition bind_value (v : pyval) : result value :=
  match v with
  | PyNone => Returned VNull
  | PyBool b => Returned (VInt (if b then 1 else 0))
  | PyInt n => bind_int n
  | PyFloat S754_nan => Returned VNull
  | PyFloat x => Returned (VReal x)
  | PyStr s => bind_str s
  | PyBytes b => Returned (VBlob b)
  | PyList _ | PyDict _ => Raised ProgrammingError
  end.

(** The values of a statement are bound in their order; the first one
    that cannot be bound decides the exception. *)
Fixpoint bind_all (values : list pyval) : result (list value) :=
  match values with
  | [] => Returned []
  | v :: values' =>
      let* b := bind_value v in
      let* bs := bind_all values' in
      Returned (b :: bs)
  end.

(** ** The clock *)

Record datetime := {
  year : Z; month : Z; day : Z;
  hour : Z; minute : Z; second : Z; microsecond : Z
}.

(** [n] in decimal, zero-padded to [width] digits. *)
Fixpoint digits (width : nat) (n : Z) : str :=
  match width with
  | O => []
  | S w => digits w (n / 10) ++ [Z.to_N (48 + n mod 10)]
  end.

Definition date_text (d : datetime) : str :=
  digits 4 (year d) ++ lit "-" ++ digits 2 (month d) ++ lit "-"
  ++ digits 2 (day d).

Definition time_text (d : datetime) : str :=
  digits 2 (hour d) ++ lit ":" ++ digits 2 (minute d) ++ lit ":"
  ++ digits 2 (second d).

(** SQLite's [CURRENT_TIMESTAMP], from a reading of the UTC clock. *)
Definition CURRENT_TIMESTAMP (utc : datetime) : str :=
  date_text utc ++ lit " " ++ time_text utc.

(** [d.isoformat()] of a naive [datetime]; [datetime.now()] reads the
    clock in local time. *)
Definition isoformat (d : datetime) : str :=
  date_text d ++ lit "T" ++ time_text d
  ++ (if microsecond d =? 0 then [] else lit "." ++ digits 6 (microsecond d)).

(** ** The library

    Two parts of SQLite are taken as the library provides them, and the
    store is described for any library: the full-text engine, and the
    conversions between REAL values and text, whose digits depend on
    the version of the library.

    [resources_fts] is an FTS5 virtual table whose content lives in
    [resources].  Each operation of the engine sees the content table as
    it is when the trigger or query runs, and either yields or
    raises. *)

Record fts5 := {
  index : Type;
  rank : Type;
  (* INSERT INTO resources_fts(rowid, title, description, tags, category) *)
  fts_insert : list row -> index -> Z -> list value -> index + exn;
  (* DELETE FROM resources_fts WHERE rowid = ? *)
  fts_delete : list row -> index -> Z -> index + exn;
  (* UPDATE resources_fts SET title = ?, ... WHERE rowid = ? *)
  fts_update : list row -> index -> Z -> list value -> index + exn;
  (* resources_fts MATCH ?, ORDER BY rank: rowids, best first *)
  fts_match : list row -> index -> str -> list (Z * rank) + exn
}.

Record sqlite := {
  full_text :> fts5;
  (* the text a REAL becomes when it is stored in a TEXT column *)
  text_of_real : float -> str;
  (* the REAL a text is read as when it is written like a number with a
     fraction or an exponent, or like an integer beyond 64 bits *)
  real_of_text : str -> float
}.

(** The columns a trigger hands to the index. *)
Definition projection (r : row) : list value :=
  [r Col.title; r Col.description; r Col.tags; r Col.category].

(** ** Column affinity

    A value that is stored in a column is first converted as the
    declared type of the column asks. *)

(** The white space SQLite skips around a number. *)
Definition number_space (c : char) : bool :=
  (((9 <=? c) && (c <=? 13)) || (c =? 32))%N.

Fixpoint span_digits (s : str) : str * str :=
  match s with
  | c :: s' =>
      if Security.is_ascii_digit c
      then let '(d, rest) := span_digits s' in (c :: d, rest)
      else ([], s)
  | [] => ([], [])
  end.

Definition digits_value (d : str) : Z :=
  fold_left (fun n c => 10 * n + (Z.of_N c - 48)) d 0.

(** An optional sign: whether it is a minus, and the text after it. *)
Definition span_sign (s : str) : bool * str :=
  match s with
  | c :: s' =>
      if N.eqb c (chr "-") then (true, s')
      else if N.eqb c (chr "+") then (false, s')
      else (false, s)
  | [] => (false, [])
  end.

Inductive number_form :=
| Whole (n : Z)   (* digits only, with their sign *)
| Fractional.     (* with a decimal point or an exponent *)

(** Whether a text is written like a number, the way [sqlite3AtoF]
    reads it: white space, a sign, digits, a point and digits, an
    exponent with its sign and digits, white space; at least one digit
    before the exponent, and at least one in an exponent. *)
Definition numeric_form (s : str) : option number_form :=
  match Security.lstrip_by number_space s with
  | [] => None
  | s =>
      let '(negative, s) := span_sign s in
      let '(whole, s) := span_digits s in
      let '(fraction, point, s) :=
        match s with
        | c :: s' =>
            if N.eqb c (chr ".")
            then let '(d, rest) := span_digits s' in (d, true, rest)
            else ([], false, s)
        | [] => ([], false, [])
        end in
      let '(exponent_digits, exponent, s) :=
        match s with
        | c :: s' =>
            if N.eqb c (chr "e") || N.eqb c (chr "E")
            then
              let '(_, s'') := span_sign s' in
              let '(d, rest) := span_digits s'' in
              (negb (is_empty d), true, rest)
            else (true, false, s)
        | [] => (true, false, [])
        end in
      if is_empty (Security.lstrip_by number_space s)
         && negb (is_empty whole && is_empty fraction)
         && exponent_digits
      then
        if point || exponent then Some Fractional
        else Some (Whole (if negative then - digits_value whole
                          else digits_value whole))
      else None
  end.

(** The value of a REAL when it is an integer. *)
Definition integral (x : float) : option Z :=
  match x with
  | S754_zero _ => Some 0
  | S754_finite s m e =>
      let magnitude :=
        if 0 <=? e then Some (Z.pos m * 2 ^ e)
        else if Z.pos m mod 2 ^ (- e) =? 0
             then Some (Z.pos m / 2 ^ (- e))
             else None in
      option_map (fun n => if s then - n else n) magnitude
  | _ => None
  end.

(** A REAL becomes an INTEGER when it is one, and neither the least nor
    the greatest of 64 bits. *)
Definition to_integer (x : float) : option Z :=
  match integral x with
  | Some n =>
      if (- 9223372036854775808 <? n) && (n <? 9223372036854775807)
      then Some n else None
  | None => None
  end.

Definition as_number (x : float) : value :=
  match to_integer x with
  | Some n => VInt n
  | None => VReal x
  end.

(** [n] in decimal, as SQLite and Python print an integer. *)
Definition decimal (n : Z) : str :=
  lit (NilZero.string_of_int (Z.to_int n)).

(** What a value becomes in a column: the library's conversions are its
    two arguments. *)
Definition convert (print : float -> str) (read : str -> float)
  (a : affinity) (v : value) : value :=
  match a, v with
  | TEXT, VInt n => VText (decimal n)
  | TEXT, VReal x => VText (print x)
  | (INTEGER | NUMERIC), VReal x => as_number x
  | (INTEGER | NUMERIC), VText s =>
      match numeric_form s with
      | None => v
      | Some (Whole n) => if int64 n then VInt n else as_number (read s)
      | Some Fractional => as_number (read s)
      end
  | _, _ => v
  end.

(** ** The file system, as [add_resource] sees it *)

Inductive entry :=
| Missing
| File (content : bytes)
| Unreadable     (* exists, but cannot be opened and read *)
| Inaccessible.  (* [stat()] fails with an error that [Path.exists]
                    lets through: a name too long, a directory that
                    may not be searched *)

Definition filesystem := str -> entry.

(** ** The arguments of [add_resource]

    The method takes what it is given: the create route of [app.py]
    passes values of the JSON body as they are. *)

Record arguments := {
  title : pyval;
  description : pyval;
  file_path : pyval;
  file_data : pyval;
  file_type : pyval;
  file_size : pyval;
  category : pyval;
  tags : pyval;
  url : pyval;
  resource_type : pyval;
  thumbnail_path : pyval;
  classifier_used : pyval;
  classification_confidence : pyval
}.

(** The defaults of the signature, around a title. *)
Definition defaults (t : pyval) : arguments := {|
  title := t;
  description := PyStr [];
  file_path := PyNone;
  file_data := PyNone;
  file_type := PyNone;
  file_size := PyInt 0;
  category := PyStr [];
  tags := PyStr [];
  url := PyStr [];
  resource_type := PyStr (lit "file");
  thumbnail_path := PyNone;
  classifier_used := PyNone;
  classification_confidence := PyNone
|}.

(** [file_path and Path(file_path).exists()]: what is found at the
    path.  [Path] takes a [str]. *)
Definition path_exists (fs : filesystem) (file_path : pyval)
  : result (option entry) :=
  if truth file_path then
    match file_path with
    | PyStr p =>
        match fs p with
        | Missing => Returned None
        | Inaccessible => Raised OSError
        | found => Returned (Some found)
        end
    | _ => Raised TypeError
    end
  else Returned None.

(** The first statements of [add_resource]: the hash and the payload
    that will be stored. *)
Definition hash_and_data (fs : filesystem) (a : arguments)
  : result (option str * pyval) :=
  let otherwise :=
    if truth (file_data a) then                       (* elif file_data: *)
      match file_data a with
      | PyBytes b => Returned (Some (Hashlib.md5_hexdigest b), file_data a)
      | _ => Raised TypeError                         (* hashlib.md5 *)
      end
    else Returned (None, file_data a) in
  let* found := path_exists fs (file_path a) in
  match found, file_data a with
  | Some (File content), PyNone =>
      Returned (Some (Hashlib.md5_hexdigest content), PyBytes content)
  | Some _, PyNone => Raised OSError                  (* open(), read() *)
  | _, _ => otherwise
  end.

Fixpoint strings (items : list pyval) : option (list str) :=
  match items with
  | [] => Some []
  | PyStr s :: rest =>
      match strings rest with
      | Some l => Some (s :: l)
      | None => None
      end
  | _ :: _ => None
  end.

(** [', '.join(tags)] when [tags] is a list: its items must be [str]. *)
Definition joined (tags : pyval) : result pyval :=
  match tags with
  | PyList items =>
      match strings items with
      | Some l => Returned (PyStr (join (lit ", ") l))
      | None => Raised TypeError
      end
  | _ => Returned tags
  end.

Definition optional (s : option str) : pyval :=
  match s with
  | Some s => PyStr s
  | None => PyNone
  end.

(** The value passed for a column of the INSERT. *)
Definition passed (a : arguments) (file_hash : option str)
  (data tags : pyval) (c : Col.t) : pyval :=
  match c with
  | Col.id | Col.created_at | Col.updated_at => PyNone
  | Col.title => title a
  | Col.description => description a
  | Col.file_path => file_path a
  | Col.file_data => data
  | Col.file_type => file_type a
  | Col.file_size => file_size a
  | Col.file_hash => optional file_hash
  | Col.category => category a
  | Col.tags => tags
  | Col.url => url a
  | Col.resource_type => resource_type a
  | Col.thumbnail_path => thumbnail_path a
  | Col.classifier_used => classifier_used a
  | Col.classification_confidence => classification_confidence a
  end.

(** The tags are joined, then the fourteen values are bound in the
    order of the tuple. *)
Definition insert_bindings (a : arguments) (file_hash : option str)
  (data : pyval) : result row :=
  let* tags := joined (tags a) in
  let value_for := passed a file_hash data tags in
  let* v_title := bind_value (value_for Col.title) in
  let* v_description := bind_value (value_for Col.description) in
  let* v_file_path := bind_value (value_for Col.file_path) in
  let* v_file_data := bind_value (value_for Col.file_data) in
  let* v_file_type := bind_value (value_for Col.file_type) in
  let* v_file_size := bind_value (value_for Col.file_size) in
  let* v_file_hash := bind_value (value_for Col.file_hash) in
  let* v_category := bind_value (value_for Col.category) in
  let* v_tags := bind_value (value_for Col.tags) in
  let* v_url := bind_value (value_for Col.url) in
  let* v_resource_type := bind_value (value_for Col.resource_type) in
  let* v_thumbnail_path := bind_value (value_for Col.thumbnail_path) in
  let* v_classifier_used := bind_value (value_for Col.classifier_used) in
  let* v_confidence :=
    bind_value (value_for Col.classification_confidence) in
  Returned (fun c =>
    match c with
    | Col.id | Col.created_at | Col.updated_at => VNull
    | Col.title => v_title
    | Col.description => v_description
    | Col.file_path => v_file_path
    | Col.file_data => v_file_data
    | Col.file_type => v_file_type
    | Col.file_size => v_file_size
    | Col.file_hash => v_file_hash
    | Col.category => v_category
    | Col.tags => v_tags
    | Col.url => v_url
    | Col.resource_type => v_resource_type
    | Col.thumbnail_path => v_thumbnail_path
    | Col.classifier_used => v_classifier_used
    | Col.classification_confidence => v_confidence
    end).

Definition is_null (v : value) : bool :=
  match v with
  | VNull => true
  | _ => false
  end.

Definition violates_not_null (r : row) : bool :=
  existsb (fun c => Col.not_null c && is_null (r c)) Col.all.

(** [file_hash TEXT UNIQUE]: some row of [others] holds the hash of [r]. *)
Definition violates_unique (r : row) (others : list row) : bool :=
  existsb (fun r' => sql_eqb (r Col.file_hash) (r' Col.file_hash)) others.

Definition MAX_ROWID : Z := 9223372036854775807.

Definition rowid_of (r : row) : Z :=
  match r Col.id with
  | VInt n => n
  | _ => 0
  end.

(** ** The text of an UPDATE statement

    [update_resource] builds its statement as text, so what it does is
    what SQLite reads in that text.  The fragment described here has
    words, [?], [=], commas, quoted strings and integers, separated by
    SQL whitespace; any other character puts the statement outside the
    fragment. *)

Inductive token :=
| TWord (w : str)
| TParam
| TEq
| TComma
| TString (s : str)
| TNumber (n : Z).

Inductive lexing :=
| Between
| InWord (acc : str)       (* reversed *)
| InNumber (n : Z)
| InString (acc : str)     (* reversed *)
| QuoteSeen (acc : str).   (* a quote inside a string: its end, or half
                              of a doubled quote *)

Definition sql_space (c : char) : bool :=
  ((c =? 32) || (c =? 9) || (c =? 10) || (c =? 12) || (c =? 13))%N.

Definition word_start (c : char) : bool :=
  Security.is_ascii_lower c || Security.is_ascii_upper c ||
  N.eqb c (chr "_").

Definition word_char (c : char) : bool :=
  word_start c || Security.is_ascii_digit c.

(** What a character starts when no token is open. *)
Definition begin (c : char) : option (list token * lexing) :=
  if sql_space c then Some ([], Between)
  else if word_start c then Some ([], InWord [c])
  else if Security.is_ascii_digit c
       then Some ([], InNumber (Z.of_N c - 48))
  else if N.eqb c (chr "'") then Some ([], InString [])
  else if N.eqb c (chr "?") then Some ([TParam], Between)
  else if N.eqb c (chr "=") then Some ([TEq], Between)
  else if N.eqb c (chr ",") then Some ([TComma], Between)
  else None.

Definition closing (t : token) (next : option (list token * lexing))
  : option (list token * lexing) :=
  match next with
  | Some (ts, st) => Some (t :: ts, st)
  | None => None
  end.

Definition step (st : lexing) (c : char) : option (list token * lexing) :=
  match st with
  | Between => begin c
  | InWord w =>
      if word_char c then Some ([], InWord (c :: w))
      else if N.eqb c (chr "'") then None
      else closing (TWord (rev w)) (begin c)
  | InNumber n =>
      if Security.is_ascii_digit c
      then Some ([], InNumber (10 * n + (Z.of_N c - 48)))
      else if word_char c || N.eqb c (chr ".") || N.eqb c (chr "'")
      then None
      else closing (TNumber n) (begin c)
  | InString acc =>
      if N.eqb c (chr "'") then Some ([], QuoteSeen acc)
      else if N.eqb c 0 then None
      else Some ([], InString (c :: acc))
  | QuoteSeen acc =>
      if N.eqb c (chr "'") then Some ([], InString (c :: acc))
      else closing (TString (rev acc)) (begin c)
  end.

Definition finish (st : lexing) : option (list token) :=
  match st with
  | Between => Some []
  | InWord w => Some [TWord (rev w)]
  | InNumber n => Some [TNumber n]
  | InString _ => None
  | QuoteSeen acc => Some [TString (rev acc)]
  end.

Fixpoint lex (st : lexing) (s : str) : option (list token) :=
  match s with
  | [] => finish st
  | c :: s' =>
      match step st c with
      | None => None
      | Some (ts, st') =>
          match lex st' s' with
          | Some more => Some (ts ++ more)
          | None => None
          end
      end
  end.

Inductive expr :=
| EParam
| EText (s : str)
| EInteger (n : Z).

Record update_statement := {
  assignments : list (str * expr);
  where_column : str;
  where_value : expr
}.

Definition as_expr (t : token) : option expr :=
  match t with
  | TParam => Some EParam
  | TString s => Some (EText s)
  | TNumber n => Some (EInteger n)
  | _ => None
  end.

(** Keywords and names are compared without regard to ASCII case. *)
Definition same_word (w : str) (name : str) : bool :=
  str_eqb (Security.ascii_lower w) name.

(** [column = expr, column = expr, ...]: the assignments and the tokens
    left after them. *)
Fixpoint parse_assignments (ts : list token)
  : option (list (str * expr) * list token) :=
  match ts with
  | TWord column :: TEq :: t :: rest =>
      match as_expr t with
      | None => None
      | Some e =>
          match rest with
          | TComma :: rest' =>
              match parse_assignments rest' with
              | Some (more, tail) => Some ((column, e) :: more, tail)
              | None => None
              end
          | _ => Some ([(column, e)], rest)
          end
      end
  | _ => None
  end.

(** [UPDATE resources SET assignments WHERE column = expr] *)
Definition parse (ts : list token) : option update_statement :=
  match ts with
  | TWord u :: TWord table :: TWord s :: rest =>
      if same_word u (lit "update") && same_word table (lit "resources")
         && same_word s (lit "set")
      then
        match parse_assignments rest with
        | Some (sets, [TWord w; TWord column; TEq; t]) =>
            if same_word w (lit "where") then
              match as_expr t with
              | Some e => Some {| assignments := sets;
                                  where_column := column;
                                  where_value := e |}
              | None => None
              end
            else None
        | _ => None
        end
      else None
  | _ => None
  end.

Definition column_named (w : str) : option Col.t :=
  find (fun c => same_word w (Col.name c)) Col.all.

(** The names every rowid table has for its key. *)
Definition rowid_alias (w : str) : bool :=
  mem (Security.ascii_lower w) (map lit ["rowid"; "oid"; "_rowid_"]%string).

Definition resolves (w : str) : bool :=
  match column_named w with
  | Some _ => true
  | None => rowid_alias w
  end.

(** The column a word stands for: a column by its name, in any letter
    case, or the key by one of its other names. *)
Definition target (w : str) : option Col.t :=
  match column_named w with
  | Some c => Some c
  | None => if rowid_alias w then Some Col.id else None
  end.

(** Preparing the statement: a word in the place of a column that names
    none is an error of SQLite, whichever word it is. *)
Definition prepare (query : str) : result update_statement :=
  if negb (encodable query) then Raised UnicodeEncodeError
  else
    match lex Between query with
    | None => Unmodelled
    | Some tokens =>
        match parse tokens with
        | None => Unmodelled
        | Some st =>
            if forallb (fun a : str * expr => resolves (fst a))
                 (assignments st) && resolves (where_column st)
            then Returned st
            else Raised OperationalError
        end
    end.

Definition is_param (e : expr) : bool :=
  match e with
  | EParam => true
  | _ => false
  end.

Definition parameter_count (st : update_statement) : nat :=
  List.length (filter (fun a : str * expr => is_param (snd a))
                 (assignments st))
  + (if is_param (where_value st) then 1 else 0).

(** The value of an expression, and the bound values not yet used. *)
Definition evaluate (e : expr) (bound : list value)
  : result (value * list value) :=
  match e with
  | EText s => Returned (VText s, bound)
  | EInteger n => if int64 n then Returned (VInt n, bound) else Unmodelled
  | EParam =>
      match bound with
      | v :: bound' => Returned (v, bound')
      | [] => Raised ProgrammingError
      end
  end.

Fixpoint evaluate_assignments (sets : list (str * expr))
  (bound : list value) : result (list (str * value) * list value) :=
  match sets with
  | [] => Returned ([], bound)
  | (column, e) :: sets' =>
      let* (v, bound') := evaluate e bound in
      let* (more, rest) := evaluate_assignments sets' bound' in
      Returned ((column, v) :: more, rest)
  end.

Section Store.

Variable E : sqlite.

(** Storing a value in a column applies the affinity of the column. *)
Definition store (c : Col.t) (v : value) : value :=
  convert (text_of_real E) (real_of_text E) (Col.affinity_of c) v.

(** The assignments of an UPDATE, left to right, on one row: a later
    assignment to a column overrides an earlier one, and the key is
    assigned like any column, under each of its names. *)
Fixpoint assign (r : row) (sets : list (str * value)) : result row :=
  match sets with
  | [] => Returned r
  | (w, v) :: sets' =>
      match target w with
      | Some c => assign (set r c (store c v)) sets'
      | None => Raised OperationalError
      end
  end.

(** The database file: the table, the AUTOINCREMENT counter kept in
    [sqlite_sequence], and the index.  The statements of the store
    address rows by their key, so the order of the list is of no
    consequence. *)
Record database := {
  resources : list row;
  sqlite_sequence : Z;
  resources_fts : index E
}.

(** The largest rowid the table has ever held. *)
Definition largest_rowid (self : database) : Z :=
  fold_right Z.max (sqlite_sequence self) (map rowid_of (resources self)).

(** The values of an INSERT as the columns hold them, computed once
    for each column. *)
Definition as_stored (r : row) : row :=
  let v_id := store Col.id (r Col.id) in
  let v_title := store Col.title (r Col.title) in
  let v_description := store Col.description (r Col.description) in
  let v_file_path := store Col.file_path (r Col.file_path) in
  let v_file_data := store Col.file_data (r Col.file_data) in
  let v_file_type := store Col.file_type (r Col.file_type) in
  let v_file_size := store Col.file_size (r Col.file_size) in
  let v_file_hash := store Col.file_hash (r Col.file_hash) in
  let v_category := store Col.category (r Col.category) in
  let v_tags := store Col.tags (r Col.tags) in
  let v_url := store Col.url (r Col.url) in
  let v_resource_type := store Col.resource_type (r Col.resource_type) in
  let v_thumbnail_path :=
    store Col.thumbnail_path (r Col.thumbnail_path) in
  let v_classifier_used :=
    store Col.classifier_used (r Col.classifier_used) in
  let v_confidence :=
    store Col.classification_confidence
      (r Col.classification_confidence) in
  let v_created_at := store Col.created_at (r Col.created_at) in
  let v_updated_at := store Col.updated_at (r Col.updated_at) in
  fun c =>
    match c with
    | Col.id => v_id
    | Col.title => v_title
    | Col.description => v_description
    | Col.file_path => v_file_path
    | Col.file_data => v_file_data
    | Col.file_type => v_file_type
    | Col.file_size => v_file_size
    | Col.file_hash => v_file_hash
    | Col.category => v_category
    | Col.tags => v_tags
    | Col.url => v_url
    | Col.resource_type => v_resource_type
    | Col.thumbnail_path => v_thumbnail_path
    | Col.classifier_used => v_classifier_used
    | Col.classification_confidence => v_confidence
    | Col.created_at => v_created_at
    | Col.updated_at => v_updated_at
    end.

(** [INSERT INTO resources (...) VALUES (...)] with its trigger
    [resources_ai]; yields [cursor.lastrowid]. *)
Definition execute_insert (utc_now : datetime) (self : database)
  (r : row) : result (Z * database) :=
  let top := largest_rowid self in
  let r := as_stored r in
  if MAX_ROWID <=? top then Raised OperationalError
  else if violates_not_null r then Raised IntegrityError
  else if violates_unique r (resources self) then Raised IntegrityError
  else
    let now := VText (CURRENT_TIMESTAMP utc_now) in
    let new :=
      set (set (set r Col.id (VInt (top + 1))) Col.created_at now)
        Col.updated_at now in
    let rows := resources self ++ [new] in
    match fts_insert E rows (resources_fts self) (top + 1) (projection new)
    with
    | inl idx =>
        Returned (top + 1,
                  {| resources := rows;
                     sqlite_sequence := top + 1;
                     resources_fts := idx |})
    | inr e => Raised e
    end.

(** [Database.add_resource].  A statement that raises leaves the file
    as it was: nothing is committed. *)
Definition add_resource (fs : filesystem) (utc_now : datetime)
  (self : database) (a : arguments) : result (option Z) * database :=
  match hash_and_data fs a with
  | Returned (file_hash, data) =>
      match
        (let* r := insert_bindings a file_hash data in
         execute_insert utc_now self r)
      with
      | Returned (resource_id, self') => (Returned (Some resource_id), self')
      | Raised IntegrityError => (Returned None, self)
      | Raised e => (Raised e, self)
      | Unmodelled => (Unmodelled, self)
      end
  | Raised e => (Raised e, self)
  | Unmodelled => (Unmodelled, self)
  end.

(** [dict(row)] for a row of the given columns. *)
Definition dict_of (cols : list Col.t) (r : row) : dict value :=
  map (fun c => (Col.name c, r c)) cols.

(** The column list of the metadata queries: all but [file_data]. *)
Definition metadata_columns : list Col.t :=
  [ Col.id; Col.title; Col.description; Col.file_path; Col.file_type;
    Col.file_size; Col.file_hash; Col.category; Col.tags; Col.url;
    Col.resource_type; Col.thumbnail_path; Col.classifier_used;
    Col.classification_confidence; Col.created_at; Col.updated_at ].

(** [Database.get_resource] *)
Definition get_resource (self : database) (resource_id : Z)
  (include_file_data : bool) : result (option (dict value)) :=
  let* _ := bind_int resource_id in
  let cols := if include_file_data then Col.all else metadata_columns in
  Returned (option_map (dict_of cols)
              (find (has_id resource_id) (resources self))).

(** The trigger [resources_ad], once for each deleted row. *)
Fixpoint run_resources_ad (content : list row) (idx : index E)
  (deleted : list row) : index E + exn :=
  match deleted with
  | [] => inl idx
  | old :: rest =>
      match fts_delete E content idx (rowid_of old) with
      | inl idx' => run_resources_ad content idx' rest
      | inr e => inr e
      end
  end.

(** [Database.delete_resource] *)
Definition delete_resource (self : database) (resource_id : Z)
  : result bool * database :=
  match bind_int resource_id with
  | Returned _ =>
      let deleted := filter (has_id resource_id) (resources self) in
      let kept :=
        filter (fun r => negb (has_id resource_id r)) (resources self) in
      match run_resources_ad kept (resources_fts self) deleted with
      | inl idx =>
          (Returned (0 <? Z.of_nat (List.length deleted)),
           {| resources := kept;
              sqlite_sequence := sqlite_sequence self;
              resources_fts := idx |})
      | inr e => (Raised e, self)
      end
  | Raised e => (Raised e, self)
  | Unmodelled => (Unmodelled, self)
  end.

(** A row of [SELECT r.*, rank]. *)
Definition hit := (dict value * rank E)%type.

Definition truthy (s : option str) : bool :=
  match s with
  | Some (_ :: _) => true
  | _ => false
  end.

(** [LIMIT ?]: a negative limit is no limit. *)
Definition limit_to {A} (n : Z) (l : list A) : list A :=
  if n <? 0 then l else firstn (Z.to_nat n) l.

(** [Database.search_resources] *)
Definition search_resources (self : database) (query : str)
  (category : option str) (limit : Z) : result (list hit) :=
  let* _ := bind_str query in
  let* v_category :=
    (if truthy category then bind_opt bind_str category
     else Returned VNull) in
  let* _ := bind_int limit in
  match fts_match E (resources self) (resources_fts self) query with
  | inr e => Raised e
  | inl matches =>
      let joined :=
        flat_map (fun m : Z * rank E =>
          map (fun r => (dict_of Col.all r, snd m))
            (filter (fun r =>
               has_id (fst m) r &&
               (negb (truthy category)
                || sql_eqb (r Col.category) v_category))
               (resources self)))
          matches in
      Returned (limit_to limit joined)
  end.

(** The column of the WHERE clause is the key, under one of its names. *)
Definition names_key (w : str) : bool :=
  match column_named w with
  | Some Col.id => true
  | Some _ => false
  | None => rowid_alias w
  end.

(** [cursor.execute(query, values)] for an UPDATE of [resources], with
    its trigger [resources_au]; yields [cursor.rowcount].  The new key
    must be an integer (a datatype mismatch is an [IntegrityError]) that
    no other row has; the AUTOINCREMENT counter is not touched.  A
    table with two rows of one id is no table of SQLite. *)
Definition execute_update (self : database) (query : str)
  (values : list pyval) : result (Z * database) :=
  let* st := prepare query in
  if negb (parameter_count st =? List.length values)%nat
  then Raised ProgrammingError
  else
    let* bound := bind_all values in
    let* (sets, bound') := evaluate_assignments (assignments st) bound in
    let* (key, _) := evaluate (where_value st) bound' in
    if negb (names_key (where_column st)) then Unmodelled
    else
      match key with
      | VNull => Returned (0, self)
      | VInt n =>
          match filter (has_id n) (resources self) with
          | [] => Returned (0, self)
          | [r] =>
              let* r' := assign r sets in
              let others :=
                filter (fun x => negb (has_id n x)) (resources self) in
              match r' Col.id with
              | VInt n' =>
                  if violates_not_null r' then Raised IntegrityError
                  else if existsb (has_id n') others
                  then Raised IntegrityError
                  else if violates_unique r' others
                  then Raised IntegrityError
                  else
                    let rows :=
                      map (fun x => if has_id n x then r' else x)
                        (resources self) in
                    match fts_update E rows (resources_fts self) n'
                            (projection r')
                    with
                    | inl idx =>
                        Returned
                          (1, {| resources := rows;
                                 sqlite_sequence := sqlite_sequence self;
                                 resources_fts := idx |})
                    | inr e => Raised e
                    end
              | _ => Raised IntegrityError
              end
          | _ => Unmodelled
          end
      | _ => Unmodelled
      end.

(** [Database.update_resource].  [kwargs] is the dict of keyword
    arguments, in its order; [local_now] is what [datetime.now()]
    reads. *)
Definition update_resource (local_now : datetime) (self : database)
  (resource_id : Z) (kwargs : list (str * pyval))
  : result bool * database :=
  (* Build dynamic update query *)
  let kept :=
    filter (fun kv : str * pyval => negb (str_eqb (fst kv) (lit "id")))
      kwargs in
  let fields := map (fun kv : str * pyval => fst kv ++ lit " = ?") kept in
  let values := map snd kept in
  match fields with
  | [] => (Returned false, self)
  | _ =>
      let values :=
        values ++ [PyStr (isoformat local_now); PyInt resource_id] in
      let query :=
        lit "UPDATE resources SET " ++ join (lit ", ") fields
        ++ lit ", updated_at = ? WHERE id = ?" in
      match execute_update self query values with
      | Returned (rowcount, self') => (Returned (0 <? rowcount), self')
      | Raised e => (Raised e, self)
      | Unmodelled => (Unmodelled, self)
      end
  end.

(** The PUT route of [app.py], on a JSON object: the status of the
    response, or the exception that leaves the view.  A key that is the
    name of a positional parameter makes the call itself fail. *)
Definition update_resource_route (local_now : datetime) (self : database)
  (resource_id : Z) (data : list (str * pyval)) : result nat * database :=
  if existsb (fun kv : str * pyval =>
                mem (fst kv) (map lit ["self"; "resource_id"]%string))
       data
  then (Raised TypeError, self)
  else
    match update_resource local_now self resource_id data with
    | (Returned success, self') =>
        (Returned (if success then 200 else 404)%nat, self')
    | (Raised e, self') => (Raised e, self')
    | (Unmodelled, self') => (Unmodelled, self')
    end.

End Store.

Arguments resources {E} d.
Arguments sqlite_sequence {E} d.
Arguments resources_fts {E} d.
Arguments largest_rowid {E} self.
Arguments execute_insert {E} utc_now self r.
Arguments add_resource {E} fs utc_now self a.
Arguments get_resource {E} self resource_id include_file_data.
Arguments delete_resource {E} self resource_id.
Arguments search_resources {E} self query category limit.
Arguments execute_update {E} self query values.
Arguments update_resource {E} local_now self resource_id kwargs.
Arguments update_resource_route {E} local_now self resource_id data.

(** ** A library to run examples with

    Its index keeps every projection it is handed, in order, and never
    forgets one: the triggers [resources_ad] and [resources_au] address
    the index by a rowid whose content has already changed, and leave
    it as it is.  A query matches the rows one of whose indexed columns
    contains it; the rank is the position in the index.  None of the
    examples stores a REAL where a text is due, or the reverse: the two
    conversions are stand-ins. *)

Definition text_of (v : value) : str :=
  match v with
  | VText s => s
  | _ => []
  end.

Fixpoint number {A} (from : Z) (l : list A) : list (A * Z) :=
  match l with
  | [] => []
  | x :: l' => (x, from) :: number (from + 1) l'
  end.

Definition append_only_index : fts5 := {|
  index := list (Z * list value);
  rank := Z;
  fts_insert := fun _ idx rowid p => inl (idx ++ [(rowid, p)]);
  fts_delete := fun _ idx _ => inl idx;
  fts_update := fun _ idx _ _ => inl idx;
  fts_match := fun _ idx q =>
    inl (map (fun e : Z * list value * Z => (fst (fst e), snd e))
           (filter (fun e : Z * list value * Z =>
                      existsb (fun v => str_in q (text_of v)) (snd (fst e)))
              (number 0 idx)))
|}.

Definition append_only : sqlite := {|
  full_text := append_only_index;
  text_of_real := fun _ => lit "0.0";
  real_of_text := fun _ => S754_zero false
|}.

(** A fresh database file, a directory without files, two readings of
    the clock. *)
Definition fresh : @database append_only :=
  {| resources := []; sqlite_sequence := 0; resources_fts := [] : index append_only |}.

Definition no_files : filesystem := fun _ => Missing.

Definition noon : datetime :=
  {| year := 2024; month := 5; day := 1;
     hour := 12; minute := 0; second := 0; microsecond := 0 |}.

(** ** Properties of [add_resource] *)

Lemma float_eqb_refl : forall x, float_eqb x x = true.
Proof.
  destruct x as [s|s| |s m e]; simpl; try reflexivity;
    try (now destruct s).
  rewrite Pos.eqb_refl, Z.eqb_refl. now destruct s.
Qed.

Lemma value_eqb_refl : forall v, value_eqb v v = true.
Proof.
  destruct v as [|n|s|b|x]; simpl;
    auto using Z.eqb_refl, str_eqb_refl, float_eqb_refl.
  induction b as [|x b IH]; simpl; [reflexivity|].
  now rewrite Z.eqb_refl.
Qed.

Lemma In_limit_to : forall A n (l : list A) x, In x (limit_to n l) -> In x l.
Proof.
  intros A n l x. unfold limit_to. destruct (n <? 0); [auto|].
  generalize (Z.to_nat n). intros k. revert l.
  induction k as [|k IH]; intros [|y l]; simpl; try tauto.
  intros [H|H]; auto.
Qed.

(** The call of the upload route: the payload is passed in
    [file_data], next to the sanitized file name. *)
Definition upload (t filename : str) (data : bytes) : arguments := {|
  title := PyStr t;
  description := PyStr [];
  file_path := PyStr filename;
  file_data := PyBytes data;
  file_type := PyStr (lit "application/octet-stream");
  file_size := PyInt (Z.of_nat (List.length data));
  category := PyStr [];
  tags := PyStr [];
  url := PyStr [];
  resource_type := PyStr (lit "file");
  thumbnail_path := PyNone;
  classifier_used := PyStr (lit "keywords");
  classification_confidence := PyStr (lit "low")
|}.

(** A call that leaves the payload to be read from [path]. *)
Definition from_path (t path : str) : arguments := {|
  title := PyStr t;
  description := PyStr [];
  file_path := PyStr path;
  file_data := PyNone;
  file_type := PyNone;
  file_size := PyInt 0;
  category := PyStr [];
  tags := PyStr [];
  url := PyStr [];
  resource_type := PyStr (lit "file");
  thumbnail_path := PyNone;
  classifier_used := PyNone;
  classification_confidence := PyNone
|}.

(** A directory whose only file, [empty.bin], has no content. *)
Definition one_empty_file : filesystem :=
  fun path => if str_eqb path (lit "empty.bin") then File [] else Missing.

Definition hashes {E} (self : @database E) : list value :=
  map (fun r : row => r Col.file_hash) (resources self).

(** The two branches of the hash computation, at the empty payload:
    [elif file_data:] takes [b''] for no payload and computes no hash,
    so creating it twice succeeds twice and stores NULL for both hashes.
    The branch that reads the payload from [file_path] does hash an
    empty file: there the second create is the duplicate. *)
Theorem add_resource_accepts_empty_payload_twice :
  let a := upload (lit "Empty") (lit "empty.bin") [] in
  let first := add_resource no_files noon fresh a in
  let second := add_resource no_files noon (snd first) a in
  let b := from_path (lit "Empty") (lit "empty.bin") in
  let first' := add_resource one_empty_file noon fresh b in
  let second' := add_resource one_empty_file noon (snd first') b in
  fst first = Returned (Some 1) /\
  fst second = Returned (Some 2) /\
  hashes (snd second) = [VNull; VNull] /\
  fst first' = Returned (Some 1) /\
  fst second' = Returned None /\
  hashes (snd second')
  = [VText (lit "d41d8cd98f00b204e9800998ecf8427e")].
Proof. vm_compute. repeat split. Qed.

(** A call with the defaults and no title: the NOT NULL violation on
    [title] is an [IntegrityError] like the duplicate hash, and
    [add_resource] turns it into [None], on any engine and in any state
    of the database whose rowids are not used up. *)
Theorem add_resource_swallows_not_null_violation :
  forall (E : sqlite) (fs : filesystem) (utc_now : datetime)
         (self : @database E),
    add_resource fs utc_now self (defaults PyNone)
    = (if MAX_ROWID <=? largest_rowid self
       then Raised OperationalError
       else Returned None,
       self).
Proof.
  intros E fs utc_now self.
  unfold add_resource, defaults, hash_and_data; simpl.
  unfold execute_insert.
  destruct (MAX_ROWID <=? largest_rowid self); reflexivity.
Qed.

(** ** [delete_resource] and [search_resources] *)

Lemma dict_of_all_id : forall r,
  dict_get (dict_of Col.all r) (lit "id") = Some (r Col.id).
Proof. intros r. reflexivity. Qed.

(** X11: once [delete_resource] has returned, no search returns the
    resource, whatever the query, the filter and the limit, and whatever
    the full-text engine has kept in its index: the rows of a search
    are rows of [resources]. *)
Theorem deleted_resource_is_not_found :
  forall (E : sqlite) (self self' : @database E) (resource_id : Z)
         (success : bool) (query : str) (category : option str)
         (limit : Z) (hits : list (hit E)),
    delete_resource self resource_id = (Returned success, self') ->
    search_resources self' query category limit = Returned hits ->
    forall h, In h hits ->
      dict_get (fst h) (lit "id") <> Some (VInt resource_id).
Proof.
  intros E self self' resource_id success query cat limit hits Hdel Hsearch.
  assert (Hrows : resources self'
                  = filter (fun r => negb (has_id resource_id r))
                      (resources self)).
  { unfold delete_resource in Hdel.
    destruct (bind_int resource_id); try discriminate.
    destruct (run_resources_ad _ _ _ _); try discriminate.
    injection Hdel as _ <-. reflexivity. }
  unfold search_resources in Hsearch.
  destruct (bind_str query); try discriminate. cbn [and_then] in Hsearch.
  destruct (if truthy cat then _ else _) as [vc| |]; try discriminate.
  cbn [and_then] in Hsearch.
  destruct (bind_int limit); try discriminate. cbn [and_then] in Hsearch.
  destruct (fts_match E _ _ _) as [matches|]; try discriminate.
  injection Hsearch as <-.
  intros h Hin. apply In_limit_to in Hin.
  apply in_flat_map in Hin. destruct Hin as [m [_ Hin]].
  apply in_map_iff in Hin. destruct Hin as [r [<- Hr]].
  apply filter_In in Hr. destruct Hr as [Hr _].
  rewrite Hrows in Hr. apply filter_In in Hr. destruct Hr as [_ Hid].
  intros Heq.
  change (dict_get (dict_of Col.all r) (lit "id") = Some (VInt resource_id))
    in Heq.
  rewrite dict_of_all_id in Heq.
  injection Heq as Heq. unfold has_id in Hid.
  rewrite Heq, value_eqb_refl in Hid. discriminate.
Qed.

(** Two resources about nmap: a search finds both; after the first is
    deleted the index still holds it, and the search returns only the
    second. *)
Definition two_guides : @database append_only :=
  let a := defaults (PyStr (lit "nmap guide")) in
  let b := defaults (PyStr (lit "nmap cheat sheet")) in
  snd (add_resource no_files noon
         (snd (add_resource no_files noon fresh a)) b).

Definition hit_ids {E} (hits : result (list (hit E)))
  : list (option value) :=
  match hits with
  | Returned l => map (fun h : hit E => dict_get (fst h) (lit "id")) l
  | _ => []
  end.

Lemma deleted_resource_is_not_found_witness :
  let after := snd (delete_resource two_guides 1) in
  hit_ids (search_resources two_guides (lit "nmap") None 50)
  = [Some (VInt 1); Some (VInt 2)] /\
  fst (delete_resource two_guides 1) = Returned true /\
  map fst (resources_fts after) = [1; 2] /\
  hit_ids (search_resources after (lit "nmap") None 50) = [Some (VInt 2)] /\
  forall h,
    In h (match search_resources after (lit "nmap") None 50 with
          | Returned l => l
          | _ => []
          end) ->
    dict_get (fst h) (lit "id") <> Some (VInt 1).
Proof.
  cbv zeta. repeat split.
  apply (deleted_resource_is_not_found append_only two_guides
           (snd (delete_resource two_guides 1)) 1 true (lit "nmap") None 50);
    vm_compute; reflexivity.
Defined.

(** ** Deleting, then looking up *)

Lemma bytes_eqb_eq : forall a b, bytes_eqb a b = true -> a = b.
Proof.
  induction a as [|x a IH]; destruct b as [|y b]; simpl; try discriminate;
    [reflexivity|].
  intros H. apply andb_true_iff in H. destruct H as [H1 H2].
  apply Z.eqb_eq in H1. apply IH in H2. now subst.
Qed.

Lemma float_eqb_eq : forall x y, float_eqb x y = true -> x = y.
Proof.
  intros x y.
  destruct x as [s|s| |s m e], y as [s'|s'| |s' m' e']; simpl;
    try discriminate; try reflexivity.
  - intros H. apply Bool.eqb_prop in H. now subst.
  - intros H. apply Bool.eqb_prop in H. now subst.
  - intros H. apply andb_true_iff in H. destruct H as [H He].
    apply andb_true_iff in H. destruct H as [Hs Hm].
    apply Bool.eqb_prop in Hs. apply Pos.eqb_eq in Hm.
    apply Z.eqb_eq in He. now subst.
Qed.

Lemma value_eqb_eq : forall a b, value_eqb a b = true -> a = b.
Proof.
  intros a b.
  destruct a as [|n|s|x|f], b as [|m|t|y|g]; simpl; try discriminate;
    intros H; try reflexivity; f_equal.
  - now apply Z.eqb_eq.
  - now apply str_eqb_eq.
  - now apply bytes_eqb_eq.
  - now apply float_eqb_eq.
Qed.

Lemma has_id_inv : forall n r, has_id n r = true -> r Col.id = VInt n.
Proof. intros n r H. now apply value_eqb_eq. Qed.

Lemma has_id_other : forall n m r,
  has_id n r = true -> n <> m -> has_id m r = false.
Proof.
  intros n m r H Hne. destruct (has_id m r) eqn:Hm; [|reflexivity].
  apply has_id_inv in H. apply has_id_inv in Hm. congruence.
Qed.

Lemma find_filter_same : forall n rows,
  find (has_id n) (filter (fun r => negb (has_id n r)) rows) = None.
Proof.
  induction rows as [|r rows IH]; simpl; [reflexivity|].
  destruct (has_id n r) eqn:H; simpl; [exact IH|].
  now rewrite H.
Qed.

Lemma find_filter_other : forall n m rows,
  m <> n ->
  find (has_id m) (filter (fun r => negb (has_id n r)) rows)
  = find (has_id m) rows.
Proof.
  intros n m rows Hne.
  induction rows as [|r rows IH]; simpl; [reflexivity|].
  destruct (has_id n r) eqn:H; simpl.
  - rewrite (has_id_other n m r H) by congruence. exact IH.
  - destruct (has_id m r); [reflexivity | exact IH].
Qed.

Lemma filter_none : forall A (f : A -> bool) l,
  existsb f l = false -> filter (fun x => negb (f x)) l = l.
Proof.
  induction l as [|x l IH]; simpl; [reflexivity|].
  intros H. apply orb_false_iff in H. destruct H as [H1 H2].
  rewrite H1. simpl. now rewrite IH.
Qed.

Lemma filter_nil_existsb : forall A (f : A -> bool) l,
  (0 <? Z.of_nat (List.length (filter f l))) = existsb f l.
Proof.
  induction l as [|x l IH]; simpl; [reflexivity|].
  destruct (f x); simpl; [|exact IH].
  apply Z.ltb_lt. lia.
Qed.

(** What a call of [delete_resource] that returns has done. *)
Lemma delete_resource_returned :
  forall (E : sqlite) (self self' : @database E) resource_id success,
    delete_resource self resource_id = (Returned success, self') ->
    int64 resource_id = true /\
    success = existsb (has_id resource_id) (resources self) /\
    resources self'
    = filter (fun r => negb (has_id resource_id r)) (resources self) /\
    sqlite_sequence self' = sqlite_sequence self.
Proof.
  intros E self self' n b H. unfold delete_resource, bind_int in H.
  destruct (int64 n); [|discriminate].
  destruct (run_resources_ad _ _ _ _); [|discriminate].
  injection H as <- <-. rewrite filter_nil_existsb. auto.
Qed.

(** X6: a resource that has been deleted cannot be fetched any more:
    [get_resource] returns [None] for its id, with or without the
    payload column. *)
Theorem deleted_resource_cannot_be_fetched :
  forall (E : sqlite) (self self' : @database E) resource_id success
         include_file_data,
    delete_resource self resource_id = (Returned success, self') ->
    get_resource self' resource_id include_file_data = Returned None.
Proof.
  intros E self self' n b flag H.
  apply delete_resource_returned in H. destruct H as [Hn [_ [Hrows _]]].
  unfold get_resource, bind_int. rewrite Hn. cbn [and_then].
  now rewrite Hrows, find_filter_same.
Qed.

(** X7: deleting a resource leaves every other resource as it was:
    [get_resource] returns for any other id what it returned before. *)
Theorem delete_resource_keeps_the_others :
  forall (E : sqlite) (self self' : @database E) resource_id success
         other include_file_data,
    other <> resource_id ->
    delete_resource self resource_id = (Returned success, self') ->
    get_resource self' other include_file_data
    = get_resource self other include_file_data.
Proof.
  intros E self self' n b m flag Hne H.
  apply delete_resource_returned in H. destruct H as [_ [_ [Hrows _]]].
  unfold get_resource. now rewrite Hrows, find_filter_other.
Qed.

(** X8: [delete_resource] returns [True] exactly when a row had the id;
    when it returns [False] the database file is unchanged. *)
Theorem delete_resource_reports_existence :
  forall (E : sqlite) (self self' : @database E) resource_id success,
    delete_resource self resource_id = (Returned success, self') ->
    (success = true <->
     get_resource self resource_id false <> Returned None) /\
    (success = false -> self' = self).
Proof.
  intros E self self' n b H. split.
  - apply delete_resource_returned in H. destruct H as [Hn [Hb _]].
    unfold get_resource, bind_int. rewrite Hn. cbn [and_then]. subst b.
    induction (resources self) as [|r rows IH]; simpl.
    + split; [discriminate | congruence].
    + destruct (has_id n r); simpl; [|exact IH].
      split; [discriminate | reflexivity].
  - intros ->. pose proof (delete_resource_returned _ _ _ _ _ H) as Hinv.
    destruct Hinv as [Hn [Hb _]]. symmetry in Hb.
    unfold delete_resource, bind_int in H. rewrite Hn in H.
    assert (Hdel : filter (has_id n) (resources self) = []).
    { clear H. induction (resources self) as [|r rows IH]; simpl in *;
        [reflexivity|].
      apply orb_false_iff in Hb. destruct Hb as [H1 H2].
      rewrite H1. now apply IH. }
    rewrite Hdel, (filter_none _ _ _ Hb) in H. simpl in H.
    injection H as <-. now destruct self.
Qed.

Lemma deleted_resource_cannot_be_fetched_witness :
  get_resource two_guides 1 false <> Returned None /\
  get_resource (snd (delete_resource two_guides 1)) 1 false = Returned None.
Proof.
  split; [vm_compute; discriminate|].
  apply (deleted_resource_cannot_be_fetched append_only two_guides
           (snd (delete_resource two_guides 1)) 1 true false).
  vm_compute; reflexivity.
Defined.

Lemma delete_resource_keeps_the_others_witness :
  get_resource two_guides 2 false <> Returned None /\
  get_resource (snd (delete_resource two_guides 1)) 2 false
  = get_resource two_guides 2 false.
Proof.
  split; [vm_compute; discriminate|].
  apply (delete_resource_keeps_the_others append_only two_guides
           (snd (delete_resource two_guides 1)) 1 true 2 false).
  - discriminate.
  - vm_compute; reflexivity.
Defined.

Lemma delete_resource_reports_existence_witness :
  (true = true <-> get_resource two_guides 1 false <> Returned None) /\
  (true = false -> snd (delete_resource two_guides 1) = two_guides).
Proof.
  apply (delete_resource_reports_existence append_only two_guides
           (snd (delete_resource two_guides 1)) 1 true).
  vm_compute; reflexivity.
Defined.

(** ** Searching *)

Lemma sql_eqb_eq : forall a b, sql_eqb a b = true -> a = b.
Proof.
  intros a b H. apply value_eqb_eq.
  destruct a; [discriminate| | | |]; exact H.
Qed.

Lemma dict_of_all_category : forall r,
  dict_get (dict_of Col.all r) (lit "category") = Some (r Col.category).
Proof. intros r. reflexivity. Qed.

(** X9: what [search_resources] returns is cut to the limit, is made of
    rows of [resources], and, when a category is given, holds only rows
    of exactly that category. *)
Theorem search_resources_filters_and_limits :
  forall (E : sqlite) (self : @database E) (query : str)
         (category : option str) (limit : Z) (hits : list (hit E)),
    search_resources self query category limit = Returned hits ->
    (0 <= limit -> Z.of_nat (List.length hits) <= limit) /\
    (forall h, In h hits ->
       exists r, In r (resources self) /\ fst h = dict_of Col.all r) /\
    (forall c cs h, category = Some (c :: cs) -> In h hits ->
       dict_get (fst h) (lit "category") = Some (VText (c :: cs))).
Proof.
  intros E self query cat limit hits H.
  unfold search_resources in H.
  destruct (bind_str query); try discriminate. cbn [and_then] in H.
  destruct (if truthy cat then _ else _) as [vc| |] eqn:Hvc;
    try discriminate.
  cbn [and_then] in H.
  destruct (bind_int limit); try discriminate. cbn [and_then] in H.
  destruct (fts_match E _ _ _) as [matches|]; try discriminate.
  injection H as <-.
  split; [|split].
  - intros Hl. unfold limit_to.
    destruct (limit <? 0) eqn:Hneg; [apply Z.ltb_lt in Hneg; lia|].
    rewrite length_firstn. lia.
  - intros h Hin. apply In_limit_to in Hin.
    apply in_flat_map in Hin. destruct Hin as [m [_ Hin]].
    apply in_map_iff in Hin. destruct Hin as [r [<- Hr]].
    apply filter_In in Hr. destruct Hr as [Hr _].
    exists r. split; [exact Hr | reflexivity].
  - intros c cs h -> Hin. apply In_limit_to in Hin.
    apply in_flat_map in Hin. destruct Hin as [m [_ Hin]].
    apply in_map_iff in Hin. destruct Hin as [r [<- Hr]].
    apply filter_In in Hr. destruct Hr as [_ Hr].
    apply andb_true_iff in Hr. destruct Hr as [_ Hr].
    cbn [truthy negb orb] in Hr, Hvc.
    unfold bind_opt, bind_str in Hvc.
    destruct (encodable (c :: cs)); [|discriminate].
    injection Hvc as <-.
    apply sql_eqb_eq in Hr.
    change (dict_get (dict_of Col.all r) (lit "category")
            = Some (VText (c :: cs))).
    now rewrite dict_of_all_category, Hr.
Qed.

(** Three resources in two categories. *)
Definition in_category (t c : str) : arguments := {|
  title := PyStr t;
  description := PyStr [];
  file_path := PyNone;
  file_data := PyNone;
  file_type := PyNone;
  file_size := PyInt 0;
  category := PyStr c;
  tags := PyList [PyStr (lit "tool"); PyStr (lit "guide")];
  url := PyStr (lit "https://example.org/");
  resource_type := PyStr (lit "link");
  thumbnail_path := PyNone;
  classifier_used := PyNone;
  classification_confidence := PyNone
|}.

Definition library : @database append_only :=
  let add self a := snd (add_resource no_files noon self a) in
  add (add (add fresh
    (in_category (lit "nmap guide") (lit "Red Team")))
    (in_category (lit "splunk guide") (lit "Blue Team")))
    (in_category (lit "sigma rules guide") (lit "Blue Team")).

Definition returned {A} (r : result (list A)) : list A :=
  match r with
  | Returned l => l
  | _ => []
  end.

Lemma search_resources_filters_and_limits_witness :
  let blue := Some (lit "Blue Team") in
  let hits := returned (search_resources library (lit "guide") blue 1) in
  hit_ids (search_resources library (lit "guide") None 50)
  = [Some (VInt 1); Some (VInt 2); Some (VInt 3)] /\
  hit_ids (search_resources library (lit "guide") blue 50)
  = [Some (VInt 2); Some (VInt 3)] /\
  hit_ids (search_resources library (lit "guide") blue 1)
  = [Some (VInt 2)] /\
  (0 <= 1 -> Z.of_nat (List.length hits) <= 1) /\
  (forall h, In h hits ->
     exists r, In r (resources library) /\ fst h = dict_of Col.all r) /\
  (forall c cs h, blue = Some (c :: cs) -> In h hits ->
     dict_get (fst h) (lit "category") = Some (VText (c :: cs))).
Proof.
  cbv zeta. split; [|split; [|split]]; try (vm_compute; reflexivity).
  apply (search_resources_filters_and_limits append_only library
           (lit "guide") (Some (lit "Blue Team")) 1).
  vm_compute; reflexivity.
Defined.

(** ** Creating, then looking up *)

Lemma as_stored_at : forall (E : sqlite) r c,
  as_stored E r c = store E c (r c).
Proof. intros E r c. destruct c; reflexivity. Qed.

(** What the INSERT has bound: in each column, the value passed for
    it. *)
Lemma insert_bindings_returned : forall a file_hash data r,
  insert_bindings a file_hash data = Returned r ->
  exists tags,
    joined (Database.tags a) = Returned tags /\
    forall c, bind_value (passed a file_hash data tags c) = Returned (r c).
Proof.
  intros a h d r H. unfold insert_bindings in H.
  destruct (joined (Database.tags a)) as [tags| |]; try discriminate H.
  cbn [and_then] in H. exists tags. split; [reflexivity|].
  repeat match type of H with
  | and_then ?m _ = _ =>
      let v := fresh "v" in
      let Hv := fresh "Hv" in
      destruct m as [v| |] eqn:Hv; cbn [and_then] in H; [|discriminate..]
  end.
  injection H as <-.
  intros c. destruct c; try assumption; reflexivity.
Qed.

(** The row an INSERT adds: the stored values, the new id, and the two
    timestamps. *)
Definition inserted (r : row) (resource_id : Z) (utc_now : datetime)
  : row :=
  set (set (set r Col.id (VInt resource_id))
         Col.created_at (VText (CURRENT_TIMESTAMP utc_now)))
    Col.updated_at (VText (CURRENT_TIMESTAMP utc_now)).

Lemma execute_insert_returned :
  forall (E : sqlite) utc_now (self self' : @database E) r resource_id,
    execute_insert utc_now self r = Returned (resource_id, self') ->
    resource_id = largest_rowid self + 1 /\
    largest_rowid self < MAX_ROWID /\
    violates_not_null (as_stored E r) = false /\
    violates_unique (as_stored E r) (resources self) = false /\
    resources self'
    = resources self ++ [inserted (as_stored E r) resource_id utc_now] /\
    sqlite_sequence self' = resource_id.
Proof.
  intros E now self self' r n H. unfold execute_insert in H.
  cbv zeta in H.
  destruct (MAX_ROWID <=? largest_rowid self) eqn:Hfull; [discriminate|].
  destruct (violates_not_null (as_stored E r)); [discriminate|].
  destruct (violates_unique (as_stored E r) (resources self));
    [discriminate|].
  destruct (fts_insert E _ _ _ _); [|discriminate].
  injection H as <- <-. apply Z.leb_gt in Hfull. repeat split; auto.
Qed.

Lemma add_resource_returned_id :
  forall (E : sqlite) fs utc_now (self self' : @database E) a resource_id,
    add_resource fs utc_now self a = (Returned (Some resource_id), self') ->
    exists file_hash data r,
      hash_and_data fs a = Returned (file_hash, data) /\
      insert_bindings a file_hash data = Returned r /\
      execute_insert utc_now self r = Returned (resource_id, self').
Proof.
  intros E fs now self self' a n H. unfold add_resource in H.
  destruct (hash_and_data fs a) as [[h d]|e|]; try discriminate.
  exists h, d.
  destruct (insert_bindings a h d) as [r|e|]; cbn [and_then] in H.
  - exists r. split; [reflexivity|]. split; [reflexivity|].
    destruct (execute_insert now self r) as [[n' s']|e|];
      [ injection H as <- <-; reflexivity
      | destruct e; discriminate
      | discriminate ].
  - destruct e; discriminate.
  - discriminate.
Qed.

(** A call of [add_resource] that does not return an id leaves the
    database file as it was. *)
Lemma add_resource_without_id :
  forall (E : sqlite) fs utc_now (self : @database E) a,
    (forall n, fst (add_resource fs utc_now self a) <> Returned (Some n)) ->
    snd (add_resource fs utc_now self a) = self.
Proof.
  intros E fs now self a H. unfold add_resource in *.
  destruct (hash_and_data fs a) as [[h d]|e|]; try reflexivity.
  destruct (and_then _ _) as [[n s']|e|]; try reflexivity.
  - exfalso. apply (H n). reflexivity.
  - destruct e; reflexivity.
Qed.

Lemma rowid_le_largest : forall (E : sqlite) (self : @database E) r,
  In r (resources self) -> rowid_of r <= largest_rowid self.
Proof.
  intros E self r. unfold largest_rowid.
  induction (resources self) as [|x rows IH]; simpl; [tauto|].
  intros [->|H]; [|apply IH in H]; lia.
Qed.

Lemma sequence_le_largest : forall (E : sqlite) (self : @database E),
  sqlite_sequence self <= largest_rowid self.
Proof.
  intros E self. unfold largest_rowid.
  induction (resources self) as [|x rows IH]; simpl; lia.
Qed.

Lemma has_id_rowid : forall n r, has_id n r = true -> rowid_of r = n.
Proof.
  intros n r H. apply has_id_inv in H. unfold rowid_of. now rewrite H.
Qed.

Lemma find_new_row : forall n rows new,
  (forall r, In r rows -> has_id n r = false) ->
  has_id n new = true ->
  find (has_id n) (rows ++ [new]) = Some new.
Proof.
  intros n rows new Hrows Hnew.
  induction rows as [|r rows IH]; simpl.
  - now rewrite Hnew.
  - rewrite (Hrows r) by (left; reflexivity).
    apply IH. intros r' Hin. apply Hrows. now right.
Qed.

Lemma find_old_row : forall n rows new,
  has_id n new = false ->
  find (has_id n) (rows ++ [new]) = find (has_id n) rows.
Proof.
  intros n rows new Hnew.
  induction rows as [|r rows IH]; simpl.
  - now rewrite Hnew.
  - destruct (has_id n r); [reflexivity | exact IH].
Qed.

Lemma inserted_has_id : forall r n utc_now,
  has_id n (inserted r n utc_now) = true.
Proof. intros r n now. unfold has_id, inserted, set. cbn. apply Z.eqb_refl. Qed.

Lemma bind_str_returned : forall s v,
  bind_value (PyStr s) = Returned v -> v = VText s.
Proof.
  intros s v H. cbn in H. unfold bind_str in H.
  destruct (encodable s); congruence.
Qed.

Lemma bind_int_returned : forall n v,
  bind_value (PyInt n) = Returned v -> v = VInt n /\ int64 n = true.
Proof.
  intros n v H. cbn in H. unfold bind_int in H.
  destruct (int64 n); [split|]; congruence.
Qed.

(** The row [add_resource] has created, and what was bound for it. *)
Lemma created_row :
  forall (E : sqlite) fs utc_now (self self' : @database E) a resource_id,
    add_resource fs utc_now self a = (Returned (Some resource_id), self') ->
    exists file_hash data tags r,
      hash_and_data fs a = Returned (file_hash, data) /\
      joined (Database.tags a) = Returned tags /\
      (forall c, bind_value (passed a file_hash data tags c)
                 = Returned (r c)) /\
      resources self'
      = resources self ++ [inserted (as_stored E r) resource_id utc_now] /\
      filter (has_id resource_id) (resources self')
      = [inserted (as_stored E r) resource_id utc_now] /\
      largest_rowid self < resource_id <= MAX_ROWID.
Proof.
  intros E fs now self self' a n H.
  apply add_resource_returned_id in H. destruct H as [h [d [r [Hh [Hr H]]]]].
  apply insert_bindings_returned in Hr. destruct Hr as [tags [Ht Hr]].
  apply execute_insert_returned in H.
  destruct H as [Hn [Hfull [_ [_ [Hrows _]]]]].
  exists h, d, tags, r.
  split; [exact Hh|]. split; [exact Ht|]. split; [exact Hr|].
  split; [exact Hrows|]. split; [|lia].
  rewrite Hrows, filter_app. cbn [filter].
  rewrite inserted_has_id.
  replace (filter (has_id n) (resources self)) with (@nil row);
    [reflexivity|].
  symmetry. assert (Hold : forall x, In x (resources self) ->
                             has_id n x = false).
  { intros x Hin. destruct (has_id n x) eqn:Hx; [|reflexivity].
    apply has_id_rowid in Hx. apply (rowid_le_largest E) in Hin. lia. }
  revert Hold. generalize (resources self) as rows.
  induction rows as [|x rows IH]; intros Hold; [reflexivity|].
  cbn [filter]. rewrite (Hold x) by now left.
  apply IH. intros y Hy. apply Hold. now right.
Qed.

Lemma find_is_first : forall (f : row -> bool) rows,
  find f rows = hd_error (filter f rows).
Proof.
  induction rows as [|x rows IH]; simpl; [reflexivity|].
  destruct (f x); [reflexivity | exact IH].
Qed.

(** X1: a resource that [add_resource] has created is fetched by
    [get_resource] under the id returned.  Both timestamps are the UTC
    time of the INSERT.  Every other column holds the value passed for
    it (for [tags], a list joined by a comma and a space; for
    [file_hash], the hash of the payload) as SQLite binds it and stores
    it under the affinity of the column: a [str] passed for a text
    column and an [int] passed for [file_size] are held as they were
    passed, an [int] passed for a text column is held as its decimal
    text, and a [str] passed for [file_size] that is written like an
    integer of 64 bits is held as that integer. *)
Theorem created_resource_is_fetched_as_supplied :
  forall (E : sqlite) fs utc_now (self self' : @database E) a resource_id
         include_file_data,
    0 <= sqlite_sequence self ->
    add_resource fs utc_now self a = (Returned (Some resource_id), self') ->
    exists file_hash data tags (held : row),
      hash_and_data fs a = Returned (file_hash, data) /\
      joined (Database.tags a) = Returned tags /\
      get_resource self' resource_id include_file_data
      = Returned (Some (dict_of (if include_file_data then Col.all
                                 else metadata_columns) held)) /\
      held Col.id = VInt resource_id /\
      held Col.created_at = VText (CURRENT_TIMESTAMP utc_now) /\
      held Col.updated_at = held Col.created_at /\
      (forall c, c <> Col.id -> c <> Col.created_at -> c <> Col.updated_at ->
         exists v,
           bind_value (passed a file_hash data tags c) = Returned v /\
           held c = store E c v) /\
      (forall c s, Col.affinity_of c = TEXT ->
         passed a file_hash data tags c = PyStr s -> held c = VText s) /\
      (forall c n, Col.affinity_of c = TEXT ->
         passed a file_hash data tags c = PyInt n ->
         held c = VText (decimal n)) /\
      (forall n, file_size a = PyInt n -> held Col.file_size = VInt n) /\
      (forall s n, file_size a = PyStr s ->
         numeric_form s = Some (Whole n) -> int64 n = true ->
         held Col.file_size = VInt n).
Proof.
  intros E fs now self self' a n flag Hseq H.
  destruct (created_row E fs now self self' a n H)
    as [h [d [tags [r [Hh [Ht [Hr [_ [Hrow Hn]]]]]]]]].
  pose proof (sequence_le_largest E self) as Hle.
  set (held := inserted (as_stored E r) n now).
  assert (Hheld : forall c,
            c <> Col.id -> c <> Col.created_at -> c <> Col.updated_at ->
            held c = store E c (r c)).
  { intros c H1 H2 H3. unfold held. rewrite <- as_stored_at.
    destruct c; try reflexivity; congruence. }
  exists h, d, tags, held.
  split; [exact Hh|]. split; [exact Ht|].
  split; [|split; [|split; [|split; [|split; [|split; [|split; [|split]]]]]]];
    try reflexivity.
  - unfold get_resource, bind_int, int64.
    replace ((- 9223372036854775808 <=? n) && (n <=? 9223372036854775807))
      with true
      by (symmetry; apply andb_true_iff; unfold MAX_ROWID in Hn;
          split; apply Z.leb_le; lia).
    cbn [and_then]. now rewrite find_is_first, Hrow.
  - intros c H1 H2 H3. exists (r c). split; [apply Hr | now apply Hheld].
  - intros c s Hc Hp. rewrite Hheld by (intros ->; discriminate Hc).
    specialize (Hr c). rewrite Hp in Hr. apply bind_str_returned in Hr.
    rewrite Hr. unfold store, convert. now rewrite Hc.
  - intros c k Hc Hp. rewrite Hheld by (intros ->; discriminate Hc).
    specialize (Hr c). rewrite Hp in Hr. apply bind_int_returned in Hr.
    destruct Hr as [Hr _]. rewrite Hr. unfold store, convert.
    now rewrite Hc.
  - intros k Hp. rewrite Hheld by discriminate.
    specialize (Hr Col.file_size). cbn [passed] in Hr. rewrite Hp in Hr.
    apply bind_int_returned in Hr. destruct Hr as [Hr _].
    rewrite Hr. reflexivity.
  - intros s k Hp Hform Hk. rewrite Hheld by discriminate.
    specialize (Hr Col.file_size). cbn [passed] in Hr. rewrite Hp in Hr.
    apply bind_str_returned in Hr. rewrite Hr.
    unfold store, convert. cbn [Col.affinity_of]. now rewrite Hform, Hk.
Qed.

(** The call of the create route for a JSON body that gives the size as
    a string and the thumbnail as a number. *)
Definition raw_link : arguments := {|
  title := PyStr (lit "nmap guide");
  description := PyStr [];
  file_path := PyNone;
  file_data := PyNone;
  file_type := PyNone;
  file_size := PyStr (lit "12");
  category := PyStr (lit "Red Team");
  tags := PyStr (lit "tool, guide");
  url := PyStr (lit "https://example.org/");
  resource_type := PyStr (lit "link");
  thumbnail_path := PyInt 5;
  classifier_used := PyNone;
  classification_confidence := PyNone
|}.

Lemma created_resource_is_fetched_as_supplied_witness :
  let self' := snd (add_resource no_files noon fresh raw_link) in
  exists held : row,
    get_resource self' 1 false
    = Returned (Some (dict_of metadata_columns held)) /\
    held Col.id = VInt 1 /\
    held Col.created_at = VText (CURRENT_TIMESTAMP noon) /\
    held Col.title = VText (lit "nmap guide") /\
    held Col.thumbnail_path = VText (lit "5") /\
    held Col.file_size = VInt 12.
Proof.
  cbv zeta.
  assert (Hseq : 0 <= sqlite_sequence fresh) by (simpl; lia).
  assert (Hadd : add_resource no_files noon fresh raw_link
                 = (Returned (Some 1),
                    snd (add_resource no_files noon fresh raw_link)))
    by (vm_compute; reflexivity).
  destruct (created_resource_is_fetched_as_supplied append_only no_files
              noon fresh (snd (add_resource no_files noon fresh raw_link))
              raw_link 1 false Hseq Hadd)
    as (h & d & tags & held & _ & Ht & Hget & Hid & Hc & _ & _ & Htext
        & Hint & _ & Hsize).
  injection Ht as <-.
  exists held. split; [exact Hget|]. split; [exact Hid|].
  split; [exact Hc|]. split; [|split].
  - apply Htext; reflexivity.
  - apply (Hint Col.thumbnail_path 5); reflexivity.
  - apply (Hsize (lit "12") 12); reflexivity.
Defined.

(** ** Duplicates *)

Lemma violates_unique_found : forall (r r' : row) rows h,
  r Col.file_hash = VText h ->
  In r' rows ->
  r' Col.file_hash = VText h ->
  violates_unique r rows = true.
Proof.
  intros r r' rows h Hr Hin Hr'. unfold violates_unique.
  apply existsb_exists. exists r'. split; [exact Hin|].
  rewrite Hr, Hr'. simpl. apply str_eqb_refl.
Qed.

Lemma inserted_file_hash : forall r n utc_now,
  inserted r n utc_now Col.file_hash = r Col.file_hash.
Proof. reflexivity. Qed.

(** The hash that was computed is the hash that is stored. *)
Lemma stored_file_hash : forall (E : sqlite) a h d r,
  insert_bindings a (Some h) d = Returned r ->
  as_stored E r Col.file_hash = VText h.
Proof.
  intros E a h d r H. apply insert_bindings_returned in H.
  destruct H as [tags [_ H]]. specialize (H Col.file_hash).
  cbn [passed optional] in H. apply bind_str_returned in H.
  rewrite as_stored_at, H. reflexivity.
Qed.

Lemma stored_no_hash : forall (E : sqlite) a d r,
  insert_bindings a None d = Returned r ->
  as_stored E r Col.file_hash = VNull.
Proof.
  intros E a d r H. apply insert_bindings_returned in H.
  destruct H as [tags [_ H]]. specialize (H Col.file_hash).
  cbn [passed optional bind_value] in H. injection H as H.
  rewrite as_stored_at, <- H. reflexivity.
Qed.

(** X3: when two calls of [add_resource] compute the same hash (the
    same payload in [file_data], or files of the same content read from
    [file_path]) and the first returns an id, the second returns none
    and leaves the database file as it is; it returns [None], not an
    exception, whenever its values can be bound and rowids are left. *)
Theorem same_hash_is_refused_the_second_time :
  forall (E : sqlite) fs1 fs2 now1 now2 (self self' : @database E) a1 a2
         resource_id h d1 d2,
    hash_and_data fs1 a1 = Returned (Some h, d1) ->
    hash_and_data fs2 a2 = Returned (Some h, d2) ->
    add_resource fs1 now1 self a1 = (Returned (Some resource_id), self') ->
    snd (add_resource fs2 now2 self' a2) = self' /\
    (forall n, fst (add_resource fs2 now2 self' a2) <> Returned (Some n)) /\
    (forall r2, insert_bindings a2 (Some h) d2 = Returned r2 ->
                largest_rowid self' < MAX_ROWID ->
                fst (add_resource fs2 now2 self' a2) = Returned None).
Proof.
  intros E fs1 fs2 now1 now2 self self' a1 a2 n h d1 d2 H1 H2 H.
  apply add_resource_returned_id in H.
  destruct H as [h' [d' [r1 [Hh [Hr1 H]]]]].
  rewrite H1 in Hh. injection Hh as <- <-.
  apply execute_insert_returned in H.
  destruct H as [_ [_ [_ [_ [Hrows _]]]]].
  pose proof (stored_file_hash E _ _ _ _ Hr1) as Hf1.
  assert (Hdup : forall r2, insert_bindings a2 (Some h) d2 = Returned r2 ->
                   violates_unique (as_stored E r2) (resources self') = true).
  { intros r2 Hr2.
    pose proof (stored_file_hash E _ _ _ _ Hr2) as Hf2.
    apply (violates_unique_found (as_stored E r2)
             (inserted (as_stored E r1) n now1) _ h Hf2).
    - rewrite Hrows. apply in_or_app. right. left. reflexivity.
    - rewrite inserted_file_hash. exact Hf1. }
  assert (Hno : forall m,
            fst (add_resource fs2 now2 self' a2) <> Returned (Some m)).
  { intros m. unfold add_resource. rewrite H2.
    destruct (insert_bindings a2 (Some h) d2) as [r2|e|] eqn:Hr2;
      cbn [and_then].
    - unfold execute_insert. cbv zeta. rewrite (Hdup r2 eq_refl).
      destruct (MAX_ROWID <=? largest_rowid self'); [discriminate|].
      destruct (violates_not_null (as_stored E r2)); discriminate.
    - destruct e; discriminate.
    - discriminate. }
  split; [apply add_resource_without_id; exact Hno|].
  split; [exact Hno|].
  intros r2 Hr2 Hfree. unfold add_resource. rewrite H2, Hr2.
  cbn [and_then]. unfold execute_insert. cbv zeta. rewrite (Hdup r2 Hr2).
  apply Z.leb_gt in Hfree. rewrite Hfree.
  destruct (violates_not_null (as_stored E r2)); reflexivity.
Qed.

(** A payload of four bytes, uploaded under two names. *)
Definition first_upload : arguments :=
  upload (lit "Report") (lit "report.pdf") [37; 80; 68; 70].

Definition second_upload : arguments :=
  upload (lit "Copy of report") (lit "copy.pdf") [37; 80; 68; 70].

Lemma same_hash_is_refused_the_second_time_witness :
  let self' := snd (add_resource no_files noon fresh first_upload) in
  fst (add_resource no_files noon fresh first_upload) = Returned (Some 1) /\
  add_resource no_files noon self' second_upload = (Returned None, self').
Proof.
  cbv zeta. split; [vm_compute; reflexivity|].
  assert (Hadd : add_resource no_files noon fresh first_upload
                 = (Returned (Some 1),
                    snd (add_resource no_files noon fresh first_upload)))
    by (vm_compute; reflexivity).
  destruct (same_hash_is_refused_the_second_time append_only
              no_files no_files noon noon fresh
              (snd (add_resource no_files noon fresh first_upload))
              first_upload second_upload 1
              (Hashlib.md5_hexdigest [37; 80; 68; 70])
              (PyBytes [37; 80; 68; 70]) (PyBytes [37; 80; 68; 70])
              eq_refl eq_refl Hadd) as [Hsnd [_ Hnone]].
  rewrite (surjective_pairing (add_resource _ _ _ second_upload)).
  rewrite Hsnd.
  destruct (insert_bindings second_upload
              (Some (Hashlib.md5_hexdigest [37; 80; 68; 70]))
              (PyBytes [37; 80; 68; 70])) as [r2|e|] eqn:Hr2;
    [ | vm_compute in Hr2; discriminate..].
  rewrite (Hnone r2 eq_refl); [reflexivity|].
  vm_compute. reflexivity.
Defined.

(** Binding raises one of its three exceptions, joining the tags a
    [TypeError]: none of them is an [IntegrityError]. *)
Lemma bind_value_raised : forall v e,
  bind_value v = Raised e ->
  e = UnicodeEncodeError \/ e = OverflowError \/ e = ProgrammingError.
Proof.
  intros v e H. destruct v as [|b|n|x|s|b|l|d]; cbn in H;
    unfold bind_str, bind_int in H;
    repeat match type of H with
           | (if ?c then _ else _) = _ => destruct c
           | match ?x with _ => _ end = _ => destruct x
           end;
    try discriminate; injection H as <-; auto.
Qed.

Lemma bind_value_modelled : forall v, bind_value v <> Unmodelled.
Proof.
  intros v. destruct v as [|b|n|x|s|b|l|d]; cbn;
    unfold bind_str, bind_int;
    repeat match goal with
           | |- (if ?c then _ else _) <> _ => destruct c
           | |- match ?x with _ => _ end <> _ => destruct x
           end;
    discriminate.
Qed.

Lemma joined_cases : forall tags,
  (exists t, joined tags = Returned t) \/ joined tags = Raised TypeError.
Proof.
  intros tags. unfold joined. destruct tags; eauto.
  destruct (strings items); eauto.
Qed.

Lemma insert_bindings_raised : forall a file_hash data e,
  insert_bindings a file_hash data = Raised e ->
  e <> IntegrityError.
Proof.
  intros a h d e H. unfold insert_bindings in H.
  destruct (joined_cases (Database.tags a)) as [[t Ht] | Ht]; rewrite Ht in H;
    cbn [and_then] in H; [|injection H as <-; discriminate].
  repeat match type of H with
  | and_then ?m _ = _ =>
      let v := fresh "v" in
      let Hv := fresh "Hv" in
      destruct m as [v| |] eqn:Hv; cbn [and_then] in H;
        [ | injection H as <-; apply bind_value_raised in Hv;
            destruct Hv as [-> | [-> | ->]]; discriminate
          | discriminate ]
  end.
  discriminate.
Qed.

Lemma insert_bindings_modelled : forall a file_hash data,
  insert_bindings a file_hash data <> Unmodelled.
Proof.
  intros a h d H. unfold insert_bindings in H.
  destruct (joined_cases (Database.tags a)) as [[t Ht] | Ht]; rewrite Ht in H;
    cbn [and_then] in H; [|discriminate].
  repeat match type of H with
  | and_then ?m _ = _ =>
      let v := fresh "v" in
      let Hv := fresh "Hv" in
      destruct m as [v| |] eqn:Hv; cbn [and_then] in H;
        [ | discriminate | exact (bind_value_modelled _ Hv) ]
  end.
  discriminate.
Qed.

Lemma violates_not_null_spec : forall r,
  violates_not_null r
  = is_null (r Col.title) || is_null (r Col.resource_type).
Proof.
  intros r. unfold violates_not_null.
  cbn [existsb Col.all Col.not_null andb orb].
  destruct (is_null (r Col.title)), (is_null (r Col.resource_type));
    reflexivity.
Qed.

Lemma null_hash_is_unique : forall (r : row) rows,
  r Col.file_hash = VNull -> violates_unique r rows = false.
Proof.
  intros r rows H. unfold violates_unique. rewrite H.
  induction rows as [|r' rows IH]; simpl; auto.
Qed.

(** Affinity converts between numbers and text; it neither makes a NULL
    nor removes one. *)
Lemma store_null : forall (E : sqlite) c v,
  is_null (store E c v) = is_null v.
Proof.
  intros E c v. unfold store, convert, as_number.
  destruct (Col.affinity_of c), v; try reflexivity;
    repeat match goal with
           | |- context [match ?x with _ => _ end] => destruct x
           end; reflexivity.
Qed.

(** X4: a payload of no bytes passed in [file_data] is given no hash,
    so it is never refused as a duplicate, however many such resources
    the table holds: with a title and a resource type that are not
    bound as NULL, and an index that reports no constraint of its own,
    [add_resource] does not return [None].  No hash is computed:
    the statements before the INSERT only look at [file_path]. *)
Theorem empty_payload_is_never_a_duplicate :
  forall (E : sqlite) fs utc_now (self : @database E) a,
    file_data a = PyBytes [] ->
    bind_value (title a) <> Returned VNull ->
    bind_value (resource_type a) <> Returned VNull ->
    (forall rows idx n p, fts_insert E rows idx n p <> inr IntegrityError) ->
    hash_and_data fs a
    = (let* _ := path_exists fs (file_path a) in
       Returned (None, PyBytes [])) /\
    fst (add_resource fs utc_now self a) <> Returned None.
Proof.
  intros E fs now self a Hdata Htitle Htype Hfts.
  assert (Hh : hash_and_data fs a
               = and_then (path_exists fs (file_path a))
                   (fun _ => Returned (None, PyBytes []))).
  { unfold hash_and_data. rewrite Hdata. cbn [truth is_empty negb].
    destruct (path_exists fs (file_path a)) as [[[]|]| |]; reflexivity. }
  split; [exact Hh|].
  unfold add_resource. rewrite Hh.
  destruct (path_exists fs (file_path a)) as [found|e|]; cbn [and_then];
    [ | cbn; discriminate..].
  destruct (insert_bindings a None (PyBytes [])) as [r|e|] eqn:Hr;
    cbn [and_then];
    [ | apply insert_bindings_raised in Hr; destruct e;
        try (cbn; discriminate); congruence
      | cbn; discriminate ].
  pose proof (stored_no_hash E _ _ _ Hr) as Hnohash.
  apply insert_bindings_returned in Hr. destruct Hr as [tags [_ Hsup]].
  unfold execute_insert. cbv zeta.
  destruct (MAX_ROWID <=? largest_rowid self); [cbn; discriminate|].
  rewrite violates_not_null_spec, !as_stored_at, !store_null.
  pose proof (Hsup Col.title) as Ht. pose proof (Hsup Col.resource_type) as Hrt.
  cbn [passed] in Ht, Hrt.
  destruct (r Col.title) eqn:E1; [congruence| | | |];
    (destruct (r Col.resource_type) eqn:E2; [congruence| | | |]);
    cbn [is_null orb];
    rewrite (null_hash_is_unique _ _ Hnohash);
    (destruct (fts_insert E _ _ _ _) as [idx|e] eqn:Hins;
       [cbn; discriminate|]);
    (destruct e; try (cbn; discriminate));
    exfalso; exact (Hfts _ _ _ _ Hins).
Qed.

Definition empty_upload : arguments :=
  upload (lit "Empty") (lit "empty.bin") [].

Lemma empty_payload_is_never_a_duplicate_witness :
  let once := snd (add_resource no_files noon fresh empty_upload) in
  fst (add_resource no_files noon fresh empty_upload) = Returned (Some 1) /\
  fst (add_resource no_files noon once empty_upload) = Returned (Some 2) /\
  hash_and_data no_files empty_upload = Returned (None, PyBytes []) /\
  fst (add_resource no_files noon once empty_upload) <> Returned None.
Proof.
  cbv zeta. split; [|split]; try (vm_compute; reflexivity).
  apply (empty_payload_is_never_a_duplicate append_only no_files noon
           (snd (add_resource no_files noon fresh empty_upload))
           empty_upload); try discriminate.
  reflexivity.
Defined.

(** ** Identifiers *)

(** X5: the id [add_resource] returns is greater than every id in the
    table, and it is not given out again: after any deletion, that of
    the newest resource included, the next id is greater still. *)
Theorem ids_are_never_reused :
  forall (E : sqlite) fs1 fs2 now1 now2 (s0 s1 s2 s3 : @database E) a1 a2
         id1 id2 deleted success,
    add_resource fs1 now1 s0 a1 = (Returned (Some id1), s1) ->
    delete_resource s1 deleted = (Returned success, s2) ->
    add_resource fs2 now2 s2 a2 = (Returned (Some id2), s3) ->
    (forall r, In r (resources s0) -> rowid_of r < id1) /\
    id1 < id2.
Proof.
  intros E fs1 fs2 now1 now2 s0 s1 s2 s3 a1 a2 id1 id2 k b H1 Hd H2.
  apply add_resource_returned_id in H1. destruct H1 as [? [? [r1 [_ [_ H1]]]]].
  apply execute_insert_returned in H1.
  destruct H1 as [Hid1 [_ [_ [_ [_ Hseq1]]]]].
  apply delete_resource_returned in Hd. destruct Hd as [_ [_ [_ Hseq2]]].
  apply add_resource_returned_id in H2. destruct H2 as [? [? [r2 [_ [_ H2]]]]].
  apply execute_insert_returned in H2. destruct H2 as [Hid2 _].
  pose proof (sequence_le_largest E s2) as Hle.
  split; [|lia].
  intros r Hin. apply (rowid_le_largest E) in Hin. lia.
Qed.

Lemma ids_are_never_reused_witness :
  let s1 := snd (add_resource no_files noon two_guides first_upload) in
  let s2 := snd (delete_resource s1 3) in
  fst (add_resource no_files noon two_guides first_upload)
  = Returned (Some 3) /\
  fst (add_resource no_files noon s2 second_upload) = Returned (Some 4) /\
  (forall r, In r (resources two_guides) -> rowid_of r < 3) /\
  3 < 4.
Proof.
  cbv zeta. split; [|split]; try (vm_compute; reflexivity).
  apply (ids_are_never_reused append_only no_files no_files noon noon
           two_guides
           (snd (add_resource no_files noon two_guides first_upload))
           (snd (delete_resource
                   (snd (add_resource no_files noon two_guides first_upload))
                   3))
           (snd (add_resource no_files noon
                   (snd (delete_resource
                           (snd (add_resource no_files noon two_guides
                                   first_upload)) 3))
                   second_upload))
           first_upload second_upload 3 4 3 true);
    vm_compute; reflexivity.
Defined.

(** ** The constraints of the schema, as an invariant *)

(** No two rows share a hash, unless it is NULL. *)
Definition unique_hashes (rows : list row) : Prop :=
  ForallOrdPairs
    (fun r r' : row =>
       r Col.file_hash = r' Col.file_hash -> r Col.file_hash = VNull)
    rows.

(** What the declarations of [init_db] promise of the table: ids are
    integers between 1 and the AUTOINCREMENT counter and are distinct
    ([INTEGER PRIMARY KEY AUTOINCREMENT]), [title] and [resource_type]
    are present ([NOT NULL]), hashes are distinct ([UNIQUE]). *)
Record consistent {E : sqlite} (self : @database E) : Prop := {
  sequence_nonnegative : 0 <= sqlite_sequence self;
  ids_assigned :
    forall r, In r (resources self) ->
      exists n, r Col.id = VInt n /\ 1 <= n <= sqlite_sequence self;
  ids_distinct : NoDup (map rowid_of (resources self));
  required_present :
    forall r, In r (resources self) ->
      r Col.title <> VNull /\ r Col.resource_type <> VNull;
  hashes_distinct : unique_hashes (resources self)
}.

Lemma NoDup_snoc : forall (l : list Z) x,
  NoDup l -> ~ In x l -> NoDup (l ++ [x]).
Proof.
  induction l as [|y l IH]; simpl; intros x Hl Hx.
  - constructor; [tauto | constructor].
  - inversion Hl as [|? ? Hy Hl']; subst. constructor.
    + intros Hin. apply in_app_or in Hin. simpl in Hin.
      destruct Hin as [Hin | [-> | []]]; tauto.
    + apply IH; tauto.
Qed.

Lemma NoDup_map_filter : forall (f : row -> Z) (p : row -> bool) l,
  NoDup (map f l) -> NoDup (map f (filter p l)).
Proof.
  induction l as [|x l IH]; simpl; intros H; [constructor|].
  inversion H as [|? ? Hx Hl]; subst.
  destruct (p x); simpl; [constructor|]; auto.
  intros Hin. apply Hx. apply in_map_iff in Hin.
  destruct Hin as [y [Hy Hin]]. apply filter_In in Hin.
  apply in_map_iff. exists y. tauto.
Qed.

Lemma ordered_pairs_snoc : forall A (R : A -> A -> Prop) l x,
  ForallOrdPairs R l -> (forall y, In y l -> R y x) ->
  ForallOrdPairs R (l ++ [x]).
Proof.
  intros A R l x H. induction H as [|y l Hy Hl IH]; simpl; intros Hx.
  - constructor; constructor.
  - constructor.
    + apply Forall_app. split; [exact Hy|].
      constructor; [|constructor]. apply Hx. now left.
    + apply IH. intros z Hz. apply Hx. now right.
Qed.

Lemma ordered_pairs_filter : forall A (R : A -> A -> Prop) p l,
  ForallOrdPairs R l -> ForallOrdPairs R (filter p l).
Proof.
  intros A R p l H. induction H as [|y l Hy Hl IH]; simpl.
  - constructor.
  - destruct (p y); [|exact IH]. constructor; [|exact IH].
    rewrite Forall_forall in *. intros z Hz. apply filter_In in Hz.
    apply Hy. tauto.
Qed.

Lemma violates_unique_none : forall (r r' : row) rows,
  violates_unique r rows = false -> In r' rows ->
  r' Col.file_hash = r Col.file_hash -> r' Col.file_hash = VNull.
Proof.
  intros r r' rows H Hin Heq. unfold violates_unique in H.
  assert (Hr : sql_eqb (r Col.file_hash) (r' Col.file_hash) = false).
  { destruct (sql_eqb _ _) eqn:Hs; [|reflexivity].
    rewrite <- H. symmetry. apply existsb_exists. eauto. }
  rewrite Heq in *. destruct (r Col.file_hash) as [|n|s|b|x];
    [reflexivity|..];
    match type of Hr with
    | sql_eqb ?v ?v = false =>
        change (value_eqb v v = false) in Hr;
        rewrite value_eqb_refl in Hr; discriminate Hr
    end.
Qed.

(** Either [add_resource] returns an id, or the file is as it was. *)
Lemma add_resource_cases :
  forall (E : sqlite) fs utc_now (self : @database E) a,
    (exists n, fst (add_resource fs utc_now self a) = Returned (Some n)) \/
    snd (add_resource fs utc_now self a) = self.
Proof.
  intros E fs now self a.
  destruct (fst (add_resource fs now self a)) as [[n|]|e|] eqn:H;
    [left; eauto | right..];
    apply add_resource_without_id; intros m; rewrite H; discriminate.
Qed.

Lemma delete_resource_cases :
  forall (E : sqlite) (self : @database E) resource_id,
    (exists success,
       fst (delete_resource self resource_id) = Returned success) \/
    snd (delete_resource self resource_id) = self.
Proof.
  intros E self n. unfold delete_resource.
  destruct (bind_int n); [|right; reflexivity..].
  destruct (run_resources_ad _ _ _ _);
    [left; eexists; reflexivity | right; reflexivity].
Qed.

Lemma consistent_fresh : consistent fresh.
Proof.
  constructor; simpl; try (intros r []); try constructor. lia.
Qed.

(** X10: the constraints of the schema are an invariant of the store:
    whatever [add_resource] and [delete_resource] are called with and
    whatever they return or raise, a database file that satisfies them
    still does afterwards. *)
Theorem store_keeps_the_constraints :
  forall (E : sqlite) fs utc_now (self : @database E) a resource_id,
    consistent self ->
    consistent (snd (add_resource fs utc_now self a)) /\
    consistent (snd (delete_resource self resource_id)).
Proof.
  intros E fs now self a k [Hseq Hids Hdup Hreq Hhash]. split.
  - destruct (add_resource_cases E fs now self a) as [[n Hn] | ->];
      [|constructor; assumption].
    assert (H : add_resource fs now self a
                = (Returned (Some n), snd (add_resource fs now self a)))
      by (rewrite <- Hn; apply surjective_pairing).
    apply add_resource_returned_id in H.
    destruct H as [h [d [r [_ [_ H]]]]].
    apply execute_insert_returned in H.
    destruct H as [Hid [_ [Hnn [Huniq [Hrows Hseq']]]]].
    set (r0 := as_stored E r) in *.
    pose proof (sequence_le_largest E self) as Hle.
    assert (Hold : forall r', In r' (resources self) -> rowid_of r' < n).
    { intros r' Hin. apply (rowid_le_largest E) in Hin. lia. }
    constructor; rewrite ?Hrows, ?Hseq'.
    + lia.
    + intros r' Hin. apply in_app_or in Hin.
      destruct Hin as [Hin | [<- | []]].
      * destruct (Hids r' Hin) as [m [Hm Hr]]. exists m. split; [exact Hm|].
        lia.
      * exists n. split; [reflexivity | lia].
    + rewrite map_app. apply NoDup_snoc; [exact Hdup|].
      simpl. intros Hin. apply in_map_iff in Hin.
      destruct Hin as [r' [Heq Hin]]. apply Hold in Hin.
      change (rowid_of (inserted r0 n now)) with n in Heq. lia.
    + intros r' Hin. apply in_app_or in Hin.
      destruct Hin as [Hin | [<- | []]]; [auto|].
      rewrite violates_not_null_spec in Hnn.
      apply orb_false_iff in Hnn.
      change (inserted r0 n now Col.title) with (r0 Col.title).
      change (inserted r0 n now Col.resource_type)
        with (r0 Col.resource_type).
      destruct Hnn as [H1 H2].
      split; intros Hnull; rewrite Hnull in *; discriminate.
    + apply ordered_pairs_snoc; [exact Hhash|].
      intros r' Hin. rewrite inserted_file_hash.
      apply (violates_unique_none r0 r' _ Huniq Hin).
  - destruct (delete_resource_cases E self k) as [[b Hb] | ->];
      [|constructor; assumption].
    assert (H : delete_resource self k
                = (Returned b, snd (delete_resource self k)))
      by (rewrite <- Hb; apply surjective_pairing).
    apply delete_resource_returned in H.
    destruct H as [_ [_ [Hrows Hseq']]].
    constructor; rewrite ?Hrows, ?Hseq'.
    + exact Hseq.
    + intros r Hin. apply filter_In in Hin. apply Hids. tauto.
    + apply NoDup_map_filter. exact Hdup.
    + intros r Hin. apply filter_In in Hin. apply Hreq. tauto.
    + apply ordered_pairs_filter. exact Hhash.
Qed.

Lemma store_keeps_the_constraints_witness :
  consistent (snd (add_resource no_files noon fresh first_upload)) /\
  consistent (snd (delete_resource fresh 1)).
Proof.
  apply (store_keeps_the_constraints append_only no_files noon fresh
           first_upload 1).
  exact consistent_fresh.
Defined.

(** ** Missing required fields *)

(** X2: a call of [add_resource] without a title, or without a resource
    type, returns [None] like a duplicate does and raises nothing: the
    NOT NULL violation is an [IntegrityError] too.  The database file is
    left as it was. *)
Theorem missing_required_field_is_reported_as_none :
  forall (E : sqlite) fs utc_now (self : @database E) a file_hash data r,
    title a = PyNone \/ resource_type a = PyNone ->
    hash_and_data fs a = Returned (file_hash, data) ->
    insert_bindings a file_hash data = Returned r ->
    largest_rowid self < MAX_ROWID ->
    add_resource fs utc_now self a = (Returned None, self).
Proof.
  intros E fs now self a h d r Hmissing Hh Hr Hfree.
  unfold add_resource. rewrite Hh, Hr. cbn [and_then].
  unfold execute_insert. cbv zeta. apply Z.leb_gt in Hfree. rewrite Hfree.
  rewrite violates_not_null_spec, !as_stored_at, !store_null.
  apply insert_bindings_returned in Hr. destruct Hr as [tags [_ Hr]].
  pose proof (Hr Col.title) as Ht. pose proof (Hr Col.resource_type) as Hrt.
  cbn [passed] in Ht, Hrt.
  destruct Hmissing as [Hm | Hm]; rewrite Hm in *.
  - injection Ht as <-. reflexivity.
  - injection Hrt as <-. cbn [is_null]. now rewrite orb_true_r.
Qed.

(** A call of the method for a link, with no resource type. *)
Definition untyped_link : arguments := {|
  title := PyStr (lit "Sigma rules");
  description := PyStr [];
  file_path := PyNone;
  file_data := PyNone;
  file_type := PyNone;
  file_size := PyInt 0;
  category := PyStr [];
  tags := PyStr [];
  url := PyStr (lit "https://example.org/sigma");
  resource_type := PyNone;
  thumbnail_path := PyNone;
  classifier_used := PyNone;
  classification_confidence := PyNone
|}.

Lemma missing_required_field_is_reported_as_none_witness :
  add_resource no_files noon library untyped_link = (Returned None, library).
Proof.
  destruct (insert_bindings untyped_link None PyNone) as [r| |] eqn:Hr;
    [ | vm_compute in Hr; discriminate..].
  apply (missing_required_field_is_reported_as_none append_only no_files
           noon library untyped_link None PyNone r).
  - right. reflexivity.
  - reflexivity.
  - exact Hr.
  - vm_compute. reflexivity.
Defined.

(** ** Reading the statement [update_resource] builds *)

(** A key that is written like a name: a letter or an underscore,
    then letters, digits and underscores. *)
Definition identifier (k : str) : bool :=
  match k with
  | [] => false
  | c :: w => word_start c && forallb word_char w
  end.

Definition prepend (ts : list token) (r : option (list token))
  : option (list token) :=
  match r with
  | Some more => Some (ts ++ more)
  | None => None
  end.

Lemma prepend_prepend : forall a b r,
  prepend a (prepend b r) = prepend (a ++ b) r.
Proof. intros a b [more|]; simpl; [now rewrite app_assoc | reflexivity]. Qed.

Lemma word_start_begin : forall c,
  word_start c = true -> begin c = Some ([], InWord [c]).
Proof.
  intros c H. unfold begin. rewrite H.
  replace (sql_space c) with false; [reflexivity|].
  symmetry. unfold word_start, Security.is_ascii_lower,
    Security.is_ascii_upper in H. unfold sql_space.
  repeat match goal with
         | |- context [N.eqb c ?n] => destruct (N.eqb_spec c n) as [->|_]
         end; try reflexivity; discriminate H.
Qed.

Lemma lex_word_chars : forall w acc rest,
  forallb word_char w = true ->
  lex (InWord acc) (w ++ rest) = lex (InWord (rev w ++ acc)) rest.
Proof.
  induction w as [|c w IH]; intros acc rest H; [reflexivity|].
  simpl in H. apply andb_true_iff in H. destruct H as [Hc Hw].
  cbn [app lex step]. rewrite Hc, (IH _ _ Hw).
  cbn [rev]. rewrite <- app_assoc. cbn [app].
  destruct (lex _ rest); reflexivity.
Qed.

Lemma lex_word_end : forall acc rest,
  lex (InWord acc) (lit " = ?" ++ rest)
  = prepend [TWord (rev acc); TEq; TParam] (lex Between rest).
Proof. intros acc rest. cbn. destruct (lex Between rest); reflexivity. Qed.

Lemma lex_identifier : forall k rest,
  identifier k = true ->
  lex Between (k ++ lit " = ?" ++ rest)
  = prepend [TWord k; TEq; TParam] (lex Between rest).
Proof.
  intros [|c w] rest H; [discriminate|].
  cbn [identifier] in H. apply andb_true_iff in H. destruct H as [Hc Hw].
  cbn [app lex step]. rewrite (word_start_begin c Hc).
  rewrite (lex_word_chars w [c] _ Hw), lex_word_end.
  rewrite rev_app_distr, rev_involutive. cbn [rev app].
  destruct (lex Between rest); reflexivity.
Qed.

Lemma lex_comma : forall rest,
  lex Between (lit ", " ++ rest) = prepend [TComma] (lex Between rest).
Proof. intros rest. cbn. destruct (lex Between rest); reflexivity. Qed.

Lemma lex_update : forall rest,
  lex Between (lit "UPDATE resources SET " ++ rest)
  = prepend [TWord (lit "UPDATE"); TWord (lit "resources");
             TWord (lit "SET")] (lex Between rest).
Proof. intros rest. cbn. destruct (lex Between rest); reflexivity. Qed.

(** The tokens of [', '.join(fields)]. *)
Fixpoint field_tokens (keys : list str) : list token :=
  match keys with
  | [] => []
  | [k] => [TWord k; TEq; TParam]
  | k :: keys' => TWord k :: TEq :: TParam :: TComma :: field_tokens keys'
  end.

Definition field_of (k : str) : str := k ++ lit " = ?".

Lemma lex_fields : forall keys rest,
  keys <> [] ->
  forallb identifier keys = true ->
  lex Between (join (lit ", ") (map field_of keys) ++ rest)
  = prepend (field_tokens keys) (lex Between rest).
Proof.
  induction keys as [|k keys IH]; intros rest Hne H; [congruence|].
  simpl in H. apply andb_true_iff in H. destruct H as [Hk Hks].
  destruct keys as [|k' keys].
  - cbn [map join field_tokens]. unfold field_of.
    rewrite <- app_assoc. now apply lex_identifier.
  - change (join (lit ", ") (map field_of (k :: k' :: keys)))
      with (field_of k ++ lit ", "
            ++ join (lit ", ") (map field_of (k' :: keys))).
    unfold field_of at 1. rewrite <- !app_assoc.
    rewrite (lex_identifier k _ Hk), lex_comma.
    rewrite (IH rest) by (try discriminate; exact Hks).
    rewrite !prepend_prepend. reflexivity.
Qed.

Definition update_tail : list token :=
  [TWord (lit "WHERE"); TWord (lit "id"); TEq; TParam].

Definition stamp_tokens : list token :=
  TComma :: TWord (lit "updated_at") :: TEq :: TParam :: update_tail.

Definition parameters (keys : list str) : list (str * expr) :=
  map (fun k => (k, EParam)) keys ++ [(lit "updated_at", EParam)].

Lemma parse_fields : forall keys,
  keys <> [] ->
  parse_assignments (field_tokens keys ++ stamp_tokens)
  = Some (parameters keys, update_tail).
Proof.
  induction keys as [|k keys IH]; intros Hne; [congruence|].
  destruct keys as [|k' keys]; [reflexivity|].
  change (field_tokens (k :: k' :: keys) ++ stamp_tokens)
    with (TWord k :: TEq :: TParam :: TComma
          :: (field_tokens (k' :: keys) ++ stamp_tokens)).
  cbn [parse_assignments as_expr]. rewrite IH by discriminate.
  reflexivity.
Qed.

(** The text [update_resource] builds for the keys it keeps. *)
Definition query_for (keys : list str) : str :=
  lit "UPDATE resources SET " ++ join (lit ", ") (map field_of keys)
  ++ lit ", updated_at = ? WHERE id = ?".

Definition statement_for (keys : list str) : update_statement :=
  {| assignments := parameters keys;
     where_column := lit "id";
     where_value := EParam |}.

Lemma parse_query : forall keys,
  keys <> [] ->
  forallb identifier keys = true ->
  match lex Between (query_for keys) with
  | Some tokens => parse tokens
  | None => None
  end = Some (statement_for keys).
Proof.
  intros keys Hne Hid. unfold query_for.
  rewrite lex_update, (lex_fields keys _ Hne Hid).
  change (lex Between (lit ", updated_at = ? WHERE id = ?"))
    with (Some stamp_tokens).
  cbn [prepend app]. unfold parse.
  change (same_word (lit "UPDATE") (lit "update")) with true.
  change (same_word (lit "resources") (lit "resources")) with true.
  change (same_word (lit "SET") (lit "set")) with true.
  cbn [andb]. rewrite (parse_fields keys Hne). reflexivity.
Qed.

Lemma word_char_encodable : forall c,
  word_char c = true -> ((c <? 55296) || ((57343 <? c) && (c <=? 1114111)))%N = true.
Proof.
  intros c H. apply orb_true_iff. left. apply N.ltb_lt.
  unfold word_char, word_start, Security.is_ascii_lower,
    Security.is_ascii_upper, Security.is_ascii_digit in H.
  change (chr "_") with 95%N in H.
  rewrite !orb_true_iff, !andb_true_iff, !N.leb_le, N.eqb_eq in H. lia.
Qed.

Lemma identifier_encodable : forall k,
  identifier k = true -> encodable k = true.
Proof.
  intros [|c w] H; [discriminate|].
  cbn [identifier] in H. apply andb_true_iff in H. destruct H as [Hc Hw].
  unfold encodable. cbn [forallb]. apply andb_true_iff. split.
  - apply word_char_encodable. unfold word_char. now rewrite Hc.
  - rewrite forallb_forall in *. intros x Hx.
    apply word_char_encodable. auto.
Qed.

Lemma encodable_app : forall a b,
  encodable (a ++ b) = encodable a && encodable b.
Proof. intros a b. apply forallb_app. Qed.

Lemma encodable_fields : forall keys,
  forallb identifier keys = true ->
  encodable (join (lit ", ") (map field_of keys)) = true.
Proof.
  induction keys as [|k keys IH]; intros H; [reflexivity|].
  simpl in H. apply andb_true_iff in H. destruct H as [Hk Hks].
  destruct keys as [|k' keys].
  - cbn [map join]. unfold field_of. rewrite encodable_app.
    now rewrite (identifier_encodable k Hk).
  - change (join (lit ", ") (map field_of (k :: k' :: keys)))
      with (field_of k ++ lit ", "
            ++ join (lit ", ") (map field_of (k' :: keys))).
    unfold field_of at 1. rewrite !encodable_app.
    rewrite (identifier_encodable k Hk), (IH Hks). reflexivity.
Qed.

Lemma resolves_parameters : forall keys,
  forallb (fun a : str * expr => resolves (fst a)) (parameters keys)
  = forallb resolves keys.
Proof.
  intros keys. unfold parameters. rewrite forallb_app.
  change (forallb _ [(lit "updated_at", EParam)]) with true.
  rewrite andb_true_r. induction keys as [|k keys IH]; simpl; congruence.
Qed.

(** Preparing the statement built for keys written like names: it is
    the expected statement, or an error when a key names no column. *)
Lemma prepare_query : forall keys,
  keys <> [] ->
  forallb identifier keys = true ->
  prepare (query_for keys)
  = if forallb resolves keys then Returned (statement_for keys)
    else Raised OperationalError.
Proof.
  intros keys Hne Hid. unfold prepare.
  replace (encodable (query_for keys)) with true.
  2:{ symmetry. unfold query_for. rewrite !encodable_app.
      now rewrite (encodable_fields keys Hid). }
  cbn [negb]. pose proof (parse_query keys Hne Hid) as H.
  destruct (lex Between (query_for keys)) as [tokens|]; [|discriminate].
  rewrite H. cbn [assignments where_column statement_for].
  rewrite resolves_parameters.
  change (resolves (lit "id")) with true. now rewrite andb_true_r.
Qed.

(** ** [update_resource] *)

(** The keys [update_resource] keeps, and the values that go with
    them. *)
Definition kept (kwargs : list (str * pyval)) : list (str * pyval) :=
  filter (fun kv : str * pyval => negb (str_eqb (fst kv) (lit "id"))) kwargs.

Definition stamped (local_now : datetime) (resource_id : Z)
  (kwargs : list (str * pyval)) : list pyval :=
  map snd (kept kwargs) ++ [PyStr (isoformat local_now); PyInt resource_id].

Lemma update_resource_query :
  forall (E : sqlite) local_now (self : @database E) resource_id kwargs,
    kept kwargs <> [] ->
    update_resource local_now self resource_id kwargs
    = match execute_update self (query_for (map fst (kept kwargs)))
              (stamped local_now resource_id kwargs) with
      | Returned (rowcount, self') => (Returned (0 <? rowcount), self')
      | Raised e => (Raised e, self)
      | Unmodelled => (Unmodelled, self)
      end.
Proof.
  intros E now self n kwargs Hne. unfold update_resource.
  fold (kept kwargs). unfold query_for, stamped.
  rewrite map_map. unfold field_of.
  destruct (kept kwargs) as [|kv rest]; [congruence | reflexivity].
Qed.

Lemma kept_identifiers : forall kwargs,
  forallb (fun kv : str * pyval => identifier (fst kv)) kwargs = true ->
  forallb identifier (map fst (kept kwargs)) = true.
Proof.
  intros kwargs H. rewrite forallb_forall in *. intros k Hk.
  apply in_map_iff in Hk. destruct Hk as [kv [<- Hin]].
  apply filter_In in Hin. now apply H.
Qed.

(** X22: called with no keyword argument, or with [id] alone,
    [update_resource] returns [False] without touching the database,
    whether or not the resource exists; the PUT route answers 404. *)
Theorem update_without_fields_changes_nothing :
  forall (E : sqlite) local_now (self : @database E) resource_id kwargs,
    forallb (fun kv : str * pyval => str_eqb (fst kv) (lit "id")) kwargs
    = true ->
    update_resource local_now self resource_id kwargs
    = (Returned false, self) /\
    update_resource_route local_now self resource_id kwargs
    = (Returned 404%nat, self).
Proof.
  intros E now self n kwargs H.
  assert (Hkept : kept kwargs = []).
  { unfold kept. induction kwargs as [|kv kwargs IH]; [reflexivity|].
    simpl in H. apply andb_true_iff in H. destruct H as [Hk Hks].
    simpl. rewrite Hk. simpl. now apply IH. }
  assert (Hupd : update_resource now self n kwargs = (Returned false, self)).
  { unfold update_resource. fold (kept kwargs). now rewrite Hkept. }
  split; [exact Hupd|].
  unfold update_resource_route. rewrite Hupd.
  replace (existsb _ kwargs) with false; [reflexivity|].
  symmetry. clear Hkept Hupd.
  induction kwargs as [|kv kwargs IH]; [reflexivity|].
  simpl in H. apply andb_true_iff in H. destruct H as [Hk Hks].
  cbn [existsb]. rewrite (IH Hks), orb_false_r.
  apply str_eqb_eq in Hk. rewrite Hk. reflexivity.
Qed.

(** X23: a keyword argument that is written like a name but names no
    column makes [update_resource] raise [sqlite3.OperationalError]:
    it neither returns nor changes the database.  Through the PUT route
    the exception leaves the view. *)
Theorem unknown_column_raises :
  forall (E : sqlite) local_now (self : @database E) resource_id kwargs,
    forallb (fun kv : str * pyval => identifier (fst kv)) kwargs = true ->
    existsb (fun kv : str * pyval => negb (resolves (fst kv))) kwargs
    = true ->
    update_resource local_now self resource_id kwargs
    = (Raised OperationalError, self) /\
    (update_resource_route local_now self resource_id kwargs
     = (Raised OperationalError, self) \/
     update_resource_route local_now self resource_id kwargs
     = (Raised TypeError, self)).
Proof.
  intros E now self n kwargs Hid Hbad.
  apply existsb_exists in Hbad. destruct Hbad as [kv [Hin Hkv]].
  apply negb_true_iff in Hkv.
  assert (Hk : In kv (kept kwargs)).
  { apply filter_In. split; [exact Hin|]. apply negb_true_iff.
    destruct (str_eqb (fst kv) (lit "id")) eqn:E1; [|reflexivity].
    apply str_eqb_eq in E1. rewrite E1 in Hkv. discriminate Hkv. }
  assert (Hne : kept kwargs <> []) by (intros H0; now rewrite H0 in Hk).
  assert (Hres : forallb resolves (map fst (kept kwargs)) = false).
  { destruct (forallb resolves _) eqn:E1; [|reflexivity].
    rewrite forallb_forall in E1.
    rewrite (E1 (fst kv)) in Hkv by (now apply in_map). discriminate Hkv. }
  assert (Hupd : update_resource now self n kwargs
                 = (Raised OperationalError, self)).
  { rewrite (update_resource_query E now self n kwargs Hne).
    unfold execute_update.
    rewrite prepare_query;
      [ | intros H0; apply map_eq_nil in H0; contradiction
        | now apply kept_identifiers ].
    rewrite Hres. reflexivity. }
  split; [exact Hupd|].
  unfold update_resource_route. rewrite Hupd.
  destruct (existsb _ kwargs); [now right | now left].
Qed.

(** A reading of the clock in a zone five hours behind UTC. *)
Definition evening : datetime :=
  {| year := 2024; month := 4; day := 30;
     hour := 21; minute := 0; second := 1; microsecond := 0 |}.

Lemma update_without_fields_changes_nothing_witness :
  get_resource library 1 false <> Returned None /\
  update_resource evening library 1 [(lit "id", PyInt 7)]
  = (Returned false, library) /\
  update_resource_route evening library 1 [(lit "id", PyInt 7)]
  = (Returned 404%nat, library).
Proof.
  split; [vm_compute; discriminate|].
  apply update_without_fields_changes_nothing. reflexivity.
Defined.

Lemma unknown_column_raises_witness :
  let kwargs := [(lit "title", PyStr (lit "Nmap")); (lit "owner", PyNone)] in
  update_resource evening library 1 kwargs
  = (Raised OperationalError, library) /\
  (update_resource_route evening library 1 kwargs
   = (Raised OperationalError, library) \/
   update_resource_route evening library 1 kwargs
   = (Raised TypeError, library)).
Proof.
  cbv zeta. apply unknown_column_raises; reflexivity.
Defined.

Lemma bind_all_app : forall a b,
  bind_all (a ++ b)
  = and_then (bind_all a) (fun x =>
      and_then (bind_all b) (fun y => Returned (x ++ y))).
Proof.
  induction a as [|v a IH]; intros b; simpl.
  - destruct (bind_all b); reflexivity.
  - destruct (bind_value v); cbn [and_then]; try reflexivity.
    rewrite IH. destruct (bind_all a); cbn [and_then]; try reflexivity.
    destruct (bind_all b); reflexivity.
Qed.

Lemma bind_all_length : forall values bound,
  bind_all values = Returned bound ->
  List.length bound = List.length values.
Proof.
  induction values as [|v values IH]; intros bound H; simpl in H.
  - now injection H as <-.
  - destruct (bind_value v); try discriminate. cbn [and_then] in H.
    destruct (bind_all values) as [bs| |]; try discriminate.
    injection H as <-. simpl. now rewrite (IH bs).
Qed.

Lemma bind_all_supplied : forall (l : list (str * pyval)) bound w v,
  bind_all (map snd l) = Returned bound ->
  In (w, v) (combine (map fst l) bound) ->
  exists kv, In kv l /\ fst kv = w /\ bind_value (snd kv) = Returned v.
Proof.
  induction l as [|kv l IH]; intros bound w v H Hin; [destruct Hin|].
  simpl in H. destruct (bind_value (snd kv)) as [b| |] eqn:Hb;
    try discriminate.
  cbn [and_then] in H.
  destruct (bind_all (map snd l)) as [bs| |] eqn:Hbs; try discriminate.
  injection H as <-. simpl in Hin. destruct Hin as [Hin|Hin].
  - injection Hin as <- <-. exists kv. repeat split; auto. now left.
  - destruct (IH bs w v eq_refl Hin) as [kv' [H1 H2]].
    exists kv'. split; [now right | exact H2].
Qed.

Lemma evaluate_parameters : forall keys bound stamp key,
  List.length keys = List.length bound ->
  evaluate_assignments (parameters keys) (bound ++ [stamp; key])
  = Returned (combine keys bound ++ [(lit "updated_at", stamp)], [key]).
Proof.
  unfold parameters.
  induction keys as [|k keys IH]; intros [|b bound] stamp key H;
    try discriminate H; [reflexivity|].
  simpl in H. injection H as H.
  cbn [map app evaluate_assignments evaluate and_then].
  rewrite (IH bound stamp key H). reflexivity.
Qed.

Lemma parameter_count_for : forall keys,
  parameter_count (statement_for keys) = S (S (List.length keys)).
Proof.
  intros keys. unfold parameter_count, statement_for, parameters.
  cbn [assignments where_value is_param].
  rewrite filter_app, length_app. cbn [filter snd is_param List.length].
  replace (filter _ (map (fun k : str => (k, EParam)) keys))
    with (map (fun k : str => (k, EParam)) keys).
  - rewrite length_map. lia.
  - induction keys as [|k keys IH]; simpl; congruence.
Qed.

Lemma set_same : forall r c v, set r c v c = v.
Proof.
  intros r c v. unfold set, Col.eqb.
  destruct (Col.eq_dec c c); [reflexivity | congruence].
Qed.

Lemma set_other : forall r c c' v, c <> c' -> set r c v c' = r c'.
Proof.
  intros r c c' v H. unfold set, Col.eqb.
  destruct (Col.eq_dec c c'); [congruence | reflexivity].
Qed.

(** Whether a word stands for a column. *)
Definition names (w : str) (c : Col.t) : bool :=
  match target w with
  | Some c' => Col.eqb c' c
  | None => false
  end.

(** What goes with the last word of a list that stands for a column. *)
Fixpoint last_named {V : Type} (c : Col.t) (l : list (str * V))
  : option V :=
  match l with
  | [] => None
  | (w, v) :: rest =>
      match last_named c rest with
      | Some v' => Some v'
      | None => if names w c then Some v else None
      end
  end.

Lemma last_named_app : forall (V : Type) c (a b : list (str * V)),
  last_named c (a ++ b)
  = match last_named c b with
    | Some v => Some v
    | None => last_named c a
    end.
Proof.
  intros V c a b. induction a as [|[w v] a IH]; cbn [app last_named].
  - now destruct (last_named c b).
  - rewrite IH. now destruct (last_named c b).
Qed.

(** After the assignments a column holds the last value assigned to
    it, as the column stores it, or else what it held. *)
Lemma assign_spec : forall (E : sqlite) sets r r',
  assign E r sets = Returned r' ->
  forall c,
    r' c = match last_named c sets with
           | Some v => store E c v
           | None => r c
           end.
Proof.
  intros E. induction sets as [|[w v] sets IH]; intros r r' H c.
  - injection H as <-. reflexivity.
  - cbn [assign] in H. cbn [last_named]. unfold names.
    destruct (target w) as [c0|]; [|discriminate H].
    rewrite (IH _ _ H c).
    destruct (last_named c sets); [reflexivity|].
    unfold Col.eqb. destruct (Col.eq_dec c0 c) as [->|Hne].
    + apply set_same.
    + now apply set_other.
Qed.

(** The values bound for the keyword arguments, seen from a column. *)
Lemma last_named_bound : forall c (l : list (str * pyval)) bound,
  bind_all (map snd l) = Returned bound ->
  match last_named c l with
  | Some passed =>
      exists v, bind_value passed = Returned v /\
                last_named c (combine (map fst l) bound) = Some v
  | None => last_named c (combine (map fst l) bound) = None
  end.
Proof.
  intros c. induction l as [|[w p] l IH]; intros bound H.
  - injection H as <-. reflexivity.
  - cbn [map snd fst bind_all] in H.
    destruct (bind_value p) as [b| |] eqn:Hb; try discriminate H.
    cbn [and_then] in H.
    destruct (bind_all (map snd l)) as [bs| |] eqn:Hbs; try discriminate H.
    injection H as <-. specialize (IH bs eq_refl).
    cbn [map fst combine last_named].
    destruct (last_named c l) as [p'|].
    + destruct IH as [v [Hv Hl]]. exists v. now rewrite Hl.
    + rewrite IH. destruct (names w c); [|reflexivity].
      exists b. auto.
Qed.

(** An integer of the table fits in 64 bits: a bound value does, and
    so does what affinity makes of it. *)
Definition fits (v : value) : Prop :=
  match v with
  | VInt n => int64 n = true
  | _ => True
  end.

Lemma bind_value_fits : forall p v, bind_value p = Returned v -> fits v.
Proof.
  intros p v H. destruct p as [|b|n|x|s|b|l|d]; cbn in H.
  - injection H as <-. exact I.
  - injection H as <-. now destruct b.
  - unfold bind_int in H. destruct (int64 n) eqn:Hn; [|discriminate H].
    injection H as <-. exact Hn.
  - destruct x; injection H as <-; exact I.
  - unfold bind_str in H. destruct (encodable s); [|discriminate H].
    injection H as <-. exact I.
  - injection H as <-. exact I.
  - discriminate H.
  - discriminate H.
Qed.

Lemma as_number_fits : forall x, fits (as_number x).
Proof.
  intros x. unfold as_number, to_integer.
  destruct (integral x) as [n|]; [|exact I].
  destruct ((- 9223372036854775808 <? n) && (n <? 9223372036854775807))
    eqn:Hn; [|exact I].
  apply andb_true_iff in Hn. destruct Hn as [H1 H2].
  apply Z.ltb_lt in H1, H2. cbn [fits]. unfold int64.
  apply andb_true_iff. split; apply Z.leb_le; lia.
Qed.

Lemma store_fits : forall (E : sqlite) c v, fits v -> fits (store E c v).
Proof.
  intros E c v Hv. unfold store, convert.
  destruct (Col.affinity_of c), v as [|n|s|b|x]; try exact Hv; try exact I;
    try apply as_number_fits;
    (destruct (numeric_form s) as [[n|]|]; [|apply as_number_fits|exact I]);
    (destruct (int64 n) eqn:Hn; [exact Hn | apply as_number_fits]).
Qed.

(** The row of an UPDATE among the rows of the table. *)
Lemma find_moved : forall n n' (r' : row) rows,
  has_id n' r' = true ->
  filter (has_id n) rows <> [] ->
  existsb (has_id n') (filter (fun x => negb (has_id n x)) rows) = false ->
  find (has_id n') (map (fun x => if has_id n x then r' else x) rows)
  = Some r'.
Proof.
  intros n n' r' rows Hr'. induction rows as [|x rows IH]; simpl;
    [congruence|].
  destruct (has_id n x) eqn:Hx; simpl.
  - now rewrite Hr'.
  - intros Hne Hothers. apply orb_false_iff in Hothers.
    destruct Hothers as [Hx' Hothers]. rewrite Hx'. now apply IH.
Qed.

Lemma find_left : forall n n' (r' : row) rows,
  has_id n' r' = true -> n' <> n ->
  find (has_id n) (map (fun x => if has_id n x then r' else x) rows)
  = None.
Proof.
  intros n n' r' rows Hr' Hne. induction rows as [|x rows IH]; simpl;
    [reflexivity|].
  destruct (has_id n x) eqn:Hx.
  - rewrite (has_id_other n' n r' Hr' Hne). exact IH.
  - rewrite Hx. exact IH.
Qed.

Lemma find_not_replaced : forall n n' m (r' : row) rows,
  has_id n' r' = true -> m <> n -> m <> n' ->
  find (has_id m) (map (fun x => if has_id n x then r' else x) rows)
  = find (has_id m) rows.
Proof.
  intros n n' m r' rows Hr' Hn Hn'. induction rows as [|x rows IH]; simpl;
    [reflexivity|].
  destruct (has_id n x) eqn:Hx.
  - rewrite (has_id_other n' m r' Hr'), (has_id_other n m x Hx)
      by congruence. exact IH.
  - destruct (has_id m x); [reflexivity | exact IH].
Qed.

(** The time of the update is no number: it stays the text it is. *)
Lemma digit_char : forall n,
  Security.is_ascii_digit (Z.to_N (48 + n mod 10)) = true.
Proof.
  intros n. pose proof (Z.mod_pos_bound n 10 eq_refl) as H.
  unfold Security.is_ascii_digit.
  apply andb_true_iff. split; apply N.leb_le; lia.
Qed.

Lemma digit_is_no_space : forall c,
  Security.is_ascii_digit c = true ->
  number_space c = false /\ N.eqb c (chr "-") = false /\
  N.eqb c (chr "+") = false.
Proof.
  intros c H. unfold Security.is_ascii_digit in H.
  apply andb_true_iff in H. destruct H as [H1 H2].
  apply N.leb_le in H1, H2. unfold number_space.
  change (chr "-") with 45%N. change (chr "+") with 43%N.
  repeat split.
  - apply orb_false_iff. split.
    + apply andb_false_iff. right. apply N.leb_gt. lia.
    + apply N.eqb_neq. lia.
  - apply N.eqb_neq. lia.
  - apply N.eqb_neq. lia.
Qed.

Lemma date_is_no_number : forall a b c d rest,
  Security.is_ascii_digit a = true -> Security.is_ascii_digit b = true ->
  Security.is_ascii_digit c = true -> Security.is_ascii_digit d = true ->
  numeric_form (a :: b :: c :: d :: chr "-" :: rest) = None.
Proof.
  intros a b c d rest Ha Hb Hc Hd.
  destruct (digit_is_no_space a Ha) as [Hs [Hm Hp]].
  unfold numeric_form. cbn [Security.lstrip_by]. rewrite Hs.
  cbn [span_sign]. rewrite Hm, Hp.
  cbn [span_digits]. rewrite Ha, Hb, Hc, Hd.
  reflexivity.
Qed.

Lemma isoformat_is_no_number : forall d, numeric_form (isoformat d) = None.
Proof.
  intros d. unfold isoformat, date_text. cbn [digits app].
  change (lit "-") with [chr "-"]. cbn [app].
  apply date_is_no_number; apply digit_char.
Qed.

Lemma store_isoformat : forall (E : sqlite) c d,
  store E c (VText (isoformat d)) = VText (isoformat d).
Proof.
  intros E c d. unfold store, convert.
  rewrite isoformat_is_no_number. now destruct (Col.affinity_of c).
Qed.

Lemma stamp_names_updated_at : forall c,
  c <> Col.updated_at -> names (lit "updated_at") c = false.
Proof. intros c H. destruct c; try reflexivity. congruence. Qed.

(** What a call of [update_resource] that returns [True] has done,
    when its keys are written like names. *)
Lemma update_resource_succeeded :
  forall (E : sqlite) local_now (self self' : @database E) resource_id
         kwargs,
    forallb (fun kv : str * pyval => identifier (fst kv)) kwargs = true ->
    update_resource local_now self resource_id kwargs
    = (Returned true, self') ->
    exists bound r r' new_id,
      bind_all (map snd (kept kwargs)) = Returned bound /\
      int64 resource_id = true /\
      filter (has_id resource_id) (resources self) = [r] /\
      assign E r (combine (map fst (kept kwargs)) bound
                  ++ [(lit "updated_at", VText (isoformat local_now))])
      = Returned r' /\
      r' Col.id = VInt new_id /\
      existsb (has_id new_id)
        (filter (fun x => negb (has_id resource_id x)) (resources self))
      = false /\
      resources self'
      = map (fun x => if has_id resource_id x then r' else x)
          (resources self) /\
      sqlite_sequence self' = sqlite_sequence self.
Proof.
  intros E now self self' n kwargs Hid H.
  assert (Hne : kept kwargs <> []).
  { intros H0. unfold update_resource in H. fold (kept kwargs) in H.
    rewrite H0 in H. discriminate H. }
  rewrite (update_resource_query E now self n kwargs Hne) in H.
  unfold execute_update in H.
  rewrite prepare_query in H;
    [ | intros H0; apply map_eq_nil in H0; contradiction
      | now apply kept_identifiers ].
  destruct (forallb resolves (map fst (kept kwargs)));
    [|discriminate H].
  cbn [and_then] in H. rewrite parameter_count_for in H.
  unfold stamped in H.
  replace (S (S (List.length (map fst (kept kwargs))))
           =? List.length (map snd (kept kwargs)
                           ++ [PyStr (isoformat now); PyInt n]))%nat
    with true in H
    by (symmetry; apply Nat.eqb_eq; rewrite length_app, !length_map;
        simpl; lia).
  cbn [negb] in H. rewrite bind_all_app in H.
  destruct (bind_all (map snd (kept kwargs))) as [bound| |] eqn:Hb;
    try discriminate H.
  cbn [and_then bind_all bind_value] in H. unfold bind_str, bind_int in H.
  destruct (encodable (isoformat now)); [|discriminate H].
  cbn [and_then] in H.
  destruct (int64 n) eqn:Hn; [|discriminate H].
  cbn [and_then] in H.
  cbn [assignments where_value where_column statement_for] in H.
  rewrite evaluate_parameters in H
    by (rewrite length_map, (bind_all_length _ _ Hb), length_map;
        reflexivity).
  cbn [and_then evaluate] in H.
  change (names_key (lit "id")) with true in H. cbn [negb] in H.
  destruct (filter (has_id n) (resources self)) as [|r [|r2 more]] eqn:Hf;
    try discriminate H.
  destruct (assign E r _) as [r'| |] eqn:Ha; try discriminate H.
  cbn [and_then] in H.
  destruct (r' Col.id) as [|n'| | |] eqn:Hkey; try discriminate H.
  destruct (violates_not_null r'); [discriminate H|].
  destruct (existsb (has_id n') _) eqn:Hothers; [discriminate H|].
  destruct (violates_unique r' _); [discriminate H|].
  destruct (fts_update E _ _ _ _); [|discriminate H].
  injection H as <-.
  exists bound, r, r', n'. repeat split; auto.
Qed.

Lemma dict_of_all : forall (r : row) c,
  dict_get (dict_of Col.all r) (Col.name c) = Some (r c).
Proof. intros r c. destruct c; reflexivity. Qed.

(** X24: a call of [update_resource] with keys written like names that
    returns [True] has changed one resource only.  [updated_at] is the
    local time of the call in ISO format.  Every other column that a
    key names, in any letter case, holds the value passed with the last
    such key, as SQLite binds it and stores it under the affinity of
    the column; a column no key names is unchanged.  The id is a column
    like the others under a name that is not exactly [id] ([ID],
    [rowid], ...): the resource is then found under the new id and no
    longer under the old one.  No other resource is touched. *)
Theorem successful_update_touches_only_its_fields :
  forall (E : sqlite) local_now (self self' : @database E) resource_id
         kwargs,
    forallb (fun kv : str * pyval => identifier (fst kv)) kwargs = true ->
    update_resource local_now self resource_id kwargs
    = (Returned true, self') ->
    exists (before after : row) (new_id : Z),
      get_resource self resource_id true
      = Returned (Some (dict_of Col.all before)) /\
      get_resource self' new_id true
      = Returned (Some (dict_of Col.all after)) /\
      after Col.id = VInt new_id /\
      (new_id <> resource_id ->
       get_resource self' resource_id true = Returned None) /\
      after Col.updated_at = VText (isoformat local_now) /\
      (forall c, c <> Col.updated_at ->
         match last_named c (kept kwargs) with
         | Some passed =>
             exists v, bind_value passed = Returned v /\
                       after c = store E c v
         | None => after c = before c
         end) /\
      (forall other include_file_data,
         other <> resource_id -> other <> new_id ->
         get_resource self' other include_file_data
         = get_resource self other include_file_data).
Proof.
  intros E now self self' n kwargs Hid H.
  destruct (update_resource_succeeded E now self self' n kwargs Hid H)
    as (bound & r & r' & n' & Hb & Hn & Hf & Ha & Hkey & Hothers & Hrows & _).
  pose proof (assign_spec E _ _ _ Ha) as Hval.
  assert (Hr' : has_id n' r' = true).
  { unfold has_id. rewrite Hkey. apply value_eqb_refl. }
  assert (Hcol : forall c, c <> Col.updated_at ->
            match last_named c (kept kwargs) with
            | Some passed =>
                exists v, bind_value passed = Returned v /\
                          r' c = store E c v
            | None => r' c = r c
            end).
  { intros c Hc. rewrite (Hval c), last_named_app.
    cbn [last_named]. rewrite (stamp_names_updated_at c Hc).
    pose proof (last_named_bound c (kept kwargs) bound Hb) as Hl.
    destruct (last_named c (kept kwargs)) as [p|].
    - destruct Hl as [v [Hv Hl]]. rewrite Hl. exists v. auto.
    - now rewrite Hl. }
  assert (Hn' : int64 n' = true).
  { assert (Hfits : fits (r' Col.id)).
    { assert (Hrid : r Col.id = VInt n).
      { apply has_id_inv.
        assert (Hin : In r (filter (has_id n) (resources self)))
          by (rewrite Hf; now left).
        apply filter_In in Hin. tauto. }
      specialize (Hcol Col.id). 
      destruct (last_named Col.id (kept kwargs)) as [p|].
      - destruct Hcol as [v [Hv ->]]; [discriminate|].
        apply store_fits. exact (bind_value_fits _ _ Hv).
      - rewrite Hcol, Hrid by discriminate. exact Hn. }
    rewrite Hkey in Hfits. exact Hfits. }
  exists r, r', n'.
  split; [|split; [|split; [|split; [|split; [|split]]]]].
  - unfold get_resource, bind_int. rewrite Hn. cbn [and_then].
    now rewrite find_is_first, Hf.
  - unfold get_resource, bind_int. rewrite Hn'. cbn [and_then].
    rewrite Hrows, find_moved; auto. rewrite Hf. discriminate.
  - exact Hkey.
  - intros Hne. unfold get_resource, bind_int. rewrite Hn.
    cbn [and_then]. now rewrite Hrows, (find_left n n' r' _ Hr' Hne).
  - rewrite (Hval Col.updated_at), last_named_app.
    change (last_named Col.updated_at
              [(lit "updated_at", VText (isoformat now))])
      with (Some (VText (isoformat now))).
    apply store_isoformat.
  - exact Hcol.
  - intros other flag Hne Hne'. unfold get_resource.
    now rewrite Hrows, (find_not_replaced n n' other r' _ Hr').
Qed.

Definition new_link : list (str * pyval) :=
  [ (lit "url", PyStr (lit "https://nmap.org/book/"));
    (lit "File_Type", PyStr (lit "text/html")) ].

(** Keys written like names that are more than the column names of the
    signature: the id under another spelling, a number for a text, a
    text for a number. *)
Definition moved : list (str * pyval) :=
  [ (lit "ID", PyInt 5);
    (lit "title", PyInt 5);
    (lit "file_size", PyStr (lit "12")) ].

Lemma successful_update_touches_only_its_fields_witness :
  let self' := snd (update_resource evening library 1 moved) in
  fst (update_resource evening library 1 moved) = Returned true /\
  exists after : row,
    get_resource self' 5 true = Returned (Some (dict_of Col.all after)) /\
    get_resource self' 1 true = Returned None /\
    after Col.id = VInt 5 /\
    after Col.title = VText (lit "5") /\
    after Col.file_size = VInt 12 /\
    after Col.updated_at = VText (isoformat evening) /\
    after Col.category = VText (lit "Red Team").
Proof.
  cbv zeta. split; [vm_compute; reflexivity|].
  assert (Hupd : update_resource evening library 1 moved
                 = (Returned true,
                    snd (update_resource evening library 1 moved)))
    by (vm_compute; reflexivity).
  destruct (successful_update_touches_only_its_fields append_only evening
              library (snd (update_resource evening library 1 moved))
              1 moved eq_refl Hupd)
    as (before & after & new_id & Hbefore & Hafter & Hid & Hgone & Hstamp
        & Hcol & _).
  assert (Hnew : after Col.id = VInt 5).
  { pose proof (Hcol Col.id) as H. cbn in H.
    destruct H as [v [Hv ->]]; [discriminate|].
    injection Hv as <-. reflexivity. }
  assert (new_id = 5) by congruence. subst new_id.
  exists after. split; [exact Hafter|].
  split; [apply Hgone; discriminate|]. split; [exact Hnew|].
  split; [|split; [|split; [exact Hstamp|]]].
  - pose proof (Hcol Col.title) as H. cbn in H.
    destruct H as [v [Hv ->]]; [discriminate|].
    injection Hv as <-. reflexivity.
  - pose proof (Hcol Col.file_size) as H. cbn in H.
    destruct H as [v [Hv ->]]; [discriminate|].
    injection Hv as <-. reflexivity.
  - pose proof (Hcol Col.category) as H. cbn in H.
    rewrite H by discriminate.
    assert (Hc : match get_resource library 1 true with
                 | Returned (Some d) => dict_get d (Col.name Col.category)
                 | _ => None
                 end = Some (VText (lit "Red Team")))
      by (vm_compute; reflexivity).
    rewrite Hbefore, dict_of_all in Hc. now injection Hc.
Defined.

(** ** The two clocks *)

(** [a < b] on text, as Python and SQLite compare it: character by
    character, by code point. *)
Fixpoint str_ltb (a b : str) : bool :=
  match a, b with
  | _, [] => false
  | [], _ :: _ => true
  | x :: a', y :: b' => (x <? y)%N || ((x =? y)%N && str_ltb a' b')
  end.

Definition str_leb (a b : str) : bool := negb (str_ltb b a).

Lemma digits_length : forall width n, List.length (digits width n) = width.
Proof.
  induction width as [|w IH]; intros n; [reflexivity|].
  cbn [digits]. rewrite length_app, IH. simpl. lia.
Qed.

Lemma date_text_length : forall d, List.length (date_text d) = 10%nat.
Proof.
  intros d. unfold date_text.
  rewrite !length_app, !digits_length. reflexivity.
Qed.

(** Two texts that differ first in a space against a [T]. *)
Lemma space_before_T : forall d1 d2 t1 t2,
  List.length d1 = List.length d2 ->
  str_ltb (d1 ++ 32%N :: t1) (d2 ++ 84%N :: t2) = str_leb d1 d2.
Proof.
  unfold str_leb.
  induction d1 as [|x d1 IH]; intros [|y d2] t1 t2 H; try discriminate H.
  - reflexivity.
  - simpl in H. injection H as H. cbn [app str_ltb].
    rewrite (IH d2 t1 t2 H).
    destruct (N.ltb_spec x y), (N.ltb_spec y x), (N.eqb_spec x y),
      (N.eqb_spec y x); try lia; try reflexivity;
      cbn [orb andb negb]; try reflexivity; lia.
Qed.

Lemma timestamps_compare : forall utc local_now,
  str_ltb (CURRENT_TIMESTAMP utc) (isoformat local_now)
  = str_leb (date_text utc) (date_text local_now).
Proof.
  intros utc now. unfold CURRENT_TIMESTAMP, isoformat.
  change (lit " " ++ time_text utc) with (32%N :: time_text utc).
  change (lit "T" ++ time_text now ++ ?x) with (84%N :: time_text now ++ x).
  apply space_before_T. now rewrite !date_text_length.
Qed.

(** X25: across a create and a first update with keys written like
    names, [updated_at] goes from the UTC time of the INSERT, written
    with a space, to the local time of the update, written with a [T];
    the resource is found under its id, or under the new one when a key
    names the id.  As text, the new value is greater than the old one
    exactly when the local date of the update is not before the UTC
    date of the create: the times of day are never compared. *)
Theorem updated_at_after_first_update :
  forall (E : sqlite) fs utc_now local_now
         (self created updated : @database E) a resource_id kwargs,
    add_resource fs utc_now self a = (Returned (Some resource_id), created) ->
    forallb (fun kv : str * pyval => identifier (fst kv)) kwargs = true ->
    update_resource local_now created resource_id kwargs
    = (Returned true, updated) ->
    exists (before after : row) (new_id : Z),
      get_resource created resource_id true
      = Returned (Some (dict_of Col.all before)) /\
      get_resource updated new_id true
      = Returned (Some (dict_of Col.all after)) /\
      (last_named Col.id (kept kwargs) = None -> new_id = resource_id) /\
      before Col.updated_at = VText (CURRENT_TIMESTAMP utc_now) /\
      before Col.created_at = VText (CURRENT_TIMESTAMP utc_now) /\
      after Col.updated_at = VText (isoformat local_now) /\
      str_ltb (CURRENT_TIMESTAMP utc_now) (isoformat local_now)
      = str_leb (date_text utc_now) (date_text local_now).
Proof.
  intros E fs utc now self s1 s2 a n kwargs Hadd Hid Hupd.
  destruct (created_row E fs utc self s1 a n Hadd)
    as (h & d & tags & r0 & _ & _ & _ & _ & Hrow & _).
  destruct (update_resource_succeeded E now s1 s2 n kwargs Hid Hupd)
    as (bound & r & r' & n' & Hb & Hn & Hf & Ha & Hkey & Hothers & Hrows & _).
  rewrite Hrow in Hf. injection Hf as <-.
  pose proof (assign_spec E _ _ _ Ha) as Hval.
  assert (Hr' : has_id n' r' = true).
  { unfold has_id. rewrite Hkey. apply value_eqb_refl. }
  assert (Hsame : last_named Col.id (kept kwargs) = None -> n' = n).
  { intros Hnone. pose proof (Hval Col.id) as Hv.
    rewrite last_named_app in Hv. cbn [last_named] in Hv.
    rewrite (stamp_names_updated_at Col.id) in Hv by discriminate.
    pose proof (last_named_bound Col.id (kept kwargs) bound Hb) as Hl.
    rewrite Hnone in Hl. rewrite Hl, Hkey in Hv.
    change (inserted (as_stored E r0) n utc Col.id) with (VInt n) in Hv.
    congruence. }
  assert (Hn' : int64 n' = true).
  { assert (Hfits : fits (r' Col.id)).
    { pose proof (Hval Col.id) as Hv.
      rewrite last_named_app in Hv. cbn [last_named] in Hv.
      rewrite (stamp_names_updated_at Col.id) in Hv by discriminate.
      pose proof (last_named_bound Col.id (kept kwargs) bound Hb) as Hl.
      destruct (last_named Col.id (kept kwargs)) as [p|].
      - destruct Hl as [v [Hp Hl]]. rewrite Hl in Hv. rewrite Hv.
        apply store_fits. exact (bind_value_fits _ _ Hp).
      - rewrite Hl in Hv. rewrite Hv. exact Hn. }
    rewrite Hkey in Hfits. exact Hfits. }
  exists (inserted (as_stored E r0) n utc), r', n'.
  split; [|split; [|split; [|split; [|split; [|split]]]]].
  - unfold get_resource, bind_int. rewrite Hn. cbn [and_then].
    now rewrite find_is_first, Hrow.
  - unfold get_resource, bind_int. rewrite Hn'. cbn [and_then].
    rewrite Hrows, find_moved; auto. rewrite Hrow. discriminate.
  - exact Hsame.
  - reflexivity.
  - reflexivity.
  - rewrite (Hval Col.updated_at), last_named_app.
    change (last_named Col.updated_at
              [(lit "updated_at", VText (isoformat now))])
      with (Some (VText (isoformat now))).
    apply store_isoformat.
  - apply timestamps_compare.
Qed.

(** A resource created at two in the morning of 1 May, UTC, and updated
    a second later where the clock is five hours behind, on the evening
    of 30 April: [updated_at] goes down. *)
Definition small_hours : datetime :=
  {| year := 2024; month := 5; day := 1;
     hour := 2; minute := 0; second := 0; microsecond := 0 |}.

Lemma updated_at_after_first_update_witness :
  let a := in_category (lit "nmap guide") (lit "Red Team") in
  let created := snd (add_resource no_files small_hours fresh a) in
  let updated := snd (update_resource evening created 1 new_link) in
  str_ltb (CURRENT_TIMESTAMP small_hours) (isoformat evening) = false /\
  exists before after : row,
    get_resource created 1 true
    = Returned (Some (dict_of Col.all before)) /\
    get_resource updated 1 true
    = Returned (Some (dict_of Col.all after)) /\
    before Col.updated_at = VText (CURRENT_TIMESTAMP small_hours) /\
    after Col.updated_at = VText (isoformat evening).
Proof.
  cbv zeta. split; [vm_compute; reflexivity|].
  assert (Hadd : add_resource no_files small_hours fresh
                   (in_category (lit "nmap guide") (lit "Red Team"))
                 = (Returned (Some 1),
                    snd (add_resource no_files small_hours fresh
                           (in_category (lit "nmap guide")
                              (lit "Red Team")))))
    by (vm_compute; reflexivity).
  assert (Hupd : update_resource evening
                   (snd (add_resource no_files small_hours fresh
                           (in_category (lit "nmap guide")
                              (lit "Red Team")))) 1 new_link
                 = (Returned true,
                    snd (update_resource evening
                           (snd (add_resource no_files small_hours fresh
                                   (in_category (lit "nmap guide")
                                      (lit "Red Team")))) 1 new_link)))
    by (vm_compute; reflexivity).
  destruct (updated_at_after_first_update append_only no_files small_hours
              evening fresh _ _ _ 1 new_link Hadd eq_refl Hupd)
    as (before & after & new_id & Hbefore & Hafter & Hsame & Hold & _
        & Hnew & _).
  rewrite (Hsame eq_refl) in Hafter.
  exists before, after. auto.
Defined.

(** ** Keys that are more than a name *)

(** A character of a quoted string that needs no care: no quote, no
    NUL, and one that UTF-8 can encode. *)
Definition plain (c : char) : bool :=
  negb (N.eqb c (chr "'")) && negb (N.eqb c 0) &&
  ((c <? 55296) || ((57343 <? c) && (c <=? 1114111)))%N.

(** A key that holds an assignment of its own, and the start of a
    second one. *)
Definition smuggled (c1 : Col.t) (text : str) (c2 : Col.t) : str :=
  Col.name c1 ++ lit " = '" ++ text ++ lit "', " ++ Col.name c2.

Lemma name_identifier : forall c, identifier (Col.name c) = true.
Proof. intros c. destruct c; reflexivity. Qed.

Lemma name_resolves : forall c, resolves (Col.name c) = true.
Proof. intros c. destruct c; reflexivity. Qed.

Lemma lex_string_chars : forall text acc rest,
  forallb plain text = true ->
  lex (InString acc) (text ++ rest) = lex (InString (rev text ++ acc)) rest.
Proof.
  induction text as [|c text IH]; intros acc rest H; [reflexivity|].
  simpl in H. apply andb_true_iff in H. destruct H as [Hc Ht].
  unfold plain in Hc. apply andb_true_iff in Hc. destruct Hc as [Hc _].
  apply andb_true_iff in Hc. destruct Hc as [Hq Hz].
  apply negb_true_iff in Hq, Hz.
  cbn [app lex step]. rewrite Hq, Hz, (IH _ _ Ht).
  cbn [rev]. rewrite <- app_assoc. cbn [app].
  destruct (lex _ rest); reflexivity.
Qed.

Lemma lex_word_assign : forall acc rest,
  lex (InWord acc) (lit " = '" ++ rest)
  = prepend [TWord (rev acc); TEq] (lex (InString []) rest).
Proof.
  intros acc rest. cbn. destruct (lex (InString []) rest); reflexivity.
Qed.

Lemma lex_string_end : forall acc rest,
  lex (InString acc) (lit "', " ++ rest)
  = prepend [TString (rev acc); TComma] (lex Between rest).
Proof. intros acc rest. cbn. destruct (lex Between rest); reflexivity. Qed.

Lemma lex_smuggled : forall c1 text c2 rest,
  forallb plain text = true ->
  lex Between (smuggled c1 text c2 ++ lit " = ?" ++ rest)
  = prepend [TWord (Col.name c1); TEq; TString text; TComma;
             TWord (Col.name c2); TEq; TParam] (lex Between rest).
Proof.
  intros c1 text c2 rest Ht. unfold smuggled. rewrite <- !app_assoc.
  pose proof (name_identifier c1) as H1.
  destruct (Col.name c1) as [|x w] eqn:E1; [discriminate|].
  cbn [identifier] in H1. apply andb_true_iff in H1.
  destruct H1 as [Hx Hw].
  cbn [app lex step]. rewrite (word_start_begin x Hx).
  rewrite (lex_word_chars w [x] _ Hw), lex_word_assign.
  rewrite (lex_string_chars text [] _ Ht), lex_string_end.
  rewrite (lex_identifier (Col.name c2) rest (name_identifier c2)).
  rewrite !prepend_prepend, app_nil_r, rev_involutive.
  rewrite rev_app_distr, rev_involutive. cbn [rev app].
  destruct (lex Between rest); reflexivity.
Qed.

Definition smuggled_statement (c1 : Col.t) (text : str) (c2 : Col.t)
  : update_statement :=
  {| assignments := [ (Col.name c1, EText text); (Col.name c2, EParam);
                      (lit "updated_at", EParam) ];
     where_column := lit "id";
     where_value := EParam |}.

Lemma encodable_plain : forall text,
  forallb plain text = true -> encodable text = true.
Proof.
  intros text H. unfold encodable. rewrite forallb_forall in *.
  intros c Hc. specialize (H c Hc). unfold plain in H.
  apply andb_true_iff in H. tauto.
Qed.

Lemma prepare_smuggled : forall c1 text c2,
  forallb plain text = true ->
  prepare (query_for [smuggled c1 text c2])
  = Returned (smuggled_statement c1 text c2).
Proof.
  intros c1 text c2 Ht. unfold prepare.
  replace (encodable (query_for [smuggled c1 text c2])) with true.
  2:{ symmetry. unfold query_for, smuggled. cbn [map join].
      unfold field_of. rewrite !encodable_app.
      rewrite (encodable_plain text Ht).
      rewrite !(identifier_encodable _ (name_identifier _)). reflexivity. }
  cbn [negb]. unfold query_for. cbn [map join]. unfold field_of.
  rewrite <- !app_assoc.
  rewrite lex_update, (lex_smuggled c1 text c2 _ Ht).
  change (lex Between (lit ", updated_at = ? WHERE id = ?"))
    with (Some stamp_tokens).
  cbn [prepend app]. unfold parse.
  change (same_word (lit "UPDATE") (lit "update")) with true.
  change (same_word (lit "resources") (lit "resources")) with true.
  change (same_word (lit "SET") (lit "set")) with true.
  cbn. rewrite !name_resolves. reflexivity.
Qed.

(** X26: the keys go into the statement as they are, so a key can
    bring an assignment of its own: the single key
    [c1 = 'text', c2], passed with a value [v], does what the two keys
    [c1] and [c2] do when passed with [text] and [v]. *)
Theorem key_can_carry_an_assignment :
  forall (E : sqlite) local_now (self : @database E) resource_id
         (c1 c2 : Col.t) (text : str) (v : pyval),
    c1 <> Col.id -> c2 <> Col.id ->
    forallb plain text = true ->
    update_resource local_now self resource_id [(smuggled c1 text c2, v)]
    = update_resource local_now self resource_id
        [(Col.name c1, PyStr text); (Col.name c2, v)].
Proof.
  intros E now self n c1 c2 text v H1 H2 Ht.
  assert (Hk : kept [(smuggled c1 text c2, v)] = [(smuggled c1 text c2, v)]).
  { unfold kept. cbn [filter fst].
    replace (str_eqb (smuggled c1 text c2) (lit "id")) with false;
      [reflexivity|].
    symmetry. unfold smuggled. destruct c1; reflexivity. }
  assert (Hk2 : kept [(Col.name c1, PyStr text); (Col.name c2, v)]
                = [(Col.name c1, PyStr text); (Col.name c2, v)]).
  { unfold kept. cbn [filter fst].
    replace (str_eqb (Col.name c1) (lit "id")) with false
      by (destruct c1; try reflexivity; congruence).
    replace (str_eqb (Col.name c2) (lit "id")) with false
      by (destruct c2; try reflexivity; congruence).
    reflexivity. }
  rewrite !update_resource_query by (rewrite ?Hk, ?Hk2; discriminate).
  unfold stamped. rewrite Hk, Hk2. cbn [map fst snd app].
  unfold execute_update.
  rewrite (prepare_smuggled c1 text c2 Ht).
  rewrite prepare_query;
    [ | discriminate
      | cbn [forallb]; now rewrite !name_identifier ].
  cbn [forallb]. rewrite !name_resolves. cbn [andb and_then].
  rewrite parameter_count_for.
  cbn [parameter_count smuggled_statement assignments where_value
       filter snd is_param List.length Nat.add Nat.eqb negb].
  cbn [bind_all bind_value]. unfold bind_str at 2.
  rewrite (encodable_plain text Ht). cbn [and_then].
  destruct (bind_value v) as [bv| |]; cbn [and_then]; try reflexivity.
  unfold bind_str, bind_int.
  destruct (encodable (isoformat now)); cbn [and_then]; try reflexivity.
  destruct (int64 n); cbn [and_then]; reflexivity.
Qed.

Lemma key_can_carry_an_assignment_witness :
  let key := lit "url = 'https://evil.example/', file_type" in
  let html := PyStr (lit "text/html") in
  fst (update_resource evening library 1 [(key, html)]) = Returned true /\
  update_resource evening library 1 [(key, html)]
  = update_resource evening library 1
      [ (lit "url", PyStr (lit "https://evil.example/"));
        (lit "file_type", html) ].
Proof.
  cbv zeta. split; [vm_compute; reflexivity|].
  apply (key_can_carry_an_assignment append_only evening library 1
           Col.url Col.file_type (lit "https://evil.example/")
           (PyStr (lit "text/html")));
    [discriminate | discriminate | reflexivity].
Defined.

End Database.
